(** * Voice bridge: realtime session handler, function dispatch and
      conversation registry

    A shallow embedding of [services/functionHandlers.js],
    [services/conversationManager.js] and [services/realtimeHandler.js],
    together with the constants of [config/data.js] and the parts of
    [services/database.js] they call.

    The code is JavaScript, so the embedding starts with the fragment of
    the language the three files rely on: loosely typed values, property
    reads (with the lookup in [Object.prototype] that a plain object
    literal inherits), truthiness, string conversion, exceptions and
    [async] functions whose awaits on the external store are suspension
    points of the event loop. *)

From Stdlib Require Import String Ascii List ZArith Bool Lia DecimalString.
Import ListNotations.
Local Open Scope string_scope.
Local Open Scope Z_scope.
Set Warnings "-register-all".

(* ================================================================== *)
(** ** JavaScript values                                               *)
(* ================================================================== *)

Module Js.

(** Members of [Object.prototype]: every object literal inherits them, so
    [obj[key]] finds them when [key] is not an own property. [B_proto] is
    the accessor [__proto__], which yields the prototype object itself. *)
Inductive Builtin : Set :=
| B_constructor | B_toString | B_toLocaleString | B_valueOf
| B_hasOwnProperty | B_isPrototypeOf | B_propertyIsEnumerable
| B_defineGetter | B_defineSetter | B_lookupGetter | B_lookupSetter
| B_proto.

(** Values. Numbers are restricted to integers; an object is the list of
    its own properties, kept free of duplicate keys by [set_field]. *)
Inductive JsVal : Type :=
| JUndef
| JNull
| JBool (b : bool)
| JNum (n : Z)
| JStr (s : string)
| JArr (xs : list JsVal)
| JObj (fields : list (string * JsVal))
| JBuiltin (b : Builtin).

(** Thrown values: the code only reads [error.message]. *)
Inductive JsError : Set :=
| TypeError (msg : string)
| SyntaxError (msg : string)
| Error (msg : string).

Definition error_message (e : JsError) : string :=
  match e with TypeError m | SyntaxError m | Error m => m end.

(** Result of an expression that may throw. *)
Inductive Exc (A : Type) : Type :=
| Ok (a : A)
| Throw (e : JsError).
Arguments Ok {A} a.
Arguments Throw {A} e.

Definition exc_bind {A B} (x : Exc A) (f : A -> Exc B) : Exc B :=
  match x with Ok a => f a | Throw e => Throw e end.

(** [if (v)], [!v], [a || b]. *)
Definition truthy (v : JsVal) : bool :=
  match v with
  | JUndef | JNull => false
  | JBool b => b
  | JNum n => negb (n =? 0)
  | JStr s => negb (String.eqb s "")
  | JArr _ | JObj _ | JBuiltin _ => true
  end.

Definition js_or (a b : JsVal) : JsVal := if truthy a then a else b.

(** Decimal text of an integer, as a template literal prints it. *)
Definition string_of_Z (n : Z) : string := NilZero.string_of_int (Z.to_int n).

Definition builtin_name (b : Builtin) : string :=
  match b with
  | B_constructor => "constructor"
  | B_toString => "toString"
  | B_toLocaleString => "toLocaleString"
  | B_valueOf => "valueOf"
  | B_hasOwnProperty => "hasOwnProperty"
  | B_isPrototypeOf => "isPrototypeOf"
  | B_propertyIsEnumerable => "propertyIsEnumerable"
  | B_defineGetter => "__defineGetter__"
  | B_defineSetter => "__defineSetter__"
  | B_lookupGetter => "__lookupGetter__"
  | B_lookupSetter => "__lookupSetter__"
  | B_proto => "__proto__"
  end.

Definition all_builtins : list Builtin :=
  [B_constructor; B_toString; B_toLocaleString; B_valueOf; B_hasOwnProperty;
   B_isPrototypeOf; B_propertyIsEnumerable; B_defineGetter; B_defineSetter;
   B_lookupGetter; B_lookupSetter; B_proto].

(** Lookup of a key in [Object.prototype]. *)
Definition object_prototype (key : string) : option Builtin :=
  find (fun b => String.eqb (builtin_name b) key) all_builtins.

Fixpoint join (sep : string) (parts : list string) : string :=
  match parts with
  | [] => ""
  | [p] => p
  | p :: rest => p ++ sep ++ join sep rest
  end.

(** [String(v)], the conversion a template literal and a computed
    property key apply. *)
Fixpoint to_str (v : JsVal) : string :=
  match v with
  | JUndef => "undefined"
  | JNull => "null"
  | JBool true => "true"
  | JBool false => "false"
  | JNum n => string_of_Z n
  | JStr s => s
  | JArr xs =>
      join "," (map (fun x => match x with
                              | JUndef | JNull => ""
                              | _ => to_str x
                              end) xs)
  | JObj _ => "[object Object]"
  | JBuiltin B_proto => "[object Object]"
  | JBuiltin B_constructor => "function Object() { [native code] }"
  | JBuiltin b => "function " ++ builtin_name b ++ "() { [native code] }"
  end.

Fixpoint assoc (key : string) (fields : list (string * JsVal)) : option JsVal :=
  match fields with
  | [] => None
  | (k, v) :: rest => if String.eqb k key then Some v else assoc key rest
  end.

Fixpoint set_field (key : string) (v : JsVal) (fields : list (string * JsVal))
  : list (string * JsVal) :=
  match fields with
  | [] => [(key, v)]
  | (k, v0) :: rest =>
      if String.eqb k key then (k, v) :: rest else (k, v0) :: set_field key v rest
  end.

(** Index denoted by a property key, when the key is the decimal text of
    a natural number. *)
Definition index_of_key (key : string) (len : nat) : option nat :=
  find (fun i => String.eqb (string_of_Z (Z.of_nat i)) key) (seq 0 len).

(** Property read [v[key]] (and [v.key]). Reading from [undefined] or
    [null] throws; a plain object answers with its own property, else
    with the member of [Object.prototype] of that name, else [undefined].
    Arrays and strings answer [length] and indices. *)
Definition get (v : JsVal) (key : string) : Exc JsVal :=
  match v with
  | JUndef => Throw (TypeError ("Cannot read properties of undefined (reading '" ++ key ++ "')"))
  | JNull => Throw (TypeError ("Cannot read properties of null (reading '" ++ key ++ "')"))
  | JObj fields =>
      match assoc key fields with
      | Some x => Ok x
      | None =>
          match object_prototype key with
          | Some b => Ok (JBuiltin b)
          | None => Ok JUndef
          end
      end
  | JArr xs =>
      if String.eqb key "length" then Ok (JNum (Z.of_nat (length xs)))
      else match index_of_key key (length xs) with
           | Some i => Ok (nth i xs JUndef)
           | None => Ok JUndef
           end
  | JStr s =>
      if String.eqb key "length" then Ok (JNum (Z.of_nat (String.length s)))
      else Ok JUndef
  | JBool _ | JNum _ | JBuiltin _ => Ok JUndef
  end.

(** Optional chaining [v?.key]. *)
Definition get_opt (v : JsVal) (key : string) : Exc JsVal :=
  match v with
  | JUndef | JNull => Ok JUndef
  | _ => get v key
  end.

(** [a === b] against a primitive (the code compares with literals only;
    two composite values are distinct references). *)
Definition strict_eq (a b : JsVal) : bool :=
  match a, b with
  | JUndef, JUndef | JNull, JNull => true
  | JBool x, JBool y => Bool.eqb x y
  | JNum x, JNum y => x =? y
  | JStr x, JStr y => String.eqb x y
  | _, _ => false
  end.

(** Call of a member of [Object.prototype] obtained by a property read
    and applied as a plain function: [this] is [undefined] (module code
    is strict). *)
Definition call_builtin (b : Builtin) (arg : JsVal) : Exc JsVal :=
  match b with
  | B_toString => Ok (JStr "[object Undefined]")
  | B_constructor =>
      match arg with
      | JUndef | JNull => Ok (JObj [])
      | _ => Ok arg
      end
  | B_isPrototypeOf =>
      match arg with
      | JObj _ | JArr _ | JBuiltin _ =>
          Throw (TypeError "Cannot convert undefined or null to object")
      | _ => Ok (JBool false)
      end
  | B_proto => Throw (TypeError "handler is not a function")
  | B_toLocaleString =>
      Throw (TypeError "Cannot read properties of undefined (reading 'toString')")
  | _ => Throw (TypeError "Cannot convert undefined or null to object")
  end.

(** [s.toLowerCase()] on the ASCII letters. *)
Definition lower_ascii (c : ascii) : ascii :=
  let n := nat_of_ascii c in
  if (Nat.leb 65 n && Nat.leb n 90)%bool then ascii_of_nat (n + 32) else c.

Fixpoint toLowerCase (s : string) : string :=
  match s with
  | EmptyString => EmptyString
  | String c rest => String (lower_ascii c) (toLowerCase rest)
  end.

(** [s.includes(sub)]. *)
Fixpoint includes (s sub : string) : bool :=
  if String.prefix sub s then true
  else match s with
       | EmptyString => false
       | String _ rest => includes rest sub
       end.

(** Method calls that exist only on strings or only on arrays. *)
Definition str_toLowerCase (v : JsVal) : Exc string :=
  match v with
  | JStr s => Ok (toLowerCase s)
  | JUndef | JNull => Throw (TypeError "Cannot read properties of undefined (reading 'toLowerCase')")
  | _ => Throw (TypeError "toLowerCase is not a function")
  end.

Definition arr_join (v : JsVal) (sep : string) : Exc string :=
  match v with
  | JArr xs =>
      Ok (join sep (map (fun x => match x with
                                  | JUndef | JNull => ""
                                  | _ => to_str x
                                  end) xs))
  | JUndef | JNull => Throw (TypeError "Cannot read properties of undefined (reading 'join')")
  | _ => Throw (TypeError "join is not a function")
  end.

(** [xs.map(f)] for a callback that may throw: the first exception ends
    the iteration. *)
Fixpoint map_exc {A B} (f : A -> Exc B) (xs : list A) : Exc (list B) :=
  match xs with
  | [] => Ok []
  | x :: rest =>
      exc_bind (f x) (fun y => exc_bind (map_exc f rest) (fun ys => Ok (y :: ys)))
  end.

Fixpoint filter_exc {A} (f : A -> Exc bool) (xs : list A) : Exc (list A) :=
  match xs with
  | [] => Ok []
  | x :: rest =>
      exc_bind (f x) (fun keep =>
      exc_bind (filter_exc f rest) (fun ys => Ok (if keep then x :: ys else ys)))
  end.

(** The double quote and the backslash, which a string literal of this
    file cannot hold. *)
Definition dquote : string := String (ascii_of_nat 34) EmptyString.
Definition backslash : string := String (ascii_of_nat 92) EmptyString.

Definition hex_digit (upper : bool) (n : nat) : ascii :=
  if Nat.ltb n 10 then ascii_of_nat (48 + n)
  else ascii_of_nat ((if upper then 55 else 87) + n).

Definition hex_byte (upper : bool) (n : nat) : string :=
  String (hex_digit upper (Nat.div n 16))
    (String (hex_digit upper (Nat.modulo n 16)) EmptyString).

(** The text of a string inside [JSON.stringify]'s output. *)
Fixpoint json_escape (s : string) : string :=
  match s with
  | EmptyString => EmptyString
  | String c rest =>
      let n := nat_of_ascii c in
      (if Nat.eqb n 34 then backslash ++ dquote
       else if Nat.eqb n 92 then backslash ++ backslash
       else if Nat.eqb n 8 then backslash ++ "b"
       else if Nat.eqb n 9 then backslash ++ "t"
       else if Nat.eqb n 10 then backslash ++ "n"
       else if Nat.eqb n 12 then backslash ++ "f"
       else if Nat.eqb n 13 then backslash ++ "r"
       else if Nat.ltb n 32 then backslash ++ "u00" ++ hex_byte false n
       else String c EmptyString) ++ json_escape rest
  end.

Definition json_quote (s : string) : string := dquote ++ json_escape s ++ dquote.

(** [JSON.stringify(v)]: [None] stands for the result [undefined]. *)
Fixpoint stringify (v : JsVal) : option string :=
  match v with
  | JUndef => None
  | JNull => Some "null"
  | JBool true => Some "true"
  | JBool false => Some "false"
  | JNum n => Some (string_of_Z n)
  | JStr s => Some (json_quote s)
  | JArr xs =>
      Some ("[" ++ join "," (map (fun x => match stringify x with
                                           | Some t => t
                                           | None => "null"
                                           end) xs) ++ "]")
  | JObj fields =>
      Some ("{" ++ join ","
              (flat_map (fun kv => match stringify (snd kv) with
                                   | Some t => [json_quote (fst kv) ++ ":" ++ t]
                                   | None => []
                                   end) fields) ++ "}")
  | JBuiltin B_proto => Some "{}"
  | JBuiltin _ => None
  end.

Definition JSON_stringify (v : JsVal) : JsVal :=
  match stringify v with Some t => JStr t | None => JUndef end.

(** [encodeURIComponent(String(v))], byte by byte on the UTF-8 text. *)
Definition uri_unreserved (n : nat) : bool :=
  ((Nat.leb 65 n && Nat.leb n 90) || (Nat.leb 97 n && Nat.leb n 122)
   || (Nat.leb 48 n && Nat.leb n 57)
   || existsb (Nat.eqb n) [45; 95; 46; 33; 126; 42; 39; 40; 41]%nat)%bool.

Fixpoint encodeURIComponent (s : string) : string :=
  match s with
  | EmptyString => EmptyString
  | String c rest =>
      let n := nat_of_ascii c in
      (if uri_unreserved n then String c EmptyString
       else "%" ++ hex_byte true n) ++ encodeURIComponent rest
  end.

End Js.

Import Js.

(* ================================================================== *)
(** ** Data model                                                      *)
(* ================================================================== *)

(** [config/data.js]: the emergency contacts table. *)
Module EMERGENCY_CONTACTS.
Definition main : string := "+91-22-2640-0000".
Definition ambulance : string := "+91-22-2640-1111".
Definition trauma : string := "+91-22-2640-2222".
Definition cardiac : string := "+91-22-2640-3333".
End EMERGENCY_CONTACTS.

(** [utils/logger.js]: the lines written, with their level. *)
Inductive Level : Set := Info | Warn | Err.

Record LogEntry : Set := { level : Level; text : string }.

(** The [Conversation] class of [conversationManager.js]. *)
Module Conversation.

Record Message : Type :=
  { role : JsVal; content : JsVal; timestamp : Z; metadata : JsVal }.

Record t : Type :=
  { id : JsVal;                    (* store id, null until acknowledged *)
    callSid : JsVal;
    sessionId : JsVal;
    phoneNumber : JsVal;
    conversationType : JsVal;
    languageDetected : JsVal;
    messages : list Message;
    startTime : Z;                 (* milliseconds *)
    functionCalls : list JsVal;    (* metadata.functionCalls *)
    transfers : list JsVal;        (* metadata.transfers *)
    emergencies : list JsVal }.    (* metadata.emergencies *)

Definition with_id (v : JsVal) (c : t) : t :=
  {| id := v; callSid := callSid c; sessionId := sessionId c;
     phoneNumber := phoneNumber c; conversationType := conversationType c;
     languageDetected := languageDetected c; messages := messages c;
     startTime := startTime c; functionCalls := functionCalls c;
     transfers := transfers c; emergencies := emergencies c |}.

Definition with_messages (ms : list Message) (c : t) : t :=
  {| id := id c; callSid := callSid c; sessionId := sessionId c;
     phoneNumber := phoneNumber c; conversationType := conversationType c;
     languageDetected := languageDetected c; messages := ms;
     startTime := startTime c; functionCalls := functionCalls c;
     transfers := transfers c; emergencies := emergencies c |}.

Definition with_functionCalls (l : list JsVal) (c : t) : t :=
  {| id := id c; callSid := callSid c; sessionId := sessionId c;
     phoneNumber := phoneNumber c; conversationType := conversationType c;
     languageDetected := languageDetected c; messages := messages c;
     startTime := startTime c; functionCalls := l;
     transfers := transfers c; emergencies := emergencies c |}.

Definition with_transfers (l : list JsVal) (c : t) : t :=
  {| id := id c; callSid := callSid c; sessionId := sessionId c;
     phoneNumber := phoneNumber c; conversationType := conversationType c;
     languageDetected := languageDetected c; messages := messages c;
     startTime := startTime c; functionCalls := functionCalls c;
     transfers := l; emergencies := emergencies c |}.

Definition with_emergencies (l : list JsVal) (c : t) : t :=
  {| id := id c; callSid := callSid c; sessionId := sessionId c;
     phoneNumber := phoneNumber c; conversationType := conversationType c;
     languageDetected := languageDetected c; messages := messages c;
     startTime := startTime c; functionCalls := functionCalls c;
     transfers := transfers c; emergencies := l |}.

End Conversation.

(** A socket of the [ws] library, as far as the handler uses it: its
    [readyState], the messages handed to [send] (before
    [JSON.stringify]) and the number of calls of [close]. *)
Module WebSocket.

Inductive ReadyState : Set := CONNECTING | OPEN | CLOSING | CLOSED.

Definition is_open (r : ReadyState) : bool :=
  match r with OPEN => true | _ => false end.

Record t : Type :=
  { readyState : ReadyState; sent : list JsVal; closeCalls : nat }.

Definition fresh (r : ReadyState) : t :=
  {| readyState := r; sent := []; closeCalls := 0 |}.

(** [ws.send(data)] on an open socket. *)
Definition send (m : JsVal) (ws : t) : t :=
  {| readyState := readyState ws; sent := sent ws ++ [m];
     closeCalls := closeCalls ws |}.

(** [ws.close()]: starts the closing handshake unless the socket is
    already closing or closed. *)
Definition close (ws : t) : t :=
  {| readyState := match readyState ws with
                   | CONNECTING | OPEN => CLOSING
                   | r => r
                   end;
     sent := sent ws;
     closeCalls := S (closeCalls ws) |}.

Definition with_readyState (r : ReadyState) (ws : t) : t :=
  {| readyState := r; sent := sent ws; closeCalls := closeCalls ws |}.

End WebSocket.

(** The fields of a [RealtimeSessionHandler]. [conversation] is a
    reference into the heap of [Conversation] objects: the registry holds
    the same reference. *)
Module Handler.

Record t : Type :=
  { exotelWs : option WebSocket.t;
    callSid : JsVal;
    phoneNumber : JsVal;
    openaiWs : option WebSocket.t;
    conversation : option nat;
    streamSid : JsVal;
    isConnected : bool;
    audioBuffer : list JsVal;
    audioSent : bool;
    audioReceived : bool;
    audioSentToExotel : bool }.

(** [constructor(exotelWs, callSid, phoneNumber)]. *)
Definition constructor (ws : option WebSocket.t) (sid phone : JsVal) : t :=
  {| exotelWs := ws; callSid := sid; phoneNumber := phone;
     openaiWs := None; conversation := None; streamSid := JNull;
     isConnected := false; audioBuffer := []; audioSent := false;
     audioReceived := false; audioSentToExotel := false |}.

Definition with_exotelWs (x : option WebSocket.t) (h : t) : t :=
  {| exotelWs := x; callSid := callSid h; phoneNumber := phoneNumber h;
     openaiWs := openaiWs h; conversation := conversation h;
     streamSid := streamSid h; isConnected := isConnected h;
     audioBuffer := audioBuffer h; audioSent := audioSent h;
     audioReceived := audioReceived h; audioSentToExotel := audioSentToExotel h |}.

Definition with_callSid (x : JsVal) (h : t) : t :=
  {| exotelWs := exotelWs h; callSid := x; phoneNumber := phoneNumber h;
     openaiWs := openaiWs h; conversation := conversation h;
     streamSid := streamSid h; isConnected := isConnected h;
     audioBuffer := audioBuffer h; audioSent := audioSent h;
     audioReceived := audioReceived h; audioSentToExotel := audioSentToExotel h |}.

Definition with_phoneNumber (x : JsVal) (h : t) : t :=
  {| exotelWs := exotelWs h; callSid := callSid h; phoneNumber := x;
     openaiWs := openaiWs h; conversation := conversation h;
     streamSid := streamSid h; isConnected := isConnected h;
     audioBuffer := audioBuffer h; audioSent := audioSent h;
     audioReceived := audioReceived h; audioSentToExotel := audioSentToExotel h |}.

Definition with_openaiWs (x : option WebSocket.t) (h : t) : t :=
  {| exotelWs := exotelWs h; callSid := callSid h; phoneNumber := phoneNumber h;
     openaiWs := x; conversation := conversation h;
     streamSid := streamSid h; isConnected := isConnected h;
     audioBuffer := audioBuffer h; audioSent := audioSent h;
     audioReceived := audioReceived h; audioSentToExotel := audioSentToExotel h |}.

Definition with_conversation (x : option nat) (h : t) : t :=
  {| exotelWs := exotelWs h; callSid := callSid h; phoneNumber := phoneNumber h;
     openaiWs := openaiWs h; conversation := x;
     streamSid := streamSid h; isConnected := isConnected h;
     audioBuffer := audioBuffer h; audioSent := audioSent h;
     audioReceived := audioReceived h; audioSentToExotel := audioSentToExotel h |}.

Definition with_streamSid (x : JsVal) (h : t) : t :=
  {| exotelWs := exotelWs h; callSid := callSid h; phoneNumber := phoneNumber h;
     openaiWs := openaiWs h; conversation := conversation h;
     streamSid := x; isConnected := isConnected h;
     audioBuffer := audioBuffer h; audioSent := audioSent h;
     audioReceived := audioReceived h; audioSentToExotel := audioSentToExotel h |}.

Definition with_isConnected (x : bool) (h : t) : t :=
  {| exotelWs := exotelWs h; callSid := callSid h; phoneNumber := phoneNumber h;
     openaiWs := openaiWs h; conversation := conversation h;
     streamSid := streamSid h; isConnected := x;
     audioBuffer := audioBuffer h; audioSent := audioSent h;
     audioReceived := audioReceived h; audioSentToExotel := audioSentToExotel h |}.

Definition with_audioSent (x : bool) (h : t) : t :=
  {| exotelWs := exotelWs h; callSid := callSid h; phoneNumber := phoneNumber h;
     openaiWs := openaiWs h; conversation := conversation h;
     streamSid := streamSid h; isConnected := isConnected h;
     audioBuffer := audioBuffer h; audioSent := x;
     audioReceived := audioReceived h; audioSentToExotel := audioSentToExotel h |}.

Definition with_audioReceived (x : bool) (h : t) : t :=
  {| exotelWs := exotelWs h; callSid := callSid h; phoneNumber := phoneNumber h;
     openaiWs := openaiWs h; conversation := conversation h;
     streamSid := streamSid h; isConnected := isConnected h;
     audioBuffer := audioBuffer h; audioSent := audioSent h;
     audioReceived := x; audioSentToExotel := audioSentToExotel h |}.

Definition with_audioSentToExotel (x : bool) (h : t) : t :=
  {| exotelWs := exotelWs h; callSid := callSid h; phoneNumber := phoneNumber h;
     openaiWs := openaiWs h; conversation := conversation h;
     streamSid := streamSid h; isConnected := isConnected h;
     audioBuffer := audioBuffer h; audioSent := audioSent h;
     audioReceived := audioReceived h; audioSentToExotel := x |}.

End Handler.

(** Requests that reach the external store ([database.js] writes) and
    the call-control API ([fetch]). *)
Inductive DbWrite : Type :=
| InsertConversation (row : JsVal)
| UpdateConversationEnded (conversationId : JsVal) (status : JsVal) (duration : Z)
| InsertMessage (row : JsVal)
| InsertSummary (row : JsVal).

Record HttpRequest : Type := { url : string; body : list (string * string) }.

(** The state of the process as one call sees it: the logger, the clock,
    the heap of [Conversation] objects, the module-level
    [activeConversations] map (insertion-ordered, keys compared as
    [Map] does), the requests sent out, and the one session handler.
    [endCalls] is a history variable: the calls of [Conversation.end] so
    far, with the object and the status; no code reads it. *)
Record World : Type :=
  { log : list LogEntry;
    now : Z;
    uuids : nat;
    heap : list Conversation.t;
    activeConversations : list (JsVal * nat);
    endCalls : list (nat * JsVal);
    dbWrites : list DbWrite;
    httpRequests : list HttpRequest;
    this : Handler.t }.

Definition with_log (x : list LogEntry) (w : World) : World :=
  {| log := x; now := now w; uuids := uuids w; heap := heap w;
     activeConversations := activeConversations w; endCalls := endCalls w;
     dbWrites := dbWrites w; httpRequests := httpRequests w; this := this w |}.

Definition with_now (x : Z) (w : World) : World :=
  {| log := log w; now := x; uuids := uuids w; heap := heap w;
     activeConversations := activeConversations w; endCalls := endCalls w;
     dbWrites := dbWrites w; httpRequests := httpRequests w; this := this w |}.

Definition with_uuids (x : nat) (w : World) : World :=
  {| log := log w; now := now w; uuids := x; heap := heap w;
     activeConversations := activeConversations w; endCalls := endCalls w;
     dbWrites := dbWrites w; httpRequests := httpRequests w; this := this w |}.

Definition with_heap (x : list Conversation.t) (w : World) : World :=
  {| log := log w; now := now w; uuids := uuids w; heap := x;
     activeConversations := activeConversations w; endCalls := endCalls w;
     dbWrites := dbWrites w; httpRequests := httpRequests w; this := this w |}.

Definition with_activeConversations (x : list (JsVal * nat)) (w : World) : World :=
  {| log := log w; now := now w; uuids := uuids w; heap := heap w;
     activeConversations := x; endCalls := endCalls w;
     dbWrites := dbWrites w; httpRequests := httpRequests w; this := this w |}.

Definition with_endCalls (x : list (nat * JsVal)) (w : World) : World :=
  {| log := log w; now := now w; uuids := uuids w; heap := heap w;
     activeConversations := activeConversations w; endCalls := x;
     dbWrites := dbWrites w; httpRequests := httpRequests w; this := this w |}.

Definition with_dbWrites (x : list DbWrite) (w : World) : World :=
  {| log := log w; now := now w; uuids := uuids w; heap := heap w;
     activeConversations := activeConversations w; endCalls := endCalls w;
     dbWrites := x; httpRequests := httpRequests w; this := this w |}.

Definition with_httpRequests (x : list HttpRequest) (w : World) : World :=
  {| log := log w; now := now w; uuids := uuids w; heap := heap w;
     activeConversations := activeConversations w; endCalls := endCalls w;
     dbWrites := dbWrites w; httpRequests := x; this := this w |}.

Definition with_this (x : Handler.t) (w : World) : World :=
  {| log := log w; now := now w; uuids := uuids w; heap := heap w;
     activeConversations := activeConversations w; endCalls := endCalls w;
     dbWrites := dbWrites w; httpRequests := httpRequests w; this := x |}.

(** Answer of a store query: [{ data, error }], or a rejected promise. *)
Inductive SbAnswer (A : Type) : Type :=
| SbResult (data : option A) (error : option JsError)
| SbReject (e : JsError).
Arguments SbResult {A} data error.
Arguments SbReject {A} e.

(** Answer of [fetch]. *)
Inductive FetchAnswer : Set :=
| Response (ok : bool) (status : Z)
| FetchReject (e : JsError).

(** What the process does not own: [JSON.parse], the store behind
    [config/supabase.js], the environment variables and the network; and
    the session constants of [config/data.js], which are passed on to
    the model unread. *)
Record Env : Type :=
  { JSON_parse : string -> Exc JsVal;
    isSupabaseEnabled : bool;
    select_hospital_locations : SbAnswer (list JsVal);
    select_location_by_branch : JsVal -> SbAnswer JsVal;
    select_departments : JsVal -> SbAnswer (list JsVal);
    select_hospital_info : JsVal -> SbAnswer (list JsVal);
    select_contact_details : JsVal -> SbAnswer (list JsVal);
    select_doctors : JsVal -> SbAnswer (list JsVal);
    select_doctor_availability : JsVal -> JsVal -> SbAnswer (list JsVal);
    search_departments : JsVal -> SbAnswer (list JsVal);
    search_hospital_info : JsVal -> SbAnswer (list JsVal);
    insert_conversation : JsVal -> SbAnswer JsVal;
    select_started_at : JsVal -> SbAnswer Z;
    update_conversation : JsVal -> JsVal -> SbAnswer JsVal;
    insert_message : JsVal -> SbAnswer JsVal;
    insert_summary : JsVal -> SbAnswer JsVal;
    SYSTEM_PROMPT : JsVal;
    FUNCTION_TOOLS : JsVal;
    VOICE_CONFIG_voice : JsVal;
    VOICE_CONFIG_inputAudioFormat : JsVal;
    VOICE_CONFIG_outputAudioFormat : JsVal;
    VOICE_CONFIG_turnDetection : JsVal;
    VOICE_CONFIG_temperature : JsVal;
    VOICE_CONFIG_maxResponseOutputTokens : JsVal;
    EXOTEL_API_KEY : JsVal;
    EXOTEL_API_TOKEN : JsVal;
    EXOTEL_SID : JsVal;
    PUBLIC_URL : JsVal;
    fetch : HttpRequest -> FetchAnswer }.

(* ================================================================== *)
(** ** Effects: state, exceptions and the event loop                   *)
(* ================================================================== *)

(** A synchronous piece of code: it runs to its end with nothing in
    between. [M] adds the exception it may throw; the state changes made
    before the throw stay. *)
Definition St (A : Type) : Type := World -> World * A.
Definition M (A : Type) : Type := St (Exc A).

Definition st_ret {A} (a : A) : St A := fun w => (w, a).

Definition st_bind {A B} (m : St A) (k : A -> St B) : St B :=
  fun w => let '(w1, a) := m w in k a w1.

Definition ret {A} (a : A) : M A := fun w => (w, Ok a).

Definition throw {A} (e : JsError) : M A := fun w => (w, Throw e).

Definition bind {A B} (m : M A) (k : A -> M B) : M B :=
  fun w => let '(w1, r) := m w in
           match r with
           | Ok a => k a w1
           | Throw e => (w1, Throw e)
           end.

Definition lift {A} (x : Exc A) : M A := fun w => (w, x).

Definition lift_st {A} (m : St A) : M A :=
  fun w => let '(w1, a) := m w in (w1, Ok a).

(** [try { body } catch (error) { handler }], for a handler that does
    not throw itself. *)
Definition try_catch {A} (body : M A) (handler : JsError -> St A) : St A :=
  fun w => let '(w1, r) := body w in
           match r with
           | Ok a => (w1, a)
           | Throw e => handler e w1
           end.

Declare Scope monad_scope.
Delimit Scope monad_scope with monad.
Notation "x <- m ;; k" := (bind m (fun x => k))
  (at level 61, m at next level, right associativity) : monad_scope.
Notation "m ;; k" := (bind m (fun _ => k))
  (at level 61, right associativity) : monad_scope.
Notation "x <~ m ;; k" := (st_bind m (fun x => k))
  (at level 61, m at next level, right associativity) : monad_scope.
Notation "x <-? m ;; k" := (exc_bind m (fun x => k))
  (at level 61, m at next level, right associativity) : monad_scope.
Local Open Scope monad_scope.

(** [logger.info], [logger.warn], [logger.error]. *)
Definition logger (lvl : Level) (txt : string) : St unit :=
  fun w => (with_log (log w ++ [{| level := lvl; text := txt |}]) w, tt).

Definition logger_info (txt : string) : M unit := lift_st (logger Info txt).
Definition logger_warn (txt : string) : M unit := lift_st (logger Warn txt).
Definition logger_error (txt : string) : M unit := lift_st (logger Err txt).

(** [new Date()] and [Date.now()], in milliseconds. *)
Definition Date_now : St Z := fun w => (w, now w).

(** An [async] function is a tree of synchronous pieces separated by the
    awaits on the store or the network. At an [Await] the event loop
    takes over: other handlers may run before the rest does. Awaits on
    values that are already settled let no socket event in between and
    are not marked. *)
Inductive Async (A : Type) : Type :=
| Return (a : A)
| Atomic {B : Type} (m : St B) (k : B -> Async A)
| Await (rest : Async A).
Arguments Return {A} a.
Arguments Atomic {A B} m k.
Arguments Await {A} rest.

Fixpoint abind {A B} (t : Async A) (f : A -> Async B) : Async B :=
  match t with
  | Return a => f a
  | Atomic m k => Atomic m (fun b => abind (k b) f)
  | Await rest => Await (abind rest f)
  end.

(** Binding the result of an async call inside a [try] block: an
    exception skips the rest of the block. *)
Definition abind_exc {A B} (t : Async (Exc A)) (f : A -> Async (Exc B))
  : Async (Exc B) :=
  abind t (fun r => match r with Ok a => f a | Throw e => Return (Throw e) end).

Definition atomic {A} (m : M A) : Async (Exc A) := Atomic m Return.

Definition atomic_st {A} (m : St A) : Async (Exc A) :=
  Atomic m (fun a => Return (Ok a)).

(** [try { ... await ... } catch (error) { handler }]. *)
Definition atry {A} (body : Async (Exc A)) (handler : JsError -> Async A)
  : Async A :=
  abind body (fun r => match r with Ok a => Return a | Throw e => handler e end).

(** An async function that cannot throw, awaited inside a [try] block. *)
Definition total {A} (t : Async A) : Async (Exc A) :=
  abind t (fun a => Return (Ok a)).

Notation "x <<- t ;; k" := (abind_exc t (fun x => k))
  (at level 61, t at next level, right associativity) : monad_scope.
Notation "t ;;; k" := (abind_exc t (fun _ => k))
  (at level 61, right associativity) : monad_scope.

(** One turn of the event loop on a task: run it up to its next
    suspension point. *)
Fixpoint advance {A} (t : Async A) (w : World) : World * (A + Async A) :=
  match t with
  | Return a => (w, inl a)
  | Atomic m k => let '(w1, b) := m w in advance (k b) w1
  | Await rest => (w, inr rest)
  end.

(** The task run to its end with no other handler in between. *)
Fixpoint run {A} (t : Async A) (w : World) : World * A :=
  match t with
  | Return a => (w, a)
  | Atomic m k => let '(w1, b) := m w in run (k b) w1
  | Await rest => run rest w
  end.

(** The process: the state and the tasks suspended at an await. *)
Record Process : Type :=
  { world : World; pending : list (Async unit) }.

(** A handler starts: it runs up to its first suspension point. *)
Definition spawn (t : Async unit) (p : Process) : Process :=
  let '(w1, r) := advance t (world p) in
  match r with
  | inl _ => {| world := w1; pending := pending p |}
  | inr rest => {| world := w1; pending := pending p ++ [rest] |}
  end.

(** The awaited answer of the [i]-th suspended task arrives: the task
    runs up to its next suspension point. *)
Definition resume (i : nat) (p : Process) : Process :=
  match nth_error (pending p) i with
  | None => p
  | Some t =>
      let others := (firstn i (pending p) ++ skipn (S i) (pending p))%list in
      let '(w1, r) := advance t (world p) in
      match r with
      | inl _ => {| world := w1; pending := others |}
      | inr rest => {| world := w1; pending := (others ++ [rest])%list |}
      end
  end.

(** A handler started and left to finish before anything else happens. *)
Definition spawn_and_finish (t : Async unit) (p : Process) : Process :=
  {| world := fst (run t (world p)); pending := pending p |}.

(* ================================================================== *)
(** ** [services/database.js]                                          *)
(* ================================================================== *)

Module db.

(** [const { data, error } = await query; if (error) throw error;] *)
Definition query {A} (ans : SbAnswer A) : M (option A) :=
  match ans with
  | SbReject e => throw e
  | SbResult _ (Some e) => throw e
  | SbResult data None => ret data
  end.

(** [data || []] *)
Definition rows (data : option (list JsVal)) : list JsVal :=
  match data with Some l => l | None => [] end.

(** A filter is added to the query only if its value is truthy. *)
Definition filter_arg (v : JsVal) : JsVal := if truthy v then v else JNull.

Definition record_write (wr : DbWrite) : St unit :=
  fun w => (with_dbWrites (dbWrites w ++ [wr]) w, tt).

Definition getHospitalLocations (env : Env) : St (list JsVal) :=
  if negb (isSupabaseEnabled env) then st_ret []
  else try_catch
         (data <- query (select_hospital_locations env) ;;
          ret (rows data))
         (fun error =>
            _ <~ logger Err ("Error getting hospital locations: " ++ error_message error) ;;
            st_ret []).

Definition getHospitalLocationByBranch (env : Env) (branch : JsVal) : St JsVal :=
  if negb (isSupabaseEnabled env) then st_ret JNull
  else try_catch
         (data <- query (select_location_by_branch env branch) ;;
          ret (match data with Some row => row | None => JNull end))
         (fun error =>
            _ <~ logger Err ("Error getting hospital location: " ++ error_message error) ;;
            st_ret JNull).

Definition getDepartments (env : Env) (locationId : JsVal) : St (list JsVal) :=
  if negb (isSupabaseEnabled env) then st_ret []
  else try_catch
         (data <- query (select_departments env (filter_arg locationId)) ;;
          ret (rows data))
         (fun error =>
            _ <~ logger Err ("Error getting departments: " ++ error_message error) ;;
            st_ret []).

Definition getHospitalInfo (env : Env) (category : JsVal) : St (list JsVal) :=
  if negb (isSupabaseEnabled env) then st_ret []
  else try_catch
         (data <- query (select_hospital_info env (filter_arg category)) ;;
          ret (rows data))
         (fun error =>
            _ <~ logger Err ("Error getting hospital info: " ++ error_message error) ;;
            st_ret []).

Definition getContactDetails (env : Env) (category : JsVal) : St (list JsVal) :=
  if negb (isSupabaseEnabled env) then st_ret []
  else try_catch
         (data <- query (select_contact_details env (filter_arg category)) ;;
          ret (rows data))
         (fun error =>
            _ <~ logger Err ("Error getting contact details: " ++ error_message error) ;;
            st_ret []).

(** [getDoctors({ specialization, departmentId, locationId, isAvailable,
    doctorName })]: the filters that are set make up the query. *)
Definition getDoctors (env : Env)
  (specialization departmentId locationId isAvailable doctorName : JsVal)
  : St (list JsVal) :=
  if negb (isSupabaseEnabled env) then st_ret []
  else try_catch
         (let filters :=
            ((if truthy specialization then [("specialization", specialization)] else []) ++
             (if truthy doctorName then [("name", doctorName)] else []) ++
             (if truthy departmentId then [("department_id", departmentId)] else []) ++
             (if truthy locationId then [("location_id", locationId)] else []) ++
             (if strict_eq isAvailable JUndef then [] else [("is_available", isAvailable)]))%list in
          data <- query (select_doctors env (JObj filters)) ;;
          ret (rows data))
         (fun error =>
            _ <~ logger Err ("Error getting doctors: " ++ error_message error) ;;
            st_ret []).

Definition getDoctorAvailability (env : Env) (doctorId dayOfWeek : JsVal)
  : St (list JsVal) :=
  if negb (isSupabaseEnabled env) then st_ret []
  else try_catch
         (let day := if strict_eq dayOfWeek JUndef then JNull else dayOfWeek in
          data <- query (select_doctor_availability env doctorId day) ;;
          ret (rows data))
         (fun error =>
            _ <~ logger Err ("Error getting doctor availability: " ++ error_message error) ;;
            st_ret []).

Record SearchResults : Type :=
  { doctors : list JsVal; departments : list JsVal; info : list JsVal }.

(** [.then(({ data }) => data || [])]: the error of the answer is not
    read; a rejected promise rejects [Promise.all]. *)
Definition then_data (ans : SbAnswer (list JsVal)) : M (list JsVal) :=
  match ans with
  | SbReject e => throw e
  | SbResult data _ => ret (rows data)
  end.

Definition searchHospitalData (env : Env) (searchTerm : JsVal) : St SearchResults :=
  if negb (isSupabaseEnabled env)
  then st_ret {| doctors := []; departments := []; info := [] |}
  else try_catch
         (ds <- lift_st (getDoctors env searchTerm JUndef JUndef JUndef JUndef) ;;
          deps <- then_data (search_departments env searchTerm) ;;
          inf <- then_data (search_hospital_info env searchTerm) ;;
          ret {| doctors := ds; departments := deps; info := inf |})
         (fun error =>
            _ <~ logger Err ("Error searching hospital data: " ++ error_message error) ;;
            st_ret {| doctors := []; departments := []; info := [] |}).

(** The writes are awaited over the network: the request is recorded
    when it is issued, the answer arrives after a suspension. *)
Definition createConversation (env : Env)
  (callSid sessionId phoneNumber conversationType languageDetected : JsVal)
  : Async JsVal :=
  if negb (isSupabaseEnabled env)
  then Atomic (logger Warn "Supabase not enabled, skipping conversation creation")
              (fun _ => Return JNull)
  else atry
         (started <<- atomic_st Date_now ;;
          let row := JObj [("call_sid", callSid); ("session_id", sessionId);
                           ("phone_number", phoneNumber);
                           ("conversation_type", conversationType);
                           ("language_detected", languageDetected);
                           ("started_at", JNum started);
                           ("status", JStr "active")] in
          atomic_st (record_write (InsertConversation row)) ;;;
          Await (
          data <<- atomic (query (insert_conversation env row)) ;;
          let data := match data with Some d => d | None => JNull end in
          idv <<- atomic (lift (get data "id")) ;;
          atomic (logger_info ("Conversation created: " ++ to_str idv ++ " ("
                               ++ to_str conversationType ++ ")")) ;;;
          Return (Ok data)))
         (fun error =>
            Atomic (logger Err ("Error creating conversation: " ++ error_message error))
                   (fun _ => Return JNull)).

(** [endConversation(conversationId, status)]: reads the start time,
    then issues the update that persists the terminal state. *)
Definition endConversation (env : Env) (conversationId status : JsVal)
  : Async JsVal :=
  if negb (isSupabaseEnabled env) then Return JNull
  else atry
         (Await (
          started <<- atomic (match select_started_at env conversationId with
                              | SbReject e => throw e
                              | SbResult data _ => ret data
                              end) ;;
          t <<- atomic_st Date_now ;;
          let duration := match started with
                          | Some s => (t - s) / 1000
                          | None => 0
                          end in
          atomic_st (record_write (UpdateConversationEnded conversationId status duration)) ;;;
          Await (
          data <<- atomic (query (update_conversation env conversationId status)) ;;
          atomic (logger_info ("Conversation ended: " ++ to_str conversationId ++ " ("
                               ++ string_of_Z duration ++ "s, " ++ to_str status ++ ")")) ;;;
          Return (Ok (match data with Some d => d | None => JNull end)))))
         (fun error =>
            Atomic (logger Err ("Error ending conversation: " ++ error_message error))
                   (fun _ => Return JNull)).

Definition addConversationMessage (env : Env)
  (conversationId role content language metadata : JsVal) : Async JsVal :=
  if negb (isSupabaseEnabled env) then Return JNull
  else atry
         (t <<- atomic_st Date_now ;;
          let row := JObj [("conversation_id", conversationId); ("role", role);
                           ("content", content); ("language", language);
                           ("original_text", JUndef); ("confidence", JUndef);
                           ("metadata", metadata); ("timestamp", JNum t)] in
          atomic_st (record_write (InsertMessage row)) ;;;
          Await (
          data <<- atomic (query (insert_message env row)) ;;
          Return (Ok (match data with Some d => d | None => JNull end))))
         (fun error =>
            Atomic (logger Err ("Error adding conversation message: " ++ error_message error))
                   (fun _ => Return JNull)).

Definition createConversationSummary (env : Env)
  (conversationId summary keyTopics sentiment actionItems : JsVal) : Async JsVal :=
  if negb (isSupabaseEnabled env) then Return JNull
  else atry
         (let row := JObj [("conversation_id", conversationId); ("summary", summary);
                           ("key_topics", keyTopics); ("sentiment", sentiment);
                           ("action_items", actionItems)] in
          atomic_st (record_write (InsertSummary row)) ;;;
          Await (
          data <<- atomic (query (insert_summary env row)) ;;
          atomic (logger_info ("Summary created for conversation: " ++ to_str conversationId)) ;;;
          Return (Ok (match data with Some d => d | None => JNull end))))
         (fun error =>
            Atomic (logger Err ("Error creating conversation summary: " ++ error_message error))
                   (fun _ => Return JNull)).

End db.

(* ================================================================== *)
(** ** [services/functionHandlers.js]                                  *)
(* ================================================================== *)

(** The handlers await only reads of the store and share nothing with
    the socket handlers but the logger: each is embedded as one
    synchronous piece. *)
Module functionHandlers.

(** The line feed of the template literals. *)
Definition nl : string := String (ascii_of_nat 10) EmptyString.

Definition failure (message : string) : JsVal :=
  JObj [("success", JBool false); ("message", JStr message)].

Definition count_of (l : list JsVal) : JsVal := JNum (Z.of_nat (length l)).

(** [cond ? text : ''] for a text that reads properties. *)
Definition when (cond : JsVal) (text : Exc string) : Exc string :=
  if truthy cond then text else Ok "".

Definition doctor_line (doc : JsVal) : Exc string :=
  loc <-? get doc "hospital_locations" ;;
  locationInfo <-? when loc (b <-? get loc "branch" ;; Ok (" at " ++ to_str b)) ;;
  dep <-? get doc "departments" ;;
  deptInfo <-? when dep (n <-? get dep "name" ;; Ok (" in " ++ to_str n)) ;;
  name <-? get doc "name" ;;
  spec <-? get doc "specialization" ;;
  fee <-? get doc "consultation_fee" ;;
  Ok ("Dr. " ++ to_str name ++ ", " ++ to_str spec ++ deptInfo ++ locationInfo
      ++ ". Consultation fee: ₹" ++ to_str (js_or fee (JStr "Not specified"))).

(** The [try] block and the [catch] block of [searchDoctors]. *)
Definition searchDoctors_try (env : Env) (args : JsVal) : M JsVal :=
  specialization <- lift (get args "specialization") ;;
  doctorName <- lift (get args "doctorName") ;;
  locationBranch <- lift (get args "locationBranch") ;;
  logger_info ("Searching doctors: specialization=" ++ to_str specialization
               ++ ", name=" ++ to_str doctorName
               ++ ", branch=" ++ to_str locationBranch) ;;
  locationId <- (if truthy locationBranch
                 then location <- lift_st (db.getHospitalLocationByBranch env locationBranch) ;;
                      lift (get_opt location "id")
                 else ret JNull) ;;
  doctors <- lift_st (db.getDoctors env specialization JUndef locationId (JBool true) doctorName) ;;
  if (length doctors =? 0)%nat
  then ret (failure "No doctors found matching your criteria. Would you like me to check our general physician availability?")
  else
    lines <- lift (map_exc doctor_line doctors) ;;
    let doctorList := join nl lines in
    ret (JObj [("success", JBool true);
               ("count", count_of doctors);
               ("doctors", JArr doctors);
               ("message", JStr ("I found " ++ to_str (count_of doctors)
                                 ++ " doctor(s):" ++ nl ++ doctorList))]).

Definition searchDoctors_catch (error : JsError) : St JsVal :=
  _ <~ logger Err ("Error in searchDoctors: " ++ error_message error) ;;
  st_ret (failure "I'm having trouble accessing doctor information right now. Let me connect you to our appointments desk.").

Definition searchDoctors (env : Env) (args : JsVal) : St JsVal :=
  try_catch (searchDoctors_try env args) searchDoctors_catch.

Definition department_line (dept : JsVal) : Exc string :=
  sv <-? get dept "services" ;;
  services <-? when sv (s <-? arr_join sv ", " ;; Ok (" Services: " ++ s)) ;;
  fl <-? get dept "floor_number" ;;
  let floor := if truthy fl then " (Floor " ++ to_str fl ++ ")" else "" in
  name <-? get dept "name" ;;
  Ok (to_str name ++ floor ++ "." ++ services).

(** The [try] block and the [catch] block of [getDepartmentsList]. *)
Definition getDepartmentsList_try (env : Env) (args : JsVal) : M JsVal :=
  locationId <- lift (get (js_or args (JObj [])) "locationId") ;;
  logger_info ("Getting departments list: locationId=" ++ to_str locationId) ;;
  departments <- lift_st (db.getDepartments env locationId) ;;
  if (length departments =? 0)%nat
  then ret (failure "I couldn't retrieve department information at the moment.")
  else
    lines <- lift (map_exc department_line departments) ;;
    let deptList := join nl lines in
    ret (JObj [("success", JBool true);
               ("count", count_of departments);
               ("departments", JArr departments);
               ("message", JStr ("We have " ++ to_str (count_of departments)
                                 ++ " departments:" ++ nl ++ deptList))]).

Definition getDepartmentsList_catch (error : JsError) : St JsVal :=
  _ <~ logger Err ("Error in getDepartmentsList: " ++ error_message error) ;;
  st_ret (failure "I'm having trouble accessing department information. Let me transfer you to our main desk.").

Definition getDepartmentsList (env : Env) (args : JsVal) : St JsVal :=
  try_catch (getDepartmentsList_try env args) getDepartmentsList_catch.

Definition location_block (loc : JsVal) : Exc string :=
  tm <-? get loc "timings" ;;
  timings <-? when tm (opd <-? get tm "opd" ;;
                       em <-? get tm "emergency" ;;
                       Ok (nl ++ "OPD: " ++ to_str (js_or opd (JStr "9 AM - 5 PM"))
                           ++ ", Emergency: " ++ to_str (js_or em (JStr "24/7")))) ;;
  name <-? get loc "name" ;;
  br <-? get loc "branch" ;;
  address <-? get loc "address" ;;
  city <-? get loc "city" ;;
  phone <-? get loc "phone_number" ;;
  Ok (to_str name ++ " - " ++ to_str br ++ nl
      ++ "Address: " ++ to_str address ++ ", " ++ to_str city ++ nl
      ++ "Phone: " ++ to_str phone ++ timings).

(** The [try] block and the [catch] block of [getHospitalLocationsList]. *)
Definition getHospitalLocationsList_try (env : Env) (args : JsVal) : M JsVal :=
  branch <- lift (get (js_or args (JObj [])) "branch") ;;
  logger_info ("Getting hospital locations: branch=" ++ to_str branch) ;;
  locations <- (if truthy branch
                then location <- lift_st (db.getHospitalLocationByBranch env branch) ;;
                     ret (if truthy location then [location] else [])
                else lift_st (db.getHospitalLocations env)) ;;
  if (length locations =? 0)%nat
  then ret (failure "I couldn't find that location. Our main hospital is in Bandra West, Mumbai.")
  else
    blocks <- lift (map_exc location_block locations) ;;
    let locationList := join (nl ++ nl) blocks in
    ret (JObj [("success", JBool true);
               ("count", count_of locations);
               ("locations", JArr locations);
               ("message", JStr locationList)]).

Definition getHospitalLocationsList_catch (error : JsError) : St JsVal :=
  _ <~ logger Err ("Error in getHospitalLocationsList: " ++ error_message error) ;;
  st_ret (failure "Our main hospital is at Bandra West, Mumbai. For exact address, let me transfer you to our front desk.").

Definition getHospitalLocationsList (env : Env) (args : JsVal) : St JsVal :=
  try_catch (getHospitalLocationsList_try env args) getHospitalLocationsList_catch.

Definition contact_block (contact : JsVal) : Exc string :=
  dp <-? get contact "departments" ;;
  dept <-? when dp (n <-? get dp "name" ;; Ok (to_str n ++ " - ")) ;;
  ex <-? get contact "extension" ;;
  let ext := if truthy ex then " (Ext: " ++ to_str ex ++ ")" else "" in
  ah <-? get contact "available_hours" ;;
  let hours := if truthy ah then nl ++ "Available: " ++ to_str ah else "" in
  cat <-? get contact "category" ;;
  phone <-? get contact "phone_number" ;;
  Ok (dept ++ to_str cat ++ nl ++ "Phone: " ++ to_str phone ++ ext ++ hours).

(** The [try] block and the [catch] block of [getContactInfo]. *)
Definition getContactInfo_try (env : Env) (args : JsVal) : M JsVal :=
  category <- lift (get (js_or args (JObj [])) "category") ;;
  logger_info ("Getting contact details: category=" ++ to_str category) ;;
  contacts <- lift_st (db.getContactDetails env category) ;;
  if (length contacts =? 0)%nat
  then ret (failure "Let me transfer you to our main reception who can provide the contact details you need.")
  else
    blocks <- lift (map_exc contact_block contacts) ;;
    let contactList := join (nl ++ nl) blocks in
    ret (JObj [("success", JBool true);
               ("count", count_of contacts);
               ("contacts", JArr contacts);
               ("message", JStr contactList)]).

Definition getContactInfo_catch (error : JsError) : St JsVal :=
  _ <~ logger Err ("Error in getContactInfo: " ++ error_message error) ;;
  st_ret (failure "For all inquiries, you can reach our main desk at +91-22-2640-0000.").

Definition getContactInfo (env : Env) (args : JsVal) : St JsVal :=
  try_catch (getContactInfo_try env args) getContactInfo_catch.

Definition days : JsVal :=
  JArr [JStr "Sunday"; JStr "Monday"; JStr "Tuesday"; JStr "Wednesday";
        JStr "Thursday"; JStr "Friday"; JStr "Saturday"].

Definition slot_line (slot : JsVal) : Exc string :=
  dw <-? get slot "day_of_week" ;;
  day <-? get days (to_str dw) ;;
  loc <-? get slot "hospital_locations" ;;
  location <-? when loc (b <-? get loc "branch" ;; Ok (" at " ++ to_str b)) ;;
  st <-? get slot "start_time" ;;
  en <-? get slot "end_time" ;;
  Ok (to_str day ++ ": " ++ to_str st ++ " - " ++ to_str en ++ location).

(** The [try] block and the [catch] block of [checkDoctorAvailability]. *)
Definition checkDoctorAvailability_try (env : Env) (args : JsVal) : M JsVal :=
  doctorId <- lift (get args "doctorId") ;;
  dayOfWeek <- lift (get args "dayOfWeek") ;;
  logger_info ("Checking doctor availability: doctorId=" ++ to_str doctorId
               ++ ", day=" ++ to_str dayOfWeek) ;;
  availability <- lift_st (db.getDoctorAvailability env doctorId dayOfWeek) ;;
  if (length availability =? 0)%nat
  then ret (failure "I couldn't find availability information for this doctor. Let me connect you to appointments for assistance.")
  else
    lines <- lift (map_exc slot_line availability) ;;
    let schedule := join nl lines in
    ret (JObj [("success", JBool true);
               ("availability", JArr availability);
               ("message", JStr ("Doctor's availability:" ++ nl ++ schedule ++ nl ++ nl
                                 ++ "Would you like me to help you book an appointment?"))]).

Definition checkDoctorAvailability_catch (error : JsError) : St JsVal :=
  _ <~ logger Err ("Error in checkDoctorAvailability: " ++ error_message error) ;;
  st_ret (failure "I'm having trouble checking availability. Let me transfer you to our appointments desk.").

Definition checkDoctorAvailability (env : Env) (args : JsVal) : St JsVal :=
  try_catch (checkDoctorAvailability_try env args) checkDoctorAvailability_catch.

(** The table built inside [emergencyProtocol]: an object literal. *)
Definition emergencyContacts : JsVal :=
  JObj [("cardiac", JStr EMERGENCY_CONTACTS.cardiac);
        ("trauma", JStr EMERGENCY_CONTACTS.trauma);
        ("default", JStr EMERGENCY_CONTACTS.main)].

(** The [try] block and the [catch] block of [emergencyProtocol]. *)
Definition emergencyProtocol_try (env : Env) (args : JsVal) : M JsVal :=
  emergencyType <- lift (get args "emergencyType") ;;
  callerPhone <- lift (get args "callerPhone") ;;
  logger_warn ("EMERGENCY PROTOCOL ACTIVATED: type=" ++ to_str emergencyType
               ++ ", phone=" ++ to_str callerPhone) ;;
  found <- lift (get emergencyContacts (to_str emergencyType)) ;;
  fallback <- lift (get emergencyContacts "default") ;;
  let contactNumber := js_or found fallback in
  ret (JObj [("success", JBool true);
             ("emergency", JBool true);
             ("emergencyType", emergencyType);
             ("contactNumber", contactNumber);
             ("message", JStr "This is an emergency situation. I'm immediately connecting you to our emergency department. Please stay on the line.");
             ("action", JStr "TRANSFER_EMERGENCY");
             ("transferTo", contactNumber)]).

Definition emergencyProtocol_catch (error : JsError) : St JsVal :=
  _ <~ logger Err ("Error in emergencyProtocol: " ++ error_message error) ;;
  st_ret (JObj [("success", JBool true);
                ("emergency", JBool true);
                ("message", JStr "Emergency situation detected. Connecting you to emergency services immediately.");
                ("action", JStr "TRANSFER_EMERGENCY");
                ("transferTo", JStr EMERGENCY_CONTACTS.main)]).

Definition emergencyProtocol (env : Env) (args : JsVal) : St JsVal :=
  try_catch (emergencyProtocol_try env args) emergencyProtocol_catch.

(** The [try] block and the [catch] block of [transferToOperator]. *)
Definition transferToOperator_try (env : Env) (args : JsVal) : M JsVal :=
  reason <- lift (get args "reason") ;;
  department <- lift (get args "department") ;;
  logger_info ("Transfer requested: reason=" ++ to_str reason
               ++ ", department=" ++ to_str department) ;;
  ret (JObj [("success", JBool true);
             ("action", JStr "TRANSFER_OPERATOR");
             ("department", js_or department (JStr "General"));
             ("reason", reason);
             ("message", JStr ("I understand. Let me transfer you to "
                               ++ to_str (js_or department (JStr "our operator"))
                               ++ " who can better assist you. Please hold."))]).

Definition transferToOperator_catch (error : JsError) : St JsVal :=
  _ <~ logger Err ("Error in transferToOperator: " ++ error_message error) ;;
  st_ret (JObj [("success", JBool true);
                ("action", JStr "TRANSFER_OPERATOR");
                ("message", JStr "Let me transfer you to our operator. Please hold.")]).

Definition transferToOperator (env : Env) (args : JsVal) : St JsVal :=
  try_catch (transferToOperator_try env args) transferToOperator_catch.

(** The callback of [info.filter]. *)
Definition info_matches (query item : JsVal) : Exc bool :=
  title <-? get item "title" ;;
  t <-? str_toLowerCase title ;;
  q <-? str_toLowerCase query ;;
  if includes t q then Ok true
  else content <-? get item "content" ;;
       c <-? str_toLowerCase content ;;
       q2 <-? str_toLowerCase query ;;
       Ok (includes c q2).

Definition info_block (item : JsVal) : Exc string :=
  title <-? get item "title" ;;
  content <-? get item "content" ;;
  Ok (to_str title ++ ": " ++ to_str content).

(** The [try] block and the [catch] block of [searchHospitalInformation]. *)
Definition searchHospitalInformation_try (env : Env) (args : JsVal) : M JsVal :=
  query <- lift (get args "query") ;;
  logger_info ("Searching hospital info: query=" ++ to_str query) ;;
  results <- lift_st (db.searchHospitalData env query) ;;
  info <- lift_st (db.getHospitalInfo env JNull) ;;
  matchingInfo <- lift (filter_exc (info_matches query) info) ;;
  if ((length matchingInfo =? 0)%nat
      && (length (db.doctors results) =? 0)%nat
      && (length (db.departments results) =? 0)%nat)%bool
  then ret (failure "I couldn't find specific information about that. Would you like me to connect you to our information desk?")
  else
    part1 <- (if (0 <? length matchingInfo)%nat
              then blocks <- lift (map_exc info_block matchingInfo) ;;
                   ret (join (nl ++ nl) blocks)
              else ret "") ;;
    part2 <- (if (0 <? length (db.departments results))%nat
              then names <- lift (map_exc (fun d => get d "name") (db.departments results)) ;;
                   joined <- lift (arr_join (JArr names) ", ") ;;
                   ret (nl ++ nl ++ "Related departments: " ++ joined)
              else ret "") ;;
    let response := part1 ++ part2 in
    ret (JObj [("success", JBool true);
               ("info", JArr matchingInfo);
               ("relatedDoctors", JArr (db.doctors results));
               ("relatedDepartments", JArr (db.departments results));
               ("message", js_or (JStr response)
                             (JStr "I found some related information. How can I help you further?"))]).

Definition searchHospitalInformation_catch (error : JsError) : St JsVal :=
  _ <~ logger Err ("Error in searchHospitalInformation: " ++ error_message error) ;;
  st_ret (failure "I'm having trouble searching that information. Let me connect you to our information desk.").

Definition searchHospitalInformation (env : Env) (args : JsVal) : St JsVal :=
  try_catch (searchHospitalInformation_try env args) searchHospitalInformation_catch.

(** What [handlers[functionName]] evaluates to: one of the eight own
    properties of the object literal, a member inherited from
    [Object.prototype], or [undefined]. *)
Inductive HandlerValue : Type :=
| OwnHandler (h : Env -> JsVal -> St JsVal)
| Inherited (b : Builtin).

Definition handlers : list (string * (Env -> JsVal -> St JsVal)) :=
  [("search_doctors", searchDoctors);
   ("get_departments", getDepartmentsList);
   ("get_hospital_locations", getHospitalLocationsList);
   ("get_contact_details", getContactInfo);
   ("check_doctor_availability", checkDoctorAvailability);
   ("emergency_protocol", emergencyProtocol);
   ("transfer_to_operator", transferToOperator);
   ("search_hospital_info", searchHospitalInformation)].

(** The same table, each handler split into its [try] and its [catch]
    block. *)
Definition blocks
  : list (string * (Env -> JsVal -> M JsVal) * (JsError -> St JsVal)) :=
  [("search_doctors", searchDoctors_try, searchDoctors_catch);
   ("get_departments", getDepartmentsList_try, getDepartmentsList_catch);
   ("get_hospital_locations", getHospitalLocationsList_try, getHospitalLocationsList_catch);
   ("get_contact_details", getContactInfo_try, getContactInfo_catch);
   ("check_doctor_availability", checkDoctorAvailability_try, checkDoctorAvailability_catch);
   ("emergency_protocol", emergencyProtocol_try, emergencyProtocol_catch);
   ("transfer_to_operator", transferToOperator_try, transferToOperator_catch);
   ("search_hospital_info", searchHospitalInformation_try, searchHospitalInformation_catch)].

(** The two handlers that declare a side-effect action. *)
Definition declares_action (name : string) : bool :=
  (String.eqb name "emergency_protocol" || String.eqb name "transfer_to_operator")%bool.

Definition handlers_get (key : string) : option HandlerValue :=
  match find (fun kv => String.eqb (fst kv) key) handlers with
  | Some kv => Some (OwnHandler (snd kv))
  | None =>
      match object_prototype key with
      | Some b => Some (Inherited b)
      | None => None
      end
  end.

(** The function router. *)
Definition handleFunctionCall (env : Env) (functionName args : JsVal) : St JsVal :=
  _ <~ logger Info ("Function called: " ++ to_str functionName) ;;
  match handlers_get (to_str functionName) with
  | None =>
      _ <~ logger Err ("Unknown function: " ++ to_str functionName) ;;
      st_ret (failure "I'm not sure how to handle that request. Let me connect you to our operator.")
  | Some handler =>
      try_catch
        (match handler with
         | OwnHandler h => lift_st (h env args)
         | Inherited b => lift (call_builtin b args)
         end)
        (fun error =>
           _ <~ logger Err ("Error handling function " ++ to_str functionName ++ ": "
                            ++ error_message error) ;;
           st_ret (failure "I encountered an error processing your request. Let me transfer you to our operator."))
  end.

End functionHandlers.

(* ================================================================== *)
(** ** [services/conversationManager.js]                               *)
(* ================================================================== *)

Module conversationManager.

(** [uuidv4()]: a fresh identifier at each call. *)
Definition uuidv4 : St JsVal :=
  fun w => (with_uuids (S (uuids w)) w,
            JStr ("uuid-" ++ string_of_Z (Z.of_nat (uuids w)))).

(** The heap of [Conversation] objects. A reference is never dangling:
    objects are only added. [dangling] is what reading one would give. *)
Definition dangling : Conversation.t :=
  {| Conversation.id := JNull; Conversation.callSid := JUndef;
     Conversation.sessionId := JUndef; Conversation.phoneNumber := JUndef;
     Conversation.conversationType := JUndef;
     Conversation.languageDetected := JUndef; Conversation.messages := [];
     Conversation.startTime := 0; Conversation.functionCalls := [];
     Conversation.transfers := []; Conversation.emergencies := [] |}.

Definition deref (r : nat) : St Conversation.t :=
  fun w => (w, nth r (heap w) dangling).

Fixpoint replace_nth {A} (n : nat) (f : A -> A) (l : list A) : list A :=
  match l, n with
  | [], _ => []
  | x :: rest, O => f x :: rest
  | x :: rest, S k => x :: replace_nth k f rest
  end.

Definition update (r : nat) (f : Conversation.t -> Conversation.t) : St unit :=
  fun w => (with_heap (replace_nth r f (heap w)) w, tt).

Definition alloc (c : Conversation.t) : St nat :=
  fun w => (with_heap (heap w ++ [c]) w, length (heap w)).

(** The [Map] operations used on [activeConversations]. *)
Fixpoint map_get (key : JsVal) (m : list (JsVal * nat)) : option nat :=
  match m with
  | [] => None
  | (k, v) :: rest => if strict_eq k key then Some v else map_get key rest
  end.

Fixpoint map_set (key : JsVal) (v : nat) (m : list (JsVal * nat))
  : list (JsVal * nat) :=
  match m with
  | [] => [(key, v)]
  | (k, v0) :: rest =>
      if strict_eq k key then (k, v) :: rest else (k, v0) :: map_set key v rest
  end.

Definition map_delete (key : JsVal) (m : list (JsVal * nat)) : list (JsVal * nat) :=
  filter (fun kv => negb (strict_eq (fst kv) key)) m.

(** [new Conversation({ callSid, sessionId, phoneNumber,
    conversationType = 'phone' })]. *)
Definition new_Conversation (callSid sessionId phoneNumber conversationType : JsVal)
  : St nat :=
  sid <~ (if truthy sessionId then st_ret sessionId else uuidv4) ;;
  t <~ Date_now ;;
  alloc {| Conversation.id := JNull;
           Conversation.callSid := callSid;
           Conversation.sessionId := sid;
           Conversation.phoneNumber := phoneNumber;
           Conversation.conversationType :=
             (if strict_eq conversationType JUndef then JStr "phone"
              else conversationType);
           Conversation.languageDetected := JStr "en";
           Conversation.messages := [];
           Conversation.startTime := t;
           Conversation.functionCalls := [];
           Conversation.transfers := [];
           Conversation.emergencies := [] |}.

(** [Conversation.initialize()]. *)
Definition initialize (env : Env) (self : nat) : Async JsVal :=
  atry
    (c <<- atomic_st (deref self) ;;
     conversationData <<- total (db.createConversation env
                                   (Conversation.callSid c) (Conversation.sessionId c)
                                   (Conversation.phoneNumber c)
                                   (Conversation.conversationType c)
                                   (Conversation.languageDetected c)) ;;
     (if truthy conversationData
      then idv <<- atomic (lift (get conversationData "id")) ;;
           atomic_st (update self (Conversation.with_id idv)) ;;;
           atomic (logger_info ("Conversation initialized: " ++ to_str idv ++ " ("
                                ++ to_str (Conversation.conversationType c) ++ ")"))
      else Return (Ok tt)) ;;;
     c1 <<- atomic_st (deref self) ;;
     Return (Ok (Conversation.id c1)))
    (fun error =>
       Atomic (logger Err ("Error initializing conversation: " ++ error_message error))
              (fun _ => Return JNull)).

(** [Conversation.addMessage(role, content, metadata = {})]. *)
Definition addMessage (env : Env) (self : nat) (role content : JsVal) : Async unit :=
  Atomic (t <~ Date_now ;;
          c <~ deref self ;;
          let message := {| Conversation.role := role; Conversation.content := content;
                            Conversation.timestamp := t;
                            Conversation.metadata := JObj [] |} in
          _ <~ update self (Conversation.with_messages (Conversation.messages c ++ [message])) ;;
          deref self)
         (fun c =>
            if truthy (Conversation.id c)
            then abind (db.addConversationMessage env (Conversation.id c) role content
                          (Conversation.languageDetected c) (JObj []))
                       (fun _ => Return tt)
            else Return tt).

(** [Conversation.logFunctionCall(functionName, args, result)]. *)
Definition logFunctionCall (self : nat) (functionName args result : JsVal) : M unit :=
  t <- lift_st Date_now ;;
  c <- lift_st (deref self) ;;
  lift_st (update self (Conversation.with_functionCalls
             (Conversation.functionCalls c ++
              [JObj [("function", functionName); ("arguments", args);
                     ("result", result); ("timestamp", JNum t)]]))) ;;
  success <- lift (get_opt result "success") ;;
  logger_info ("Function called: " ++ to_str functionName ++ " - Success: "
               ++ to_str success).

(** [Conversation.logTransfer(transferType, destination, reason)]. *)
Definition logTransfer (self : nat) (transferType destination reason : JsVal) : M unit :=
  t <- lift_st Date_now ;;
  c <- lift_st (deref self) ;;
  lift_st (update self (Conversation.with_transfers
             (Conversation.transfers c ++
              [JObj [("type", transferType); ("destination", destination);
                     ("reason", reason); ("timestamp", JNum t)]]))) ;;
  logger_info ("Transfer logged: " ++ to_str transferType ++ " to " ++ to_str destination).

(** [Conversation.logEmergency(emergencyType, details)]. *)
Definition logEmergency (self : nat) (emergencyType details : JsVal) : M unit :=
  t <- lift_st Date_now ;;
  c <- lift_st (deref self) ;;
  lift_st (update self (Conversation.with_emergencies
             (Conversation.emergencies c ++
              [JObj [("type", emergencyType); ("details", details);
                     ("timestamp", JNum t)]]))) ;;
  logger_warn ("Emergency logged: " ++ to_str emergencyType).

(** [[...new Set(values)]]: the first occurrence of each value is kept. *)
Fixpoint dedupe (seen values : list JsVal) : list JsVal :=
  match values with
  | [] => []
  | v :: rest =>
      if existsb (strict_eq v) seen then dedupe seen rest
      else v :: dedupe (v :: seen) rest
  end.

(** [Conversation.generateSummary()]. *)
Definition generateSummary (env : Env) (self : nat) : Async unit :=
  atry
    (c <<- atomic_st (deref self) ;;
     let userMessages :=
       filter (fun m => strict_eq (Conversation.role m) (JStr "user")) (Conversation.messages c) in
     let assistantMessages :=
       filter (fun m => strict_eq (Conversation.role m) (JStr "assistant")) (Conversation.messages c) in
     let count {A} (l : list A) := string_of_Z (Z.of_nat (length l)) in
     let summary :=
       "Conversation with " ++ to_str (js_or (Conversation.phoneNumber c) (JStr "unknown caller")) ++ ". "
       ++ count userMessages ++ " user messages, "
       ++ count assistantMessages ++ " assistant responses. "
       ++ count (Conversation.functionCalls c) ++ " function calls, "
       ++ count (Conversation.transfers c) ++ " transfers, "
       ++ count (Conversation.emergencies c) ++ " emergencies." in
     names <<- atomic (lift (map_exc (fun fc => get fc "function") (Conversation.functionCalls c))) ;;
     let keyTopics := dedupe [] names in
     let sentiment :=
       if (0 <? length (Conversation.emergencies c))%nat then "urgent"
       else if (2 <? length (Conversation.transfers c))%nat then "frustrated"
       else "neutral" in
     actionItems <<- atomic (lift (map_exc (fun t =>
                        destination <-? get t "destination" ;;
                        reason <-? get t "reason" ;;
                        Ok (JStr ("Transfer to " ++ to_str destination ++ ": " ++ to_str reason)))
                      (Conversation.transfers c))) ;;
     total (db.createConversationSummary env (Conversation.id c) (JStr summary)
              (JArr keyTopics) (JStr sentiment) (JArr actionItems)) ;;;
     c1 <<- atomic_st (deref self) ;;
     atomic (logger_info ("Summary generated for conversation: " ++ to_str (Conversation.id c1))))
    (fun error =>
       Atomic (logger Err ("Error generating summary: " ++ error_message error))
              (fun _ => Return tt)).

Definition record_end (self : nat) (status : JsVal) : St unit :=
  fun w => (with_endCalls (endCalls w ++ [(self, status)]) w, tt).

(** [Conversation.end(status)]. The store is written only for a record
    the store has acknowledged ([this.id] set); the summary follows if
    the conversation has messages by then. *)
Definition end_body (env : Env) (self : nat) (status : JsVal) : Async JsVal :=
  atry
    (t <<- atomic_st Date_now ;;
     c <<- atomic_st (deref self) ;;
     let duration := (t - Conversation.startTime c) / 1000 in
     (if truthy (Conversation.id c)
      then total (db.endConversation env (Conversation.id c) status) ;;;
           c1 <<- atomic_st (deref self) ;;
           if (0 <? length (Conversation.messages c1))%nat
           then total (generateSummary env self)
           else Return (Ok tt)
      else Return (Ok tt)) ;;;
     c2 <<- atomic_st (deref self) ;;
     atomic (logger_info ("Conversation ended: " ++ to_str (Conversation.id c2) ++ " ("
                          ++ string_of_Z duration ++ "s, " ++ to_str status ++ ")")) ;;;
     Return (Ok (JObj [("duration", JNum duration); ("status", status)])))
    (fun error =>
       Atomic (logger Err ("Error ending conversation: " ++ error_message error))
              (fun _ => Return JNull)).

(** The call of [end], entered in the history before its body runs. *)
Definition end_ (env : Env) (self : nat) (status : JsVal) : Async JsVal :=
  Atomic (record_end self status) (fun _ => end_body env self status).

(** [createConversation({ callSid, sessionId, phoneNumber,
    conversationType })]: the key is the call identifier if it is
    truthy, else the session identifier that was passed in. *)
Definition createConversation (env : Env)
  (callSid sessionId phoneNumber conversationType : JsVal) : Async nat :=
  Atomic (new_Conversation callSid sessionId phoneNumber conversationType)
    (fun conversation =>
  abind (initialize env conversation)
    (fun _ =>
  let key := js_or callSid sessionId in
  Atomic (fun w => (with_activeConversations
                      (map_set key conversation (activeConversations w)) w, tt))
    (fun _ =>
  Atomic (logger Info ("Conversation created and registered: " ++ to_str key))
    (fun _ => Return conversation)))).

(** [getConversation(identifier)]. *)
Definition getConversation (identifier : JsVal) : St (option nat) :=
  fun w => (w, map_get identifier (activeConversations w)).

(** [endConversation(identifier, status)]: the entry is deleted after
    the awaited [end] has finished. *)
Definition endConversation (env : Env) (identifier status : JsVal) : Async JsVal :=
  Atomic (getConversation identifier)
    (fun conversation =>
       match conversation with
       | None =>
           Atomic (logger Warn ("Conversation not found: " ++ to_str identifier))
                  (fun _ => Return JNull)
       | Some c =>
           abind (end_ env c status)
             (fun result =>
           Atomic (fun w => (with_activeConversations
                               (map_delete identifier (activeConversations w)) w, tt))
             (fun _ =>
           Atomic (logger Info ("Conversation cleaned up: " ++ to_str identifier))
             (fun _ => Return result)))
       end).

(** The age threshold of the sweep, in milliseconds. *)
Definition thirty_minutes : Z := 30 * 60 * 1000.

Definition is_stale (thirtyMinutesAgo : Z) (w : World) (entry : JsVal * nat) : bool :=
  Conversation.startTime (nth (snd entry) (heap w) dangling) <? thirtyMinutesAgo.

(** The loop of [cleanupStaleConversations] over the entries of the
    map. [conversation.end('timeout')] is called and not awaited: it
    runs up to its first suspension point, the rest stays pending. *)
Fixpoint sweep (env : Env) (thirtyMinutesAgo : Z) (entries : list (JsVal * nat))
  (p : Process) (cleaned : nat) : Process * nat :=
  match entries with
  | [] => (p, cleaned)
  | (key, conversation) :: rest =>
      if is_stale thirtyMinutesAgo (world p) (key, conversation)
      then
        let p1 := spawn (abind (end_ env conversation (JStr "timeout"))
                               (fun _ => Return tt)) p in
        let p2 := {| world := with_activeConversations
                                (map_delete key (activeConversations (world p1)))
                                (world p1);
                     pending := pending p1 |} in
        sweep env thirtyMinutesAgo rest p2 (S cleaned)
      else sweep env thirtyMinutesAgo rest p cleaned
  end.

(** [cleanupStaleConversations()]. *)
Definition cleanupStaleConversations (env : Env) (p : Process) : Process * nat :=
  let thirtyMinutesAgo := now (world p) - thirty_minutes in
  let '(p1, cleaned) :=
    sweep env thirtyMinutesAgo (activeConversations (world p)) p 0%nat in
  if (0 <? cleaned)%nat
  then ({| world := fst (logger Info ("Cleaned up " ++ string_of_Z (Z.of_nat cleaned)
                                      ++ " stale conversations") (world p1));
           pending := pending p1 |}, cleaned)
  else (p1, cleaned).

End conversationManager.

(* ================================================================== *)
(** ** [services/realtimeHandler.js]                                   *)
(* ================================================================== *)

Module realtimeHandler.

Import WebSocket.

Definition get_this : St Handler.t := fun w => (w, this w).

Definition set_this (f : Handler.t -> Handler.t) : St unit :=
  fun w => (with_this (f (this w)) w, tt).

(** The number [ws.readyState] evaluates to. *)
Definition readyState_number (r : ReadyState) : Z :=
  match r with CONNECTING => 0 | OPEN => 1 | CLOSING => 2 | CLOSED => 3 end.

(** [sendToOpenAI(message)]: the one place that calls [openaiWs.send]. *)
Definition sendToOpenAI (message : JsVal) : St unit :=
  fun w =>
    match Handler.openaiWs (this w) with
    | Some ws =>
        if is_open (readyState ws)
        then (with_this (Handler.with_openaiWs (Some (send message ws)) (this w)) w, tt)
        else (w, tt)
    | None => (w, tt)
    end.

Definition sessionConfig (env : Env) : JsVal :=
  JObj [("type", JStr "session.update");
        ("session",
         JObj [("modalities", JArr [JStr "text"; JStr "audio"]);
               ("instructions", SYSTEM_PROMPT env);
               ("voice", VOICE_CONFIG_voice env);
               ("input_audio_format", VOICE_CONFIG_inputAudioFormat env);
               ("output_audio_format", VOICE_CONFIG_outputAudioFormat env);
               ("input_audio_transcription", JObj [("model", JStr "whisper-1")]);
               ("turn_detection", VOICE_CONFIG_turnDetection env);
               ("tools", FUNCTION_TOOLS env);
               ("tool_choice", JStr "auto");
               ("temperature", VOICE_CONFIG_temperature env);
               ("max_response_output_tokens", VOICE_CONFIG_maxResponseOutputTokens env)])].

(** [sendSessionUpdate()]. *)
Definition sendSessionUpdate (env : Env) : St unit :=
  _ <~ sendToOpenAI (sessionConfig env) ;;
  logger Info ("Session configuration sent to OpenAI - Voice: "
               ++ to_str (VOICE_CONFIG_voice env) ++ ", Audio Format: "
               ++ to_str (VOICE_CONFIG_inputAudioFormat env) ++ "/"
               ++ to_str (VOICE_CONFIG_outputAudioFormat env)).

Definition greeting : JsVal :=
  JObj [("type", JStr "conversation.item.create");
        ("item", JObj [("type", JStr "message");
                       ("role", JStr "user");
                       ("content", JArr [JObj [("type", JStr "input_text");
                                               ("text", JStr "Hello")]])])].

Definition response_create : JsVal := JObj [("type", JStr "response.create")].

(** [sendInitialGreeting()]. *)
Definition sendInitialGreeting : St unit :=
  _ <~ sendToOpenAI greeting ;;
  sendToOpenAI response_create.

(** [!v || v.length === 0]. *)
Definition is_empty (v : JsVal) : bool :=
  (negb (truthy v)
   || match get v "length" with
      | Ok len => strict_eq len (JNum 0)
      | Throw _ => false
      end)%bool.

Definition audioEvent (audioPayload : JsVal) : JsVal :=
  JObj [("type", JStr "input_audio_buffer.append"); ("audio", audioPayload)].

(** [sendAudioToOpenAI(audioPayload)]. *)
Definition sendAudioToOpenAI (audioPayload : JsVal) : St unit :=
  h <~ get_this ;;
  if negb (Handler.isConnected h)
  then logger Warn "sendAudioToOpenAI: Not connected to OpenAI"
  else if is_empty audioPayload
  then logger Warn "sendAudioToOpenAI: Empty audio payload"
  else sendToOpenAI (audioEvent audioPayload).

Definition mediaMessage (streamSid audioData : JsVal) : JsVal :=
  JObj [("event", JStr "media");
        ("streamSid", streamSid);
        ("media", JObj [("payload", audioData)])].

(** [sendAudioToExotel(audioData)]. *)
Definition sendAudioToExotel (audioData : JsVal) : M unit :=
  h <- lift_st get_this ;;
  match Handler.exotelWs h with
  | None =>
      logger_warn "sendAudioToExotel: Exotel WebSocket not ready (readyState: undefined)"
  | Some ws =>
      if negb (is_open (readyState ws))
      then logger_warn ("sendAudioToExotel: Exotel WebSocket not ready (readyState: "
                        ++ string_of_Z (readyState_number (readyState ws)) ++ ")")
      else if negb (truthy (Handler.streamSid h))
      then logger_warn "sendAudioToExotel: No streamSid available"
      else if is_empty audioData
      then logger_warn "sendAudioToExotel: Empty audio data"
      else
        lift_st (set_this (Handler.with_exotelWs
                             (Some (send (mediaMessage (Handler.streamSid h) audioData) ws)))) ;;
        if negb (Handler.audioSentToExotel h)
        then len <- lift (get audioData "length") ;;
             logger_info ("First audio packet sent to Exotel (" ++ to_str len
                          ++ " bytes) - Playback should start") ;;
             lift_st (set_this (Handler.with_audioSentToExotel true))
        else ret tt
  end.

(** [getDepartmentContactNumber(department)]: the directory first, then
    the keywords, then the main number; the literal number if anything
    throws. *)
Definition getDepartmentContactNumber (env : Env) (department : JsVal) : St JsVal :=
  try_catch
    (contacts <- lift_st (db.getContactDetails env department) ;;
     match contacts with
     | first :: _ =>
         phone_number <- lift (get first "phone_number") ;;
         logger_info ("Found department contact in database: " ++ to_str department
                      ++ " -> " ++ to_str phone_number) ;;
         ret phone_number
     | [] =>
         deptLower <- lift (str_toLowerCase (js_or department (JStr ""))) ;;
         if (includes deptLower "emergency" || includes deptLower "urgent")%bool
         then logger_info ("Using emergency contact for department: " ++ to_str department) ;;
              ret (JStr EMERGENCY_CONTACTS.main)
         else if (includes deptLower "cardiac" || includes deptLower "heart")%bool
         then ret (JStr EMERGENCY_CONTACTS.cardiac)
         else if (includes deptLower "trauma" || includes deptLower "accident")%bool
         then ret (JStr EMERGENCY_CONTACTS.trauma)
         else if includes deptLower "ambulance"
         then ret (JStr EMERGENCY_CONTACTS.ambulance)
         else logger_warn ("No specific contact found for department: " ++ to_str department
                           ++ ", using main number") ;;
              ret (JStr EMERGENCY_CONTACTS.main)
     end)
    (fun error =>
       _ <~ logger Err ("Error getting department contact number: " ++ error_message error) ;;
       st_ret (JStr "+91-22-2640-0000")).

Definition record_request (r : HttpRequest) : St unit :=
  fun w => (with_httpRequests (httpRequests w ++ [r]) w, tt).

Definition exotelApiUrl (env : Env) (callSid : JsVal) : string :=
  "https://" ++ to_str (EXOTEL_API_KEY env) ++ ":" ++ to_str (EXOTEL_API_TOKEN env)
  ++ "@api.exotel.com/v1/Accounts/" ++ to_str (EXOTEL_SID env)
  ++ "/Calls/" ++ to_str callSid.

Definition transfer_body (transferUrl : string) : list (string * string) :=
  [("Url", transferUrl); ("CallType", "trans"); ("TimeLimit", "14400"); ("TimeOut", "30")].

(** [const response = await fetch(...); if (!response.ok) throw ...]. *)
Definition post (env : Env) (request : HttpRequest) : Async (Exc unit) :=
  atomic_st (record_request request) ;;;
  Await (atomic (match fetch env request with
                 | FetchReject e => throw e
                 | Response ok status =>
                     if ok then ret tt
                     else throw (Error ("Exotel API error: " ++ string_of_Z status))
                 end)).

Definition credentials_missing (env : Env) : bool :=
  (negb (truthy (EXOTEL_API_KEY env)) || negb (truthy (EXOTEL_API_TOKEN env))
   || negb (truthy (EXOTEL_SID env)))%bool.

(** [executeEmergencyTransfer(transferNumber, emergencyType)]. *)
Definition executeEmergencyTransfer (env : Env) (transferNumber emergencyType : JsVal)
  : Async unit :=
  atry
    (if credentials_missing env
     then atomic (logger_error "Exotel credentials not configured - cannot transfer call")
     else if negb (truthy (PUBLIC_URL env))
     then atomic (logger_error "PUBLIC_URL not configured - cannot generate transfer URL")
     else
       h <<- atomic_st get_this ;;
       atomic (logger_warn ("Executing EMERGENCY transfer: " ++ to_str (Handler.callSid h)
                            ++ " to " ++ to_str transferNumber ++ " (Type: "
                            ++ to_str emergencyType ++ ")")) ;;;
       let transferUrl :=
         to_str (PUBLIC_URL env) ++ "/exotel/emergency-transfer?emergencyNumber="
         ++ to_str transferNumber ++ "&emergencyType=" ++ to_str emergencyType in
       post env {| url := exotelApiUrl env (Handler.callSid h);
                   body := transfer_body transferUrl |} ;;;
       h1 <<- atomic_st get_this ;;
       atomic (logger_warn ("Emergency transfer executed successfully: "
                            ++ to_str (Handler.callSid h1) ++ " -> " ++ to_str transferNumber)))
    (fun error =>
       Atomic (logger Err ("Error executing emergency transfer: " ++ error_message error))
              (fun _ => Return tt)).

(** [executeOperatorTransfer(department, reason)]. *)
Definition executeOperatorTransfer (env : Env) (department reason : JsVal) : Async unit :=
  atry
    (if credentials_missing env
     then atomic (logger_error "Exotel credentials not configured - cannot transfer call")
     else if negb (truthy (PUBLIC_URL env))
     then atomic (logger_error "PUBLIC_URL not configured - cannot generate transfer URL")
     else
       h <<- atomic_st get_this ;;
       atomic (logger_info ("Executing operator transfer: " ++ to_str (Handler.callSid h)
                            ++ " to " ++ to_str department ++ " (Reason: "
                            ++ to_str reason ++ ")")) ;;;
       transferNumber <<- Await (atomic_st (getDepartmentContactNumber env department)) ;;
       if negb (truthy transferNumber)
       then atomic (logger_error ("No contact number found for department: "
                                  ++ to_str department))
       else
         let transferUrl :=
           to_str (PUBLIC_URL env) ++ "/exotel/transfer-call?transferTo="
           ++ to_str transferNumber ++ "&department="
           ++ encodeURIComponent (to_str department) in
         h1 <<- atomic_st get_this ;;
         post env {| url := exotelApiUrl env (Handler.callSid h1);
                     body := transfer_body transferUrl |} ;;;
         h2 <<- atomic_st get_this ;;
         atomic (logger_info ("Operator transfer executed successfully: "
                              ++ to_str (Handler.callSid h2) ++ " -> " ++ to_str department
                              ++ " (" ++ to_str transferNumber ++ ")")))
    (fun error =>
       Atomic (logger Err ("Error executing operator transfer: " ++ error_message error))
              (fun _ => Return tt)).

(** [this.conversation.method(...)]: a call on [null] throws. *)
Definition this_conversation (method : string) : M nat :=
  h <- lift_st get_this ;;
  match Handler.conversation h with
  | Some c => ret c
  | None => throw (TypeError ("Cannot read properties of null (reading '" ++ method ++ "')"))
  end.

Definition functionOutput (call_id result : JsVal) : JsVal :=
  JObj [("type", JStr "conversation.item.create");
        ("item", JObj [("type", JStr "function_call_output");
                       ("call_id", call_id);
                       ("output", JSON_stringify result)])].

(** The [try] block of [handleFunctionCall(message)]. *)
Definition handleFunctionCall_body (env : Env) (message : JsVal) : Async (Exc unit) :=
  call_id <<- atomic (lift (get message "call_id")) ;;
  name <<- atomic (lift (get message "name")) ;;
  argsString <<- atomic (lift (get message "arguments")) ;;
  args <<- atomic (lift (JSON_parse env (to_str (js_or argsString (JStr "{}"))))) ;;
  atomic (logger_info ("Function call: " ++ to_str name)) ;;;
  result <<- Await (atomic_st (functionHandlers.handleFunctionCall env name args)) ;;
  atomic (c <- this_conversation "logFunctionCall" ;;
          conversationManager.logFunctionCall c name args result) ;;;
  action <<- atomic (lift (get result "action")) ;;
  (if strict_eq action (JStr "TRANSFER_EMERGENCY")
   then
     transferTo <<- atomic (lift (get result "transferTo")) ;;
     atomic (logger_warn ("Emergency transfer requested: " ++ to_str transferTo)) ;;;
     emergencyType <<- atomic (lift (get result "emergencyType")) ;;
     atomic (c <- this_conversation "logEmergency" ;;
             conversationManager.logEmergency c emergencyType
               (JObj [("transferTo", transferTo)])) ;;;
     total (executeEmergencyTransfer env transferTo emergencyType)
   else if strict_eq action (JStr "TRANSFER_OPERATOR")
   then
     department <<- atomic (lift (get result "department")) ;;
     atomic (logger_info ("Operator transfer requested: " ++ to_str department)) ;;;
     reason <<- atomic (lift (get result "reason")) ;;
     atomic (c <- this_conversation "logTransfer" ;;
             conversationManager.logTransfer c (JStr "operator") department reason) ;;;
     total (executeOperatorTransfer env department reason)
   else Return (Ok tt)) ;;;
  atomic_st (sendToOpenAI (functionOutput call_id result)) ;;;
  atomic_st (sendToOpenAI response_create).

(** [handleFunctionCall(message)]. *)
Definition handleFunctionCall (env : Env) (message : JsVal) : Async unit :=
  atry (handleFunctionCall_body env message)
       (fun error =>
          Atomic (logger Err ("Error handling function call: " ++ error_message error))
                 (fun _ => Return tt)).

(** [handleOpenAIMessage(message)]. *)
Definition handleOpenAIMessage (env : Env) (message : JsVal) : Async (Exc unit) :=
  type <<- atomic (lift (get message "type")) ;;
  if strict_eq type (JStr "session.created")
  then atomic (logger_info "OpenAI session created")
  else if strict_eq type (JStr "session.updated")
  then Return (Ok tt)
  else if strict_eq type (JStr "conversation.item.created")
  then
    item <<- atomic (lift (get message "item")) ;;
    item_type <<- atomic (lift (get item "type")) ;;
    if strict_eq item_type (JStr "message")
    then
      role <<- atomic (lift (get item "role")) ;;
      if strict_eq role (JStr "user")
      then
        transcript <<- atomic (lift (cs <-? get item "content" ;;
                                     first <-? get_opt cs "0" ;;
                                     get_opt first "transcript")) ;;
        let content := js_or transcript (JStr "") in
        if truthy content
        then c <<- atomic (this_conversation "addMessage") ;;
             total (conversationManager.addMessage env c (JStr "user") content)
        else Return (Ok tt)
      else Return (Ok tt)
    else Return (Ok tt)
  else if strict_eq type (JStr "response.audio.delta")
  then
    delta <<- atomic (lift (get message "delta")) ;;
    if truthy delta
    then
      h <<- atomic_st get_this ;;
      (if negb (Handler.audioReceived h)
       then len <<- atomic (lift (get delta "length")) ;;
            atomic (logger_info ("First audio delta received from OpenAI (" ++ to_str len
                                 ++ " bytes) - Audio flow started")) ;;;
            atomic_st (set_this (Handler.with_audioReceived true))
       else Return (Ok tt)) ;;;
      atomic (sendAudioToExotel delta)
    else Return (Ok tt)
  else if strict_eq type (JStr "response.audio_transcript.delta")
  then Return (Ok tt)
  else if strict_eq type (JStr "response.audio_transcript.done")
  then
    transcript <<- atomic (lift (get message "transcript")) ;;
    if truthy transcript
    then c <<- atomic (this_conversation "addMessage") ;;
         total (conversationManager.addMessage env c (JStr "assistant") transcript)
    else Return (Ok tt)
  else if strict_eq type (JStr "response.function_call_arguments.done")
  then total (handleFunctionCall env message)
  else if strict_eq type (JStr "error")
  then err <<- atomic (lift (get message "error")) ;;
       atomic (logger_error ("OpenAI error: " ++ to_str err))
  else Return (Ok tt).

(** [handleExotelMessage(message)]. *)
Definition handleExotelMessage (env : Env) (message : JsVal) : Async (Exc unit) :=
  event <<- atomic (lift (get message "event")) ;;
  if strict_eq event (JStr "start")
  then
    start <<- atomic (lift (get message "start")) ;;
    streamSid <<- atomic (lift (get start "streamSid")) ;;
    atomic_st (set_this (Handler.with_streamSid streamSid)) ;;;
    customParameters <<- atomic (lift (get start "customParameters")) ;;
    (if truthy customParameters
     then
       h <<- atomic_st get_this ;;
       callSid <<- atomic (lift (get customParameters "callSid")) ;;
       (if (negb (truthy (Handler.callSid h)) && truthy callSid)%bool
        then atomic_st (set_this (Handler.with_callSid callSid)) ;;;
             atomic (logger_info ("CallSid extracted from stream: " ++ to_str callSid))
        else Return (Ok tt)) ;;;
       phoneNumber <<- atomic (lift (get customParameters "phoneNumber")) ;;
       (if (negb (truthy (Handler.phoneNumber h)) && truthy phoneNumber)%bool
        then atomic_st (set_this (Handler.with_phoneNumber phoneNumber)) ;;;
             atomic (logger_info ("Phone number extracted from stream: " ++ to_str phoneNumber))
        else Return (Ok tt))
     else Return (Ok tt)) ;;;
    h1 <<- atomic_st get_this ;;
    atomic (logger_info ("Exotel media stream started: " ++ to_str (Handler.streamSid h1)
                         ++ " for call: " ++ to_str (Handler.callSid h1)))
  else if strict_eq event (JStr "media")
  then
    h <<- atomic_st get_this ;;
    payload <<- atomic (if Handler.isConnected h
                        then media <- lift (get message "media") ;;
                             lift (get media "payload")
                        else ret JUndef) ;;
    if (Handler.isConnected h && truthy payload)%bool
    then
      (if negb (Handler.audioSent h)
       then len <<- atomic (lift (get payload "length")) ;;
            atomic (logger_info ("First audio chunk received from Exotel (" ++ to_str len
                                 ++ " bytes) - Forwarding to OpenAI")) ;;;
            atomic_st (set_this (Handler.with_audioSent true))
       else Return (Ok tt)) ;;;
      atomic_st (sendAudioToOpenAI payload)
    else
      (if negb (Handler.isConnected h)
       then atomic (logger_warn "Cannot forward audio to OpenAI: Not connected")
       else Return (Ok tt)) ;;;
      media <<- atomic (lift (get message "media")) ;;
      payload2 <<- atomic (lift (get media "payload")) ;;
      if negb (truthy payload2)
      then atomic (logger_warn "Cannot forward audio to OpenAI: Empty payload")
      else Return (Ok tt)
  else if strict_eq event (JStr "stop")
  then
    h <<- atomic_st get_this ;;
    atomic (logger_info ("Exotel media stream stopped: " ++ to_str (Handler.streamSid h))) ;;;
    total (conversationManager.endConversation env (Handler.callSid h) (JStr "completed")) ;;;
    Return (Ok tt)
  else Return (Ok tt).

(** [cleanup()]: run by the close handler of either socket. *)
Definition cleanup (env : Env) : Async unit :=
  atry
    (h <<- atomic_st get_this ;;
     (match Handler.openaiWs h with
      | Some ws => atomic_st (set_this (Handler.with_openaiWs (Some (close ws))))
      | None => Return (Ok tt)
      end) ;;;
     (match Handler.conversation h with
      | Some _ =>
          total (conversationManager.endConversation env (Handler.callSid h)
                   (JStr "completed")) ;;;
          Return (Ok tt)
      | None => Return (Ok tt)
      end) ;;;
     h1 <<- atomic_st get_this ;;
     atomic (logger_info ("Realtime session cleaned up: " ++ to_str (Handler.callSid h1))))
    (fun error =>
       Atomic (logger Err ("Error cleaning up realtime session: " ++ error_message error))
              (fun _ => Return tt)).

(** [initialize()]: the conversation is looked up or created, then the
    model-side socket is constructed (it starts connecting). *)
Definition initialize (env : Env) : Async (Exc unit) :=
  abind
    (h <<- atomic_st get_this ;;
     found <<- atomic_st (conversationManager.getConversation (Handler.callSid h)) ;;
     atomic_st (set_this (Handler.with_conversation found)) ;;;
     (match found with
      | Some _ => Return (Ok tt)
      | None =>
          created <<- total (conversationManager.createConversation env
                               (Handler.callSid h) JUndef (Handler.phoneNumber h)
                               (JStr "phone")) ;;
          atomic_st (set_this (Handler.with_conversation (Some created)))
      end) ;;;
     atomic_st (set_this (Handler.with_openaiWs (Some (fresh CONNECTING)))) ;;;
     h1 <<- atomic_st get_this ;;
     atomic (logger_info ("Realtime session initialized: " ++ to_str (Handler.callSid h1))))
    (fun r =>
       match r with
       | Ok _ => Return (Ok tt)
       | Throw error =>
           Atomic (logger Err ("Error initializing realtime session: " ++ error_message error))
                  (fun _ => Return (Throw error))
       end).

(** The listeners set up by [setupOpenAIHandlers] and
    [setupExotelHandlers]. *)
Definition on_openai_open (env : Env) : St unit :=
  h <~ get_this ;;
  _ <~ logger Info ("OpenAI WebSocket connected: " ++ to_str (Handler.callSid h)) ;;
  _ <~ set_this (Handler.with_isConnected true) ;;
  _ <~ sendSessionUpdate env ;;
  sendInitialGreeting.

Definition on_openai_message (env : Env) (data : string) : Async unit :=
  atry (message <<- atomic (lift (JSON_parse env data)) ;;
        handleOpenAIMessage env message)
       (fun error =>
          Atomic (logger Err ("Error handling OpenAI message: " ++ error_message error))
                 (fun _ => Return tt)).

Definition on_openai_error (message : string) : St unit :=
  logger Err ("OpenAI WebSocket error: " ++ message).

Definition on_openai_close (env : Env) : Async unit :=
  Atomic (h <~ get_this ;;
          _ <~ logger Info ("OpenAI WebSocket closed: " ++ to_str (Handler.callSid h)) ;;
          set_this (Handler.with_isConnected false))
         (fun _ => cleanup env).

Definition on_exotel_message (env : Env) (data : string) : Async unit :=
  atry (message <<- atomic (lift (JSON_parse env data)) ;;
        handleExotelMessage env message)
       (fun error =>
          Atomic (logger Err ("Error handling Exotel message: " ++ error_message error))
                 (fun _ => Return tt)).

Definition on_exotel_close (env : Env) : Async unit :=
  Atomic (h <~ get_this ;;
          logger Info ("Exotel WebSocket closed: " ++ to_str (Handler.callSid h)))
         (fun _ => cleanup env).

Definition on_exotel_error (message : string) : St unit :=
  logger Err ("Exotel WebSocket error: " ++ message).

(** [createRealtimeSession(exotelWs, callSid, phoneNumber)]. *)
Definition createRealtimeSession (env : Env) (exotelWs : option WebSocket.t)
  (callSid phoneNumber : JsVal) : Async (Exc unit) :=
  Atomic (set_this (fun _ => Handler.constructor exotelWs callSid phoneNumber))
         (fun _ => initialize env).

End realtimeHandler.

(* ================================================================== *)
(** ** The process: socket events and the event loop                   *)
(* ================================================================== *)

(** What can happen to the process of one call: the events the two
    sockets emit (the [ws] library moves [readyState] before it calls
    the listener), the answer a suspended task waits for, the passing of
    time, and the timer of the staleness sweep. *)
Inductive Event : Type :=
| OpenAIOpen
| OpenAIMessage (data : string)
| OpenAIError (message : string)
| OpenAIClosing
| OpenAIClose
| ExotelMessage (data : string)
| ExotelError (message : string)
| ExotelClose
| Resume (i : nat)
| Tick (ms : Z)
| Sweep.

Definition in_world (f : World -> World) (p : Process) : Process :=
  {| world := f (world p); pending := pending p |}.

Definition set_openai_state (r : WebSocket.ReadyState) (w : World) : World :=
  match Handler.openaiWs (this w) with
  | Some ws =>
      with_this (Handler.with_openaiWs (Some (WebSocket.with_readyState r ws)) (this w)) w
  | None => w
  end.

Definition set_exotel_state (r : WebSocket.ReadyState) (w : World) : World :=
  match Handler.exotelWs (this w) with
  | Some ws =>
      with_this (Handler.with_exotelWs (Some (WebSocket.with_readyState r ws)) (this w)) w
  | None => w
  end.

Definition openai_state (p : Process) : option WebSocket.ReadyState :=
  option_map WebSocket.readyState (Handler.openaiWs (this (world p))).

Definition exotel_state (p : Process) : option WebSocket.ReadyState :=
  option_map WebSocket.readyState (Handler.exotelWs (this (world p))).

Definition step (env : Env) (e : Event) (p : Process) : Process :=
  match e with
  | OpenAIOpen =>
      match openai_state p with
      | Some WebSocket.CONNECTING =>
          in_world (fun w => fst (realtimeHandler.on_openai_open env
                                    (set_openai_state WebSocket.OPEN w))) p
      | _ => p
      end
  | OpenAIMessage data =>
      match openai_state p with
      | Some WebSocket.OPEN | Some WebSocket.CLOSING =>
          spawn (realtimeHandler.on_openai_message env data) p
      | _ => p
      end
  | OpenAIError message =>
      match openai_state p with
      | Some _ => in_world (fun w => fst (realtimeHandler.on_openai_error message w)) p
      | None => p
      end
  | OpenAIClosing =>
      match openai_state p with
      | Some WebSocket.CONNECTING | Some WebSocket.OPEN =>
          in_world (set_openai_state WebSocket.CLOSING) p
      | _ => p
      end
  | OpenAIClose =>
      match openai_state p with
      | Some WebSocket.CLOSED | None => p
      | Some _ =>
          spawn (realtimeHandler.on_openai_close env)
                (in_world (set_openai_state WebSocket.CLOSED) p)
      end
  | ExotelMessage data =>
      match exotel_state p with
      | Some WebSocket.OPEN | Some WebSocket.CLOSING =>
          spawn (realtimeHandler.on_exotel_message env data) p
      | _ => p
      end
  | ExotelError message =>
      match exotel_state p with
      | Some _ => in_world (fun w => fst (realtimeHandler.on_exotel_error message w)) p
      | None => p
      end
  | ExotelClose =>
      match exotel_state p with
      | Some WebSocket.CLOSED | None => p
      | Some _ =>
          spawn (realtimeHandler.on_exotel_close env)
                (in_world (set_exotel_state WebSocket.CLOSED) p)
      end
  | Resume i => resume i p
  | Tick ms => in_world (fun w => with_now (now w + Z.max 0 ms) w) p
  | Sweep => fst (conversationManager.cleanupStaleConversations env p)
  end.

Definition steps (env : Env) (es : list Event) (p : Process) : Process :=
  fold_left (fun q e => step env e q) es p.

(** The process before any call. *)
Definition empty_world : World :=
  {| log := []; now := 0; uuids := 0; heap := []; activeConversations := [];
     endCalls := []; dbWrites := []; httpRequests := [];
     this := Handler.constructor None JUndef JUndef |}.

(** The telephony socket connects: the server calls
    [createRealtimeSession] with the accepted (open) socket. *)
Definition connect (env : Env) (callSid phoneNumber : JsVal) (p : Process) : Process :=
  spawn (abind (realtimeHandler.createRealtimeSession env
                  (Some (WebSocket.fresh WebSocket.OPEN)) callSid phoneNumber)
               (fun _ => Return tt)) p.

(** The writes that persist a terminal state. *)
Definition ended_writes (w : World) : list DbWrite :=
  filter (fun wr => match wr with UpdateConversationEnded _ _ _ => true | _ => false end)
         (dbWrites w).

(** The lines of a level in the log. *)
Definition lines_at (lvl : Level) (l : list LogEntry) : list string :=
  map text (filter (fun e => match level e, lvl with
                             | Info, Info | Warn, Warn | Err, Err => true
                             | _, _ => false
                             end) l).

(** The messages handed to the two sockets so far. *)
Definition sent_to_openai (w : World) : list JsVal :=
  match Handler.openaiWs (this w) with
  | Some ws => WebSocket.sent ws
  | None => []
  end.

Definition sent_to_exotel (w : World) : list JsVal :=
  match Handler.exotelWs (this w) with
  | Some ws => WebSocket.sent ws
  | None => []
  end.

Definition openai_is_open (w : World) : bool :=
  match Handler.openaiWs (this w) with
  | Some ws => WebSocket.is_open (WebSocket.readyState ws)
  | None => false
  end.

(* ================================================================== *)
(** ** A [JSON.parse] for closed examples                              *)
(* ================================================================== *)

(** The statements below hold for whatever function [JSON.parse] is
    ([Env] carries it). The examples need one: this parser reads the
    JSON texts whose numbers are integers and whose strings use the
    simple escapes. *)
Module JsonText.

Definition is_ws (c : ascii) : bool :=
  existsb (Nat.eqb (nat_of_ascii c)) [32; 9; 10; 13]%nat.

Fixpoint skip_ws (s : string) : string :=
  match s with
  | String c rest => if is_ws c then skip_ws rest else s
  | EmptyString => s
  end.

Definition is_digit (c : ascii) : bool :=
  (Nat.leb 48 (nat_of_ascii c) && Nat.leb (nat_of_ascii c) 57)%bool.

Fixpoint digits (s : string) (acc : Z) : Z * string :=
  match s with
  | String c rest =>
      if is_digit c then digits rest (10 * acc + Z.of_nat (nat_of_ascii c - 48))
      else (acc, s)
  | EmptyString => (acc, s)
  end.

Definition starts_number_tail (s : string) : bool :=
  match s with
  | String c _ => existsb (Nat.eqb (nat_of_ascii c)) [46; 101; 69]%nat
  | EmptyString => false
  end.

(** An integer literal: [0] or a nonzero digit followed by digits. *)
Definition number (s : string) : option (Z * string) :=
  match s with
  | String c rest =>
      if negb (is_digit c) then None
      else if Nat.eqb (nat_of_ascii c) 48
      then match rest with
           | String d _ => if (is_digit d || starts_number_tail rest)%bool
                           then None else Some (0, rest)
           | EmptyString => Some (0, rest)
           end
      else let '(n, rest1) := digits s 0 in
           if starts_number_tail rest1 then None else Some (n, rest1)
  | EmptyString => None
  end.

Definition escape (c : ascii) : option ascii :=
  let n := nat_of_ascii c in
  if Nat.eqb n 34 then Some c
  else if Nat.eqb n 92 then Some c
  else if Nat.eqb n 47 then Some c
  else if Nat.eqb n 98 then Some (ascii_of_nat 8)
  else if Nat.eqb n 102 then Some (ascii_of_nat 12)
  else if Nat.eqb n 110 then Some (ascii_of_nat 10)
  else if Nat.eqb n 114 then Some (ascii_of_nat 13)
  else if Nat.eqb n 116 then Some (ascii_of_nat 9)
  else None.

(** The text after an opening quote, up to the closing one. *)
Fixpoint string_body (s : string) : option (string * string) :=
  match s with
  | EmptyString => None
  | String c rest =>
      let n := nat_of_ascii c in
      if Nat.eqb n 34 then Some (EmptyString, rest)
      else if Nat.eqb n 92
      then match rest with
           | String e rest1 =>
               match escape e, string_body rest1 with
               | Some x, Some (txt, rest2) => Some (String x txt, rest2)
               | _, _ => None
               end
           | EmptyString => None
           end
      else if Nat.ltb n 32 then None
      else match string_body rest with
           | Some (txt, rest1) => Some (String c txt, rest1)
           | None => None
           end
  end.

Definition drop (n : nat) (s : string) : string :=
  substring n (String.length s - n) s.

Definition keyword (kw : string) (v : JsVal) (s : string) : option (JsVal * string) :=
  if String.prefix kw s then Some (v, drop (String.length kw) s) else None.

Definition head_is (n : nat) (s : string) : bool :=
  match s with
  | String c _ => Nat.eqb (nat_of_ascii c) n
  | EmptyString => false
  end.

Definition tail (s : string) : string :=
  match s with String _ rest => rest | EmptyString => s end.

(** A value, the items of an array after [[] or [,], the members of an
    object after [{] or [,]. *)
Fixpoint value (fuel : nat) (s : string) : option (JsVal * string) :=
  match fuel with
  | O => None
  | S f =>
      let s := skip_ws s in
      if head_is 123 s
      then let s1 := skip_ws (tail s) in
           if head_is 125 s1 then Some (JObj [], tail s1)
           else members f s1 []
      else if head_is 91 s
      then let s1 := skip_ws (tail s) in
           if head_is 93 s1 then Some (JArr [], tail s1)
           else items f s1 []
      else if head_is 34 s
      then match string_body (tail s) with
           | Some (txt, rest) => Some (JStr txt, rest)
           | None => None
           end
      else if head_is 45 s
      then match number (tail s) with
           | Some (n, rest) => Some (JNum (- n), rest)
           | None => None
           end
      else if head_is 110 s then keyword "null" JNull s
      else if head_is 116 s then keyword "true" (JBool true) s
      else if head_is 102 s then keyword "false" (JBool false) s
      else match number s with
           | Some (n, rest) => Some (JNum n, rest)
           | None => None
           end
  end
with items (fuel : nat) (s : string) (acc : list JsVal) : option (JsVal * string) :=
  match fuel with
  | O => None
  | S f =>
      match value f s with
      | Some (v, rest) =>
          let rest := skip_ws rest in
          if head_is 44 rest then items f (tail rest) (acc ++ [v])
          else if head_is 93 rest then Some (JArr (acc ++ [v]), tail rest)
          else None
      | None => None
      end
  end
with members (fuel : nat) (s : string) (acc : list (string * JsVal))
  : option (JsVal * string) :=
  match fuel with
  | O => None
  | S f =>
      let s := skip_ws s in
      if head_is 34 s
      then match string_body (tail s) with
           | Some (key, rest) =>
               let rest := skip_ws rest in
               if head_is 58 rest
               then match value f (tail rest) with
                    | Some (v, rest1) =>
                        let rest1 := skip_ws rest1 in
                        if head_is 44 rest1
                        then members f (tail rest1) (set_field key v acc)
                        else if head_is 125 rest1
                        then Some (JObj (set_field key v acc), tail rest1)
                        else None
                    | None => None
                    end
               else None
           | None => None
           end
      else None
  end.

Definition parse (text : string) : Exc JsVal :=
  match value (S (String.length text)) text with
  | Some (v, rest) =>
      match skip_ws rest with
      | EmptyString => Ok v
      | _ => Throw (SyntaxError "Unexpected non-whitespace character after JSON")
      end
  | None => Throw (SyntaxError "Unexpected token in JSON")
  end.

End JsonText.

(* ================================================================== *)
(** ** Two environments for closed examples                            *)
(* ================================================================== *)

(** The store is configured and answers every query without error: an
    inserted conversation gets the id [conv-1], the reads find no row. *)
Definition env_online : Env :=
  {| JSON_parse := JsonText.parse;
     isSupabaseEnabled := true;
     select_hospital_locations := SbResult (Some []) None;
     select_location_by_branch := fun _ => SbResult None None;
     select_departments := fun _ => SbResult (Some []) None;
     select_hospital_info := fun _ => SbResult (Some []) None;
     select_contact_details := fun _ => SbResult (Some []) None;
     select_doctors := fun _ => SbResult (Some []) None;
     select_doctor_availability := fun _ _ => SbResult (Some []) None;
     search_departments := fun _ => SbResult (Some []) None;
     search_hospital_info := fun _ => SbResult (Some []) None;
     insert_conversation := fun _ => SbResult (Some (JObj [("id", JStr "conv-1")])) None;
     select_started_at := fun _ => SbResult (Some 0) None;
     update_conversation := fun _ _ => SbResult (Some (JObj [])) None;
     insert_message := fun _ => SbResult (Some (JObj [])) None;
     insert_summary := fun _ => SbResult (Some (JObj [])) None;
     SYSTEM_PROMPT := JStr "You are Maya";
     FUNCTION_TOOLS := JArr [];
     VOICE_CONFIG_voice := JStr "alloy";
     VOICE_CONFIG_inputAudioFormat := JStr "g711_ulaw";
     VOICE_CONFIG_outputAudioFormat := JStr "g711_ulaw";
     VOICE_CONFIG_turnDetection := JObj [("type", JStr "server_vad")];
     VOICE_CONFIG_temperature := JNum 1;
     VOICE_CONFIG_maxResponseOutputTokens := JNum 1000;
     EXOTEL_API_KEY := JStr "key";
     EXOTEL_API_TOKEN := JStr "token";
     EXOTEL_SID := JStr "sid";
     PUBLIC_URL := JStr "https://bridge.example";
     fetch := fun _ => Response true 200 |}.

(** The same process without store credentials: [isSupabaseEnabled()]
    is false. *)
Definition env_offline : Env :=
  {| JSON_parse := JsonText.parse;
     isSupabaseEnabled := false;
     select_hospital_locations := select_hospital_locations env_online;
     select_location_by_branch := select_location_by_branch env_online;
     select_departments := select_departments env_online;
     select_hospital_info := select_hospital_info env_online;
     select_contact_details := select_contact_details env_online;
     select_doctors := select_doctors env_online;
     select_doctor_availability := select_doctor_availability env_online;
     search_departments := search_departments env_online;
     search_hospital_info := search_hospital_info env_online;
     insert_conversation := insert_conversation env_online;
     select_started_at := select_started_at env_online;
     update_conversation := update_conversation env_online;
     insert_message := insert_message env_online;
     insert_summary := insert_summary env_online;
     SYSTEM_PROMPT := SYSTEM_PROMPT env_online;
     FUNCTION_TOOLS := FUNCTION_TOOLS env_online;
     VOICE_CONFIG_voice := VOICE_CONFIG_voice env_online;
     VOICE_CONFIG_inputAudioFormat := VOICE_CONFIG_inputAudioFormat env_online;
     VOICE_CONFIG_outputAudioFormat := VOICE_CONFIG_outputAudioFormat env_online;
     VOICE_CONFIG_turnDetection := VOICE_CONFIG_turnDetection env_online;
     VOICE_CONFIG_temperature := VOICE_CONFIG_temperature env_online;
     VOICE_CONFIG_maxResponseOutputTokens := VOICE_CONFIG_maxResponseOutputTokens env_online;
     EXOTEL_API_KEY := EXOTEL_API_KEY env_online;
     EXOTEL_API_TOKEN := EXOTEL_API_TOKEN env_online;
     EXOTEL_SID := EXOTEL_SID env_online;
     PUBLIC_URL := PUBLIC_URL env_online;
     fetch := fetch env_online |}.

(** A call in progress: the telephony socket connected with call
    identifier [C1], the conversation was created and acknowledged, the
    model socket opened. *)
Definition call_in_progress (env : Env) : Process :=
  steps env [Resume 0; OpenAIOpen]
    (connect env (JStr "C1") (JStr "+911234567890")
       {| world := empty_world; pending := [] |}).

(* ================================================================== *)
(** ** Vocabulary of the statements                                    *)
(* ================================================================== *)

(** A synchronous piece, resp. every synchronous piece of a task, keeps
    a property of the state. *)
Definition StKeeps {A} (I : World -> Prop) (m : St A) : Prop :=
  forall w, I w -> I (fst (m w)).

Fixpoint Keeps {A} (I : World -> Prop) (t : Async A) : Prop :=
  match t with
  | Return _ => True
  | Atomic m k => StKeeps I m /\ forall b, Keeps I (k b)
  | Await rest => Keeps I rest
  end.

(** Properties that do not look at a part of the state. *)
Definition ignores_log (I : World -> Prop) : Prop :=
  forall w l, I w -> I (with_log l w).

Definition ignores_dbWrites (I : World -> Prop) : Prop :=
  forall w l, I w -> I (with_dbWrites l w).

Definition ignores_httpRequests (I : World -> Prop) : Prop :=
  forall w l, I w -> I (with_httpRequests l w).

Definition ignores_endCalls (I : World -> Prop) : Prop :=
  forall w l, I w -> I (with_endCalls l w).

Definition ignores_heap (I : World -> Prop) : Prop :=
  forall w l, I w -> I (with_heap l w).

Definition ignores_uuids (I : World -> Prop) : Prop :=
  forall w l, I w -> I (with_uuids l w).

Definition ignores_activeConversations (I : World -> Prop) : Prop :=
  forall w l, I w -> I (with_activeConversations l w).

(** Writes other than the one that persists a terminal state. *)
Definition ignores_other_writes (I : World -> Prop) : Prop :=
  forall w wr, I w ->
    match wr with UpdateConversationEnded _ _ _ => True | _ => I (with_dbWrites (dbWrites w ++ [wr]) w) end.

(** A result object carries a non-empty [message] string. *)
Definition has_message (result : JsVal) : Prop :=
  exists s, get result "message" = Ok (JStr s) /\ s <> "".

(** A registry as [Map] keeps it: the keys are primitive values, no two
    of them equal. *)
Fixpoint registry_ok (m : list (JsVal * nat)) : Prop :=
  match m with
  | [] => True
  | (k, _) :: rest =>
      strict_eq k k = true
      /\ Forall (fun kv => strict_eq (fst kv) k = false) rest
      /\ registry_ok rest
  end.


(** Model-socket messages handled one after the other. *)
Definition handle_model_messages (env : Env) (messages : list JsVal) (w : World) : World :=
  fold_left (fun w1 m => fst (run (realtimeHandler.handleOpenAIMessage env m) w1)) messages w.

(** A property that looks at the session handler only. *)
Definition only_this (I : World -> Prop) : Prop :=
  forall w w1, this w1 = this w -> I w -> I w1.

(** The state and the result a task ends with, when nothing runs in
    between, satisfy [Q]. *)
Definition wp {A} (t : Async A) (Q : World -> A -> Prop) (w : World) : Prop :=
  Q (fst (run t w)) (snd (run t w)).

(** The write by which [db.endConversation] persists the terminal state
    at time [t], if it gets that far: the store must be configured and
    must answer the read of the start time. *)
Definition terminal_write (env : Env) (conversationId status : JsVal) (t : Z)
  : list DbWrite :=
  if isSupabaseEnabled env
  then match select_started_at env conversationId with
       | SbReject _ => []
       | SbResult data _ =>
           [UpdateConversationEnded conversationId status
              match data with Some s => (t - s) / 1000 | None => 0 end]
       end
  else [].

(** Two states that differ in the log and in the requests sent to the
    store at most. *)
Definition same_session (w w1 : World) : Prop :=
  this w1 = this w /\ heap w1 = heap w
  /\ activeConversations w1 = activeConversations w
  /\ endCalls w1 = endCalls w /\ now w1 = now w.

(** The model socket of the handler after [n] more calls of [close()]. *)
Definition closed_times (n : nat) (h : Handler.t) : Handler.t :=
  Handler.with_openaiWs
    (option_map (fun ws => Nat.iter n WebSocket.close ws) (Handler.openaiWs h)) h.

(** A function-call event of the model. *)
Definition function_call_event (name : string) (arguments : JsVal) : JsVal :=
  JObj [("type", JStr "response.function_call_arguments.done");
        ("call_id", JStr "call_1");
        ("name", JStr name);
        ("arguments", arguments)].

(** Events of the two sockets, as [JSON.parse] delivers them. *)
Definition media_event (payload : JsVal) : JsVal :=
  JObj [("event", JStr "media"); ("media", JObj [("payload", payload)])].

Definition start_event (streamSid : JsVal) (customParameters : JsVal) : JsVal :=
  JObj [("event", JStr "start");
        ("start", JObj [("streamSid", streamSid);
                        ("customParameters", customParameters)])].

Definition audio_delta_event (delta : JsVal) : JsVal :=
  JObj [("type", JStr "response.audio.delta"); ("delta", delta)].

(** Telephony-socket messages handled one after the other. *)
Definition handle_telephony_messages (env : Env) (messages : list JsVal) (w : World)
  : World :=
  fold_left (fun w1 m => fst (run (realtimeHandler.handleExotelMessage env m) w1))
            messages w.



(** Two calls in the registry: [C1] started 31 minutes ago, [C2] started
    10 minutes ago. *)
Definition two_calls (env : Env) : Process :=
  let create callSid :=
    abind (conversationManager.createConversation env (JStr callSid) JUndef JUndef JUndef)
          (fun _ => Return tt) in
  steps env [Tick (10 * 60 * 1000)]
    (spawn_and_finish (create "C2")
       (steps env [Tick (21 * 60 * 1000)]
          (spawn_and_finish (create "C1") {| world := empty_world; pending := [] |}))).

(** What a synchronous piece returns, resp. returns when it does not
    throw, satisfies [Q] in every state. *)
Definition StReturns {A} (m : St A) (Q : A -> Prop) : Prop :=
  forall w, Q (snd (m w)).

Definition MReturns {A} (m : M A) (Q : A -> Prop) : Prop :=
  forall w, match snd (m w) with Ok a => Q a | Throw _ => True end.

(** A result the model can speak: a non-empty message and a boolean
    success flag. *)
Definition answers (result : JsVal) : Prop :=
  has_message result /\ exists b, get result "success" = Ok (JBool b).

(** The names of the dispatch table. *)
Definition declared_names : list string := map fst functionHandlers.handlers.

(** The second state is the first but for the log. *)
Definition differs_in_log_only (w w1 : World) : Prop := w1 = with_log (log w1) w.

(** A query that brings no data: the promise is rejected, or the answer
    carries an error and no data. *)
Definition no_data {A} (ans : SbAnswer A) : Prop :=
  match ans with
  | SbReject _ => True
  | SbResult None (Some _) => True
  | SbResult _ _ => False
  end.

(** The store is not configured, or none of its reads brings data. *)
Definition store_unavailable (env : Env) : Prop :=
  isSupabaseEnabled env = false
  \/ (no_data (select_hospital_locations env)
      /\ (forall x, no_data (select_location_by_branch env x))
      /\ (forall x, no_data (select_departments env x))
      /\ (forall x, no_data (select_hospital_info env x))
      /\ (forall x, no_data (select_contact_details env x))
      /\ (forall x, no_data (select_doctors env x))
      /\ (forall x y, no_data (select_doctor_availability env x y))
      /\ (forall x, no_data (search_departments env x))
      /\ (forall x, no_data (search_hospital_info env x))).

(** A result that reports failure. *)
Definition reports_failure (result : JsVal) : Prop :=
  get result "success" = Ok (JBool false).

(** The record a call to [new Conversation] builds at time [t]. *)
Definition fresh_record (callSid sessionId phoneNumber conversationType : JsVal) (t : Z)
  : Conversation.t :=
  {| Conversation.id := JNull;
     Conversation.callSid := callSid;
     Conversation.sessionId := sessionId;
     Conversation.phoneNumber := phoneNumber;
     Conversation.conversationType :=
       (if strict_eq conversationType JUndef then JStr "phone" else conversationType);
     Conversation.languageDetected := JStr "en";
     Conversation.messages := [];
     Conversation.startTime := t;
     Conversation.functionCalls := [];
     Conversation.transfers := [];
     Conversation.emergencies := [] |}.

(** The record started at most 30 minutes before the time of the state. *)
Definition recent (w : World) (entry : JsVal * nat) : Prop :=
  now w - 30 * 60 * 1000
  <= Conversation.startTime (nth (snd entry) (heap w) conversationManager.dangling).

(** The row [db.addConversationMessage] inserts. *)
Definition message_row (conversationId role content language : JsVal) (t : Z) : JsVal :=
  JObj [("conversation_id", conversationId); ("role", role);
        ("content", content); ("language", language);
        ("original_text", JUndef); ("confidence", JUndef);
        ("metadata", JObj []); ("timestamp", JNum t)].

(** The message [Conversation.addMessage] appends at time [t]. *)
Definition logged_message (role content : JsVal) (t : Z) : Conversation.Message :=
  {| Conversation.role := role; Conversation.content := content;
     Conversation.timestamp := t; Conversation.metadata := JObj [] |}.

(** The heap after [message] was appended to the record [self]. *)
Definition heap_with_message (self : nat) (message : Conversation.Message)
  (h : list Conversation.t) : list Conversation.t :=
  conversationManager.replace_nth self
    (fun c => Conversation.with_messages (Conversation.messages c ++ [message]) c) h.

(** Transcript events of the model. *)
Definition user_transcript_event (transcript : JsVal) : JsVal :=
  JObj [("type", JStr "conversation.item.created");
        ("item", JObj [("type", JStr "message");
                       ("role", JStr "user");
                       ("content", JArr [JObj [("type", JStr "input_audio");
                                               ("transcript", transcript)]])])].

Definition assistant_transcript_event (transcript : JsVal) : JsVal :=
  JObj [("type", JStr "response.audio_transcript.done"); ("transcript", transcript)].

(* ================================================================== *)
(** * Properties                                                       *)
(* ================================================================== *)

(** ** The event loop *)

Lemma run_abind {A B} (t : Async A) (f : A -> Async B) (w : World) :
  run (abind t f) w = let '(w1, a) := run t w in run (f a) w1.
Proof.
  revert w. induction t as [a | C m k IH | rest IH]; intros w; simpl.
  - reflexivity.
  - destruct (m w) as [w1 b]. apply IH.
  - apply IH.
Qed.

Lemma keeps_abind {A B} (I : World -> Prop) (t : Async A) (f : A -> Async B) :
  Keeps I t -> (forall a, Keeps I (f a)) -> Keeps I (abind t f).
Proof.
  induction t as [a | C m k IH | rest IH]; simpl; intros Ht Hf.
  - apply Hf.
  - destruct Ht as [Hm Hk]. split; [exact Hm | intros b; apply IH; auto].
  - apply IH; assumption.
Qed.

Lemma keeps_run {A} (I : World -> Prop) (t : Async A) (w : World) :
  Keeps I t -> I w -> I (fst (run t w)).
Proof.
  revert w. induction t as [a | C m k IH | rest IH]; simpl; intros w Ht Hw.
  - exact Hw.
  - destruct Ht as [Hm Hk]. specialize (Hm w Hw).
    destruct (m w) as [w1 b]. apply IH; [apply Hk | exact Hm].
  - apply IH; assumption.
Qed.

Lemma keeps_advance {A} (I : World -> Prop) (t : Async A) (w : World) :
  Keeps I t -> I w ->
  I (fst (advance t w))
  /\ match snd (advance t w) with
     | inl _ => True
     | inr rest => Keeps I rest
     end.
Proof.
  revert w. induction t as [a | C m k IH | rest IH]; simpl; intros w Ht Hw.
  - split; [exact Hw | exact Logic.I].
  - destruct Ht as [Hm Hk]. specialize (Hm w Hw).
    destruct (m w) as [w1 b]. apply IH; [apply Hk | exact Hm].
  - split; assumption.
Qed.

Lemma keeps_abind_exc {A B} (I : World -> Prop) (t : Async (Exc A))
  (f : A -> Async (Exc B)) :
  Keeps I t -> (forall a, Keeps I (f a)) -> Keeps I (abind_exc t f).
Proof.
  intros Ht Hf. apply keeps_abind; [exact Ht |].
  intros [a | e]; [apply Hf | exact Logic.I].
Qed.

Lemma keeps_atry {A} (I : World -> Prop) (t : Async (Exc A))
  (h : JsError -> Async A) :
  Keeps I t -> (forall e, Keeps I (h e)) -> Keeps I (atry t h).
Proof.
  intros Ht Hh. apply keeps_abind; [exact Ht |].
  intros [a | e]; [exact Logic.I | apply Hh].
Qed.

Lemma keeps_total {A} (I : World -> Prop) (t : Async A) :
  Keeps I t -> Keeps I (total t).
Proof. intros Ht. apply keeps_abind; [exact Ht | intros a; exact Logic.I]. Qed.

Lemma keeps_atomic {A} (I : World -> Prop) (m : M A) :
  StKeeps I m -> Keeps I (atomic m).
Proof. intros Hm. split; [exact Hm | intros b; exact Logic.I]. Qed.

Lemma keeps_atomic_st {A} (I : World -> Prop) (m : St A) :
  StKeeps I m -> Keeps I (atomic_st m).
Proof. intros Hm. split; [exact Hm | intros b; exact Logic.I]. Qed.

(** ** Synchronous pieces *)

Lemma stkeeps_st_ret {A} (I : World -> Prop) (a : A) : StKeeps I (st_ret a).
Proof. intros w Hw. exact Hw. Qed.

Lemma stkeeps_ret {A} (I : World -> Prop) (a : A) : StKeeps I (ret a).
Proof. intros w Hw. exact Hw. Qed.

Lemma stkeeps_throw {A} (I : World -> Prop) (e : JsError) : StKeeps I (@throw A e).
Proof. intros w Hw. exact Hw. Qed.

Lemma stkeeps_lift {A} (I : World -> Prop) (x : Exc A) : StKeeps I (lift x).
Proof. intros w Hw. exact Hw. Qed.

Lemma stkeeps_st_bind {A B} (I : World -> Prop) (m : St A) (k : A -> St B) :
  StKeeps I m -> (forall a, StKeeps I (k a)) -> StKeeps I (st_bind m k).
Proof.
  intros Hm Hk w Hw. unfold st_bind. specialize (Hm w Hw).
  destruct (m w) as [w1 a]. apply Hk. exact Hm.
Qed.

Lemma stkeeps_bind {A B} (I : World -> Prop) (m : M A) (k : A -> M B) :
  StKeeps I m -> (forall a, StKeeps I (k a)) -> StKeeps I (bind m k).
Proof.
  intros Hm Hk w Hw. unfold bind. specialize (Hm w Hw).
  destruct (m w) as [w1 [a | e]]; [apply Hk |]; exact Hm.
Qed.

Lemma stkeeps_lift_st {A} (I : World -> Prop) (m : St A) :
  StKeeps I m -> StKeeps I (lift_st m).
Proof.
  intros Hm w Hw. unfold lift_st. specialize (Hm w Hw).
  destruct (m w) as [w1 a]. exact Hm.
Qed.

Lemma stkeeps_try_catch {A} (I : World -> Prop) (body : M A) (h : JsError -> St A) :
  StKeeps I body -> (forall e, StKeeps I (h e)) -> StKeeps I (try_catch body h).
Proof.
  intros Hb Hh w Hw. unfold try_catch. specialize (Hb w Hw).
  destruct (body w) as [w1 [a | e]]; [exact Hb | apply Hh; exact Hb].
Qed.

Lemma stkeeps_logger (I : World -> Prop) (lvl : Level) (txt : string) :
  ignores_log I -> StKeeps I (logger lvl txt).
Proof. intros HI w Hw. apply HI. exact Hw. Qed.

Lemma stkeeps_Date_now (I : World -> Prop) : StKeeps I Date_now.
Proof. intros w Hw. exact Hw. Qed.

Lemma stkeeps_deref (I : World -> Prop) (r : nat) :
  StKeeps I (conversationManager.deref r).
Proof. intros w Hw. exact Hw. Qed.

Lemma stkeeps_get_this (I : World -> Prop) : StKeeps I realtimeHandler.get_this.
Proof. intros w Hw. exact Hw. Qed.

Lemma stkeeps_query {A} (I : World -> Prop) (ans : SbAnswer A) : StKeeps I (db.query ans).
Proof. intros w Hw. destruct ans as [d [e |] | e]; exact Hw. Qed.

Lemma stkeeps_then_data (I : World -> Prop) (ans : SbAnswer (list JsVal)) :
  StKeeps I (db.then_data ans).
Proof. intros w Hw. destruct ans as [d e | e]; exact Hw. Qed.

Create HintDb frames.

#[export] Hint Resolve stkeeps_st_ret stkeeps_ret stkeeps_throw stkeeps_lift
  stkeeps_Date_now stkeeps_deref stkeeps_get_this stkeeps_query stkeeps_then_data
  stkeeps_logger : frames.

Lemma stkeeps_logger_info (I : World -> Prop) (txt : string) :
  ignores_log I -> StKeeps I (logger_info txt).
Proof. intros HI w Hw. apply HI. exact Hw. Qed.

Lemma stkeeps_logger_warn (I : World -> Prop) (txt : string) :
  ignores_log I -> StKeeps I (logger_warn txt).
Proof. intros HI w Hw. apply HI. exact Hw. Qed.

Lemma stkeeps_logger_error (I : World -> Prop) (txt : string) :
  ignores_log I -> StKeeps I (logger_error txt).
Proof. intros HI w Hw. apply HI. exact Hw. Qed.

Lemma stkeeps_record_write (I : World -> Prop) (wr : DbWrite) :
  ignores_dbWrites I -> StKeeps I (db.record_write wr).
Proof. intros HI w Hw. apply HI. exact Hw. Qed.

#[export] Hint Resolve stkeeps_logger_info stkeeps_logger_warn stkeeps_logger_error
  stkeeps_record_write : frames.

(** One step of the decomposition of a task, or of a synchronous piece,
    along its binds and branches. *)
Ltac frame_step :=
  lazymatch goal with
  | |- forall _, _ => intro; cbv beta
  | |- True => exact Logic.I
  | |- _ /\ _ => split
  | |- Keeps _ (abind_exc _ _) => apply keeps_abind_exc
  | |- Keeps _ (atry _ _) => apply keeps_atry
  | |- Keeps _ (total _) => apply keeps_total
  | |- Keeps _ (atomic _) => apply keeps_atomic
  | |- Keeps _ (atomic_st _) => apply keeps_atomic_st
  | |- Keeps _ (abind _ _) => apply keeps_abind
  | |- Keeps ?I (Await ?r) => change (Keeps I r)
  | |- Keeps ?I (Atomic ?m ?k) => change (StKeeps I m /\ forall b, Keeps I (k b))
  | |- Keeps _ (Return _) => exact Logic.I
  | |- Keeps _ (if ?c then _ else _) => destruct c
  | |- Keeps _ (match ?x with _ => _ end) => destruct x
  | |- Keeps _ _ => solve [auto with frames]
  | |- StKeeps _ (bind _ _) => apply stkeeps_bind
  | |- StKeeps _ (st_bind _ _) => apply stkeeps_st_bind
  | |- StKeeps _ (lift_st _) => apply stkeeps_lift_st
  | |- StKeeps _ (try_catch _ _) => apply stkeeps_try_catch
  | |- StKeeps _ (if ?c then _ else _) => destruct c
  | |- StKeeps _ (match ?x with _ => _ end) => destruct x
  | |- StKeeps _ _ => solve [auto with frames]
  end.

Ltac frame := repeat frame_step.

(** ** Footprints: what each function may change *)

Lemma only_this_ignores_log I : only_this I -> ignores_log I.
Proof. intros H w l. apply H. reflexivity. Qed.

Lemma only_this_ignores_dbWrites I : only_this I -> ignores_dbWrites I.
Proof. intros H w l. apply H. reflexivity. Qed.

Lemma only_this_ignores_httpRequests I : only_this I -> ignores_httpRequests I.
Proof. intros H w l. apply H. reflexivity. Qed.

Lemma only_this_ignores_endCalls I : only_this I -> ignores_endCalls I.
Proof. intros H w l. apply H. reflexivity. Qed.

Lemma only_this_ignores_heap I : only_this I -> ignores_heap I.
Proof. intros H w l. apply H. reflexivity. Qed.

Lemma only_this_ignores_uuids I : only_this I -> ignores_uuids I.
Proof. intros H w l. apply H. reflexivity. Qed.

Lemma only_this_ignores_activeConversations I :
  only_this I -> ignores_activeConversations I.
Proof. intros H w l. apply H. reflexivity. Qed.

Lemma ignores_dbWrites_other I : ignores_dbWrites I -> ignores_other_writes I.
Proof. intros H w wr Hw. destruct wr; auto. Qed.

#[export] Hint Resolve only_this_ignores_log only_this_ignores_dbWrites
  only_this_ignores_httpRequests only_this_ignores_endCalls only_this_ignores_heap
  only_this_ignores_uuids only_this_ignores_activeConversations
  ignores_dbWrites_other : frames.

Lemma stkeeps_write_conversation I row :
  ignores_other_writes I -> StKeeps I (db.record_write (InsertConversation row)).
Proof. intros H w Hw. exact (H w (InsertConversation row) Hw). Qed.

Lemma stkeeps_write_message I row :
  ignores_other_writes I -> StKeeps I (db.record_write (InsertMessage row)).
Proof. intros H w Hw. exact (H w (InsertMessage row) Hw). Qed.

Lemma stkeeps_write_summary I row :
  ignores_other_writes I -> StKeeps I (db.record_write (InsertSummary row)).
Proof. intros H w Hw. exact (H w (InsertSummary row) Hw). Qed.

#[export] Hint Resolve stkeeps_write_conversation stkeeps_write_message
  stkeeps_write_summary : frames.

Section StoreFootprints.

Variable I : World -> Prop.
Variable env : Env.
Hypothesis I_log : ignores_log I.

Lemma stkeeps_getHospitalLocations : StKeeps I (db.getHospitalLocations env).
Proof. unfold db.getHospitalLocations. frame. Qed.

Lemma stkeeps_getHospitalLocationByBranch b :
  StKeeps I (db.getHospitalLocationByBranch env b).
Proof. unfold db.getHospitalLocationByBranch. frame. Qed.

Lemma stkeeps_getDepartments x : StKeeps I (db.getDepartments env x).
Proof. unfold db.getDepartments. frame. Qed.

Lemma stkeeps_getHospitalInfo x : StKeeps I (db.getHospitalInfo env x).
Proof. unfold db.getHospitalInfo. frame. Qed.

Lemma stkeeps_getContactDetails x : StKeeps I (db.getContactDetails env x).
Proof. unfold db.getContactDetails. frame. Qed.

Lemma stkeeps_getDoctors a b c d e : StKeeps I (db.getDoctors env a b c d e).
Proof. unfold db.getDoctors. frame. Qed.

Lemma stkeeps_getDoctorAvailability a b : StKeeps I (db.getDoctorAvailability env a b).
Proof. unfold db.getDoctorAvailability. frame. Qed.

Lemma stkeeps_searchHospitalData x : StKeeps I (db.searchHospitalData env x).
Proof.
  unfold db.searchHospitalData. pose proof stkeeps_getDoctors. frame.
Qed.

Hypothesis I_other : ignores_other_writes I.

Lemma keeps_db_createConversation a b c d e :
  Keeps I (db.createConversation env a b c d e).
Proof. unfold db.createConversation. frame. Qed.

Lemma keeps_db_addConversationMessage a b c d e :
  Keeps I (db.addConversationMessage env a b c d e).
Proof. unfold db.addConversationMessage. frame. Qed.

Lemma keeps_db_createConversationSummary a b c d e :
  Keeps I (db.createConversationSummary env a b c d e).
Proof. unfold db.createConversationSummary. frame. Qed.

End StoreFootprints.

#[export] Hint Resolve stkeeps_getHospitalLocations stkeeps_getHospitalLocationByBranch
  stkeeps_getDepartments stkeeps_getHospitalInfo stkeeps_getContactDetails
  stkeeps_getDoctors stkeeps_getDoctorAvailability stkeeps_searchHospitalData
  keeps_db_createConversation keeps_db_addConversationMessage
  keeps_db_createConversationSummary : frames.

Lemma keeps_db_endConversation I env id st :
  ignores_log I -> ignores_dbWrites I -> Keeps I (db.endConversation env id st).
Proof. intros Hl Hd. unfold db.endConversation. frame. Qed.

#[export] Hint Resolve keeps_db_endConversation : frames.

Section HandlerFootprints.

Variable I : World -> Prop.
Variable env : Env.
Hypothesis I_log : ignores_log I.

Lemma stkeeps_searchDoctors args : StKeeps I (functionHandlers.searchDoctors env args).
Proof.
  unfold functionHandlers.searchDoctors, functionHandlers.searchDoctors_try,
    functionHandlers.searchDoctors_catch. frame.
Qed.

Lemma stkeeps_getDepartmentsList args :
  StKeeps I (functionHandlers.getDepartmentsList env args).
Proof.
  unfold functionHandlers.getDepartmentsList, functionHandlers.getDepartmentsList_try,
    functionHandlers.getDepartmentsList_catch. frame.
Qed.

Lemma stkeeps_getHospitalLocationsList args :
  StKeeps I (functionHandlers.getHospitalLocationsList env args).
Proof.
  unfold functionHandlers.getHospitalLocationsList,
    functionHandlers.getHospitalLocationsList_try,
    functionHandlers.getHospitalLocationsList_catch. frame.
Qed.

Lemma stkeeps_getContactInfo args : StKeeps I (functionHandlers.getContactInfo env args).
Proof.
  unfold functionHandlers.getContactInfo, functionHandlers.getContactInfo_try,
    functionHandlers.getContactInfo_catch. frame.
Qed.

Lemma stkeeps_checkDoctorAvailability args :
  StKeeps I (functionHandlers.checkDoctorAvailability env args).
Proof.
  unfold functionHandlers.checkDoctorAvailability,
    functionHandlers.checkDoctorAvailability_try,
    functionHandlers.checkDoctorAvailability_catch. frame.
Qed.

Lemma stkeeps_emergencyProtocol args :
  StKeeps I (functionHandlers.emergencyProtocol env args).
Proof.
  unfold functionHandlers.emergencyProtocol, functionHandlers.emergencyProtocol_try,
    functionHandlers.emergencyProtocol_catch. frame.
Qed.

Lemma stkeeps_transferToOperator args :
  StKeeps I (functionHandlers.transferToOperator env args).
Proof.
  unfold functionHandlers.transferToOperator, functionHandlers.transferToOperator_try,
    functionHandlers.transferToOperator_catch. frame.
Qed.

Lemma stkeeps_searchHospitalInformation args :
  StKeeps I (functionHandlers.searchHospitalInformation env args).
Proof.
  unfold functionHandlers.searchHospitalInformation,
    functionHandlers.searchHospitalInformation_try,
    functionHandlers.searchHospitalInformation_catch. frame.
Qed.

Lemma own_handlers_keep key h args :
  In (key, h) functionHandlers.handlers -> StKeeps I (h env args).
Proof.
  unfold functionHandlers.handlers. simpl.
  intros [E | [E | [E | [E | [E | [E | [E | [E | []]]]]]]]]; inversion E; subst.
  - apply stkeeps_searchDoctors.
  - apply stkeeps_getDepartmentsList.
  - apply stkeeps_getHospitalLocationsList.
  - apply stkeeps_getContactInfo.
  - apply stkeeps_checkDoctorAvailability.
  - apply stkeeps_emergencyProtocol.
  - apply stkeeps_transferToOperator.
  - apply stkeeps_searchHospitalInformation.
Qed.

Lemma stkeeps_router name args :
  StKeeps I (functionHandlers.handleFunctionCall env name args).
Proof.
  unfold functionHandlers.handleFunctionCall, functionHandlers.handlers_get.
  apply stkeeps_st_bind; [auto with frames | intros _].
  destruct (find _ functionHandlers.handlers) as [[k h] |] eqn:F.
  - apply find_some in F. destruct F as [F _]. simpl snd.
    pose proof (own_handlers_keep k h args F). frame.
  - destruct (object_prototype (to_str name)); frame.
Qed.

Lemma stkeeps_getDepartmentContactNumber d :
  StKeeps I (realtimeHandler.getDepartmentContactNumber env d).
Proof. unfold realtimeHandler.getDepartmentContactNumber. frame. Qed.

End HandlerFootprints.

#[export] Hint Resolve stkeeps_router stkeeps_getDepartmentContactNumber : frames.

Lemma stkeeps_update I r f :
  ignores_heap I -> StKeeps I (conversationManager.update r f).
Proof. intros H w Hw. apply H. exact Hw. Qed.

Lemma stkeeps_alloc I c : ignores_heap I -> StKeeps I (conversationManager.alloc c).
Proof. intros H w Hw. apply H. exact Hw. Qed.

Lemma stkeeps_uuidv4 I : ignores_uuids I -> StKeeps I conversationManager.uuidv4.
Proof. intros H w Hw. apply H. exact Hw. Qed.

Lemma stkeeps_record_end I c st :
  ignores_endCalls I -> StKeeps I (conversationManager.record_end c st).
Proof. intros H w Hw. apply H. exact Hw. Qed.

Lemma stkeeps_getConversation I key :
  StKeeps I (conversationManager.getConversation key).
Proof. intros w Hw. exact Hw. Qed.

Lemma stkeeps_record_request I r :
  ignores_httpRequests I -> StKeeps I (realtimeHandler.record_request r).
Proof. intros H w Hw. apply H. exact Hw. Qed.

#[export] Hint Resolve stkeeps_update stkeeps_alloc stkeeps_uuidv4 stkeeps_record_end
  stkeeps_getConversation stkeeps_record_request : frames.

Section ManagerFootprints.

Variable I : World -> Prop.
Variable env : Env.
Hypothesis I_log : ignores_log I.

Lemma stkeeps_logFunctionCall c n a r :
  ignores_heap I -> StKeeps I (conversationManager.logFunctionCall c n a r).
Proof. intros Hh. unfold conversationManager.logFunctionCall. frame. Qed.

Lemma stkeeps_logTransfer c a b d :
  ignores_heap I -> StKeeps I (conversationManager.logTransfer c a b d).
Proof. intros Hh. unfold conversationManager.logTransfer. frame. Qed.

Lemma stkeeps_logEmergency c a b :
  ignores_heap I -> StKeeps I (conversationManager.logEmergency c a b).
Proof. intros Hh. unfold conversationManager.logEmergency. frame. Qed.

Hypothesis I_other : ignores_other_writes I.

Lemma keeps_generateSummary c : Keeps I (conversationManager.generateSummary env c).
Proof. unfold conversationManager.generateSummary. frame. Qed.

Lemma keeps_addMessage c role content :
  ignores_heap I -> Keeps I (conversationManager.addMessage env c role content).
Proof. intros Hh. unfold conversationManager.addMessage. frame. Qed.

Lemma keeps_conversation_initialize c :
  ignores_heap I -> Keeps I (conversationManager.initialize env c).
Proof. intros Hh. unfold conversationManager.initialize. frame. Qed.

Lemma keeps_createConversation a b c d :
  ignores_heap I -> ignores_uuids I -> ignores_activeConversations I ->
  Keeps I (conversationManager.createConversation env a b c d).
Proof.
  intros Hh Hu Ha. pose proof keeps_conversation_initialize.
  unfold conversationManager.createConversation, conversationManager.new_Conversation.
  frame. intros w Hw. apply Ha. exact Hw.
Qed.

End ManagerFootprints.

#[export] Hint Resolve stkeeps_logFunctionCall stkeeps_logTransfer stkeeps_logEmergency
  keeps_generateSummary keeps_addMessage keeps_conversation_initialize
  keeps_createConversation : frames.

(** The body of [Conversation.end] writes to the log and to the store
    only. *)
Lemma keeps_end_body I env c st :
  ignores_log I -> ignores_dbWrites I ->
  Keeps I (conversationManager.end_body env c st).
Proof.
  intros Hl Hd.
  pose proof (keeps_generateSummary I env Hl (ignores_dbWrites_other I Hd)).
  unfold conversationManager.end_body. frame.
Qed.

Lemma keeps_end I env c st :
  ignores_log I -> ignores_dbWrites I -> ignores_endCalls I ->
  Keeps I (conversationManager.end_ env c st).
Proof.
  intros Hl Hd He. unfold conversationManager.end_.
  split; [auto with frames | intros b; apply keeps_end_body; assumption].
Qed.

#[export] Hint Resolve keeps_end : frames.

Lemma keeps_endConversation I env key st :
  ignores_log I -> ignores_dbWrites I -> ignores_endCalls I ->
  ignores_activeConversations I ->
  Keeps I (conversationManager.endConversation env key st).
Proof.
  intros Hl Hd He Ha. unfold conversationManager.endConversation. frame.
  intros w Hw. apply Ha. exact Hw.
Qed.

#[export] Hint Resolve keeps_endConversation : frames.

(** ** Running a task to its end *)

Lemma run_bind {A B} (t : Async A) (f : A -> Async B) (w : World) :
  run (abind t f) w = run (f (snd (run t w))) (fst (run t w)).
Proof. rewrite run_abind. destruct (run t w). reflexivity. Qed.

Lemma wp_abind {A B} (t : Async A) (f : A -> Async B) Q w :
  wp t (fun w1 a => wp (f a) Q w1) w -> wp (abind t f) Q w.
Proof. unfold wp. rewrite run_bind. trivial. Qed.

Lemma wp_abind_exc {A B} (t : Async (Exc A)) (f : A -> Async (Exc B)) Q w :
  wp t (fun w1 r => match r with
                    | Ok a => wp (f a) Q w1
                    | Throw e => Q w1 (Throw e)
                    end) w ->
  wp (abind_exc t f) Q w.
Proof.
  unfold wp, abind_exc. rewrite run_bind. destruct (snd (run t w)); trivial.
Qed.

Lemma wp_atry {A} (t : Async (Exc A)) (h : JsError -> Async A) Q w :
  wp t (fun w1 r => match r with
                    | Ok a => Q w1 a
                    | Throw e => wp (h e) Q w1
                    end) w ->
  wp (atry t h) Q w.
Proof.
  unfold wp, atry. rewrite run_bind. destruct (snd (run t w)); trivial.
Qed.

Lemma wp_total {A} (t : Async A) (Q : World -> Exc A -> Prop) w :
  wp t (fun w1 a => Q w1 (Ok a)) w -> wp (total t) Q w.
Proof. unfold wp, total. rewrite run_bind. trivial. Qed.

Lemma wp_Atomic {A B} (m : St B) (k : B -> Async A) Q w :
  wp (k (snd (m w))) Q (fst (m w)) -> wp (Atomic m k) Q w.
Proof. unfold wp. simpl. destruct (m w). trivial. Qed.

Lemma wp_atomic {A} (m : M A) (Q : World -> Exc A -> Prop) w :
  Q (fst (m w)) (snd (m w)) -> wp (atomic m) Q w.
Proof. unfold wp. simpl. destruct (m w). trivial. Qed.

Lemma wp_atomic_st {A} (m : St A) (Q : World -> Exc A -> Prop) w :
  Q (fst (m w)) (Ok (snd (m w))) -> wp (atomic_st m) Q w.
Proof. unfold wp. simpl. destruct (m w). trivial. Qed.

Lemma wp_Await {A} (t : Async A) Q w : wp t Q w -> wp (Await t) Q w.
Proof. trivial. Qed.

Lemma wp_Return {A} (a : A) (Q : World -> A -> Prop) w : Q w a -> wp (Return a) Q w.
Proof. trivial. Qed.

Lemma wp_conseq {A} (t : Async A) (Q Q1 : World -> A -> Prop) w :
  wp t Q w -> (forall w1 a, Q w1 a -> Q1 w1 a) -> wp t Q1 w.
Proof. unfold wp. auto. Qed.

Lemma wp_keeps {A} (I : World -> Prop) (t : Async A) w :
  Keeps I t -> I w -> wp t (fun w1 _ => I w1) w.
Proof. intros Ht Hw. unfold wp. apply keeps_run; assumption. Qed.

Lemma wp_and {A} (t : Async A) (Q Q1 : World -> A -> Prop) w :
  wp t Q w -> wp t Q1 w -> wp t (fun w1 a => Q w1 a /\ Q1 w1 a) w.
Proof. unfold wp. auto. Qed.

(** One step through a task along its structure. *)
Ltac wp_step :=
  lazymatch goal with
  | |- wp (atry _ _) _ _ => apply wp_atry
  | |- wp (abind_exc _ _) _ _ => apply wp_abind_exc
  | |- wp (total _) _ _ => apply wp_total
  | |- wp (abind _ _) _ _ => apply wp_abind
  | |- wp (atomic _) _ _ => apply wp_atomic
  | |- wp (atomic_st _) _ _ => apply wp_atomic_st
  | |- wp (Atomic _ _) _ _ => apply wp_Atomic
  | |- wp (Await _) _ _ => apply wp_Await
  | |- wp (Return _) _ _ => apply wp_Return
  end;
  cbn [fst snd Date_now conversationManager.deref realtimeHandler.get_this
       conversationManager.getConversation logger logger_info logger_warn
       logger_error lift_st lift ret throw bind st_bind st_ret].

Ltac wp_steps := repeat wp_step.

(** ** Ending a conversation *)

Lemma same_session_refl w : same_session w w.
Proof. repeat split. Qed.

Lemma same_session_trans w w1 w2 :
  same_session w w1 -> same_session w1 w2 -> same_session w w2.
Proof.
  unfold same_session. intros (A1 & A2 & A3 & A4 & A5) (B1 & B2 & B3 & B4 & B5).
  repeat split; congruence.
Qed.

Lemma same_session_log w w1 l : same_session w w1 -> same_session w (with_log l w1).
Proof. trivial. Qed.

Lemma same_session_ignores_log w : ignores_log (same_session w).
Proof. intros x l H. exact H. Qed.

Lemma same_session_ignores_dbWrites w : ignores_dbWrites (same_session w).
Proof. intros x l H. exact H. Qed.

Lemma ended_writes_log w l : ended_writes (with_log l w) = ended_writes w.
Proof. reflexivity. Qed.

Lemma ended_writes_ignores_log x : ignores_log (fun w => ended_writes w = x).
Proof. intros w l H. exact H. Qed.

Lemma ended_writes_ignores_other x : ignores_other_writes (fun w => ended_writes w = x).
Proof.
  intros w wr H. destruct wr; try exact Logic.I;
    unfold ended_writes in *; simpl; rewrite filter_app; simpl;
    rewrite app_nil_r; exact H.
Qed.

Lemma db_endConversation_spec env id st w :
  wp (db.endConversation env id st)
     (fun w1 _ =>
        ended_writes w1 = (ended_writes w ++ terminal_write env id st (now w))%list
        /\ same_session w w1) w.
Proof.
  apply wp_and.
  - unfold wp, db.endConversation, terminal_write.
    destruct (isSupabaseEnabled env); simpl.
    2: { rewrite app_nil_r. reflexivity. }
    destruct (select_started_at env id) as [data err | e]; simpl.
    2: { rewrite app_nil_r. reflexivity. }
    destruct (update_conversation env id st) as [d [e |] | e]; simpl;
      unfold ended_writes; simpl; rewrite filter_app; reflexivity.
  - apply wp_keeps; [| apply same_session_refl].
    apply keeps_db_endConversation;
      [apply same_session_ignores_log | apply same_session_ignores_dbWrites].
Qed.

Lemma generateSummary_spec env c w :
  wp (conversationManager.generateSummary env c)
     (fun w1 _ => ended_writes w1 = ended_writes w /\ same_session w w1) w.
Proof.
  apply wp_and.
  - apply (wp_keeps (fun x => ended_writes x = ended_writes w)); [| reflexivity].
    apply keeps_generateSummary;
      [apply ended_writes_ignores_log | apply ended_writes_ignores_other].
  - apply wp_keeps; [| apply same_session_refl].
    apply keeps_generateSummary;
      [apply same_session_ignores_log
      | apply ignores_dbWrites_other, same_session_ignores_dbWrites].
Qed.

Lemma end_body_spec env c st w :
  wp (conversationManager.end_body env c st)
     (fun w1 _ =>
        ended_writes w1
        = (ended_writes w
           ++ (let id := Conversation.id (nth c (heap w) conversationManager.dangling) in
               if truthy id then terminal_write env id st (now w) else []))%list
        /\ same_session w w1) w.
Proof.
  unfold conversationManager.end_body. cbv zeta.
  wp_steps.
  destruct (truthy (Conversation.id (nth c (heap w) conversationManager.dangling))).
  - wp_steps.
    eapply wp_conseq; [apply db_endConversation_spec |].
    cbv beta. intros w1 _ [E1 S1]. wp_steps.
    assert (Hh : heap w1 = heap w) by apply S1.
    destruct (0 <? _)%nat.
    + wp_steps. eapply wp_conseq; [apply generateSummary_spec |].
      cbv beta. intros w2 _ [E2 S2]. wp_steps.
      split; [rewrite ended_writes_log; congruence |].
      apply same_session_log. eapply same_session_trans; eassumption.
    + wp_steps. split; [rewrite ended_writes_log; exact E1 |].
      apply same_session_log. exact S1.
  - wp_steps. split; [rewrite ended_writes_log, app_nil_r; reflexivity |].
    apply same_session_log, same_session_refl.
Qed.

Lemma end_spec env c st w :
  wp (conversationManager.end_ env c st)
     (fun w1 _ =>
        ended_writes w1
        = (ended_writes w
           ++ (let id := Conversation.id (nth c (heap w) conversationManager.dangling) in
               if truthy id then terminal_write env id st (now w) else []))%list
        /\ this w1 = this w /\ heap w1 = heap w /\ now w1 = now w
        /\ activeConversations w1 = activeConversations w
        /\ endCalls w1 = (endCalls w ++ [(c, st)])%list) w.
Proof.
  unfold conversationManager.end_. wp_step.
  eapply wp_conseq; [apply end_body_spec |].
  cbv beta. intros w1 _ [E (S1 & S2 & S3 & S4 & S5)].
  simpl in *. repeat split; assumption.
Qed.

Lemma map_get_delete key m :
  conversationManager.map_get key (conversationManager.map_delete key m) = None.
Proof.
  induction m as [| [k v] rest IH]; simpl; [reflexivity |].
  destruct (strict_eq k key) eqn:E; simpl; [exact IH |].
  rewrite E. exact IH.
Qed.

Lemma endConversation_found env key st w c :
  conversationManager.map_get key (activeConversations w) = Some c ->
  wp (conversationManager.endConversation env key st)
     (fun w1 _ =>
        ended_writes w1
        = (ended_writes w
           ++ (let id := Conversation.id (nth c (heap w) conversationManager.dangling) in
               if truthy id then terminal_write env id st (now w) else []))%list
        /\ this w1 = this w /\ heap w1 = heap w /\ now w1 = now w
        /\ activeConversations w1
           = conversationManager.map_delete key (activeConversations w)
        /\ endCalls w1 = (endCalls w ++ [(c, st)])%list) w.
Proof.
  intros Hget. unfold conversationManager.endConversation. wp_step.
  rewrite Hget. wp_step.
  eapply wp_conseq; [apply end_spec |].
  cbv beta. intros w1 r (E & S1 & S2 & S3 & S4 & S5). wp_steps.
  simpl. rewrite S4. repeat split; assumption.
Qed.

Lemma endConversation_missing env key st w :
  conversationManager.map_get key (activeConversations w) = None ->
  wp (conversationManager.endConversation env key st)
     (fun w1 r =>
        w1 = with_log (log w ++ [{| level := Warn;
                                    text := "Conversation not found: " ++ to_str key |}]) w
        /\ r = JNull) w.
Proof.
  intros Hget. unfold conversationManager.endConversation. wp_step.
  rewrite Hget. wp_steps. split; reflexivity.
Qed.



Lemma closed_times_callSid n h : Handler.callSid (closed_times n h) = Handler.callSid h.
Proof. reflexivity. Qed.

Lemma closed_times_conversation n h :
  Handler.conversation (closed_times n h) = Handler.conversation h.
Proof. reflexivity. Qed.







(** ** Function calls of the model *)

(** C2, as amended. When [JSON.parse] rejects the arguments string, the
    handler catches the error and logs it, and that is all it does:
    Function Dispatch is not invoked, nothing is entered in the
    Conversation Record, no function result and no response request are
    sent to the model. The handler returns normally. *)
Theorem malformed_arguments_are_logged_only env message call_id name argsString e w :
  get message "call_id" = Ok call_id ->
  get message "name" = Ok name ->
  get message "arguments" = Ok argsString ->
  JSON_parse env (to_str (js_or argsString (JStr "{}"))) = Throw e ->
  run (realtimeHandler.handleFunctionCall env message) w
  = (with_log (log w ++ [{| level := Err;
                            text := "Error handling function call: " ++ error_message e |}]) w,
     tt).
Proof.
  intros H1 H2 H3 H4.
  unfold realtimeHandler.handleFunctionCall, realtimeHandler.handleFunctionCall_body.
  unfold atry, abind_exc, atomic. cbn [abind run lift].
  rewrite H1. cbn [abind run lift]. rewrite H2. cbn [abind run lift].
  rewrite H3. cbn [abind run lift]. rewrite H4. reflexivity.
Qed.

(** The amended C2 at the arguments string [{bad]. *)
Lemma malformed_arguments_witness :
  let message := function_call_event "get_departments" (JStr "{bad") in
  let w := world (call_in_progress env_online) in
  let e := SyntaxError "Unexpected token in JSON" in
  get message "call_id" = Ok (JStr "call_1")
  /\ get message "name" = Ok (JStr "get_departments")
  /\ get message "arguments" = Ok (JStr "{bad")
  /\ JSON_parse env_online (to_str (js_or (JStr "{bad") (JStr "{}"))) = Throw e
  /\ run (realtimeHandler.handleFunctionCall env_online message) w
     = (with_log (log w ++ [{| level := Err;
                               text := "Error handling function call: "
                                       ++ error_message e |}]) w, tt).
Proof.
  cbv zeta. repeat (split; [reflexivity |]).
  apply (malformed_arguments_are_logged_only env_online _ (JStr "call_1")
           (JStr "get_departments") (JStr "{bad")); reflexivity.
Defined.

(** C2, counterexample. The arguments string [{bad] is not treated as
    the empty argument set: Function Dispatch, which starts by logging
    the name it is called with, is not invoked, and the model gets no
    function result. With the arguments [{}] the same call is dispatched
    and answered. *)
Lemma malformed_arguments_skip_dispatch :
  let w := world (call_in_progress env_online) in
  let bad := fst (run (realtimeHandler.handleFunctionCall env_online
                         (function_call_event "get_departments" (JStr "{bad"))) w) in
  let good := fst (run (realtimeHandler.handleFunctionCall env_online
                          (function_call_event "get_departments" (JStr "{}"))) w) in
  ~ In "Function called: get_departments" (lines_at Info (log bad))
  /\ sent_to_openai bad = sent_to_openai w
  /\ In "Function called: get_departments" (lines_at Info (log good))
  /\ length (sent_to_openai good) = (length (sent_to_openai w) + 2)%nat.
Proof.
  cbv zeta. split; [| split; [| split]].
  - vm_compute. intuition discriminate.
  - vm_compute. reflexivity.
  - vm_compute. tauto.
  - vm_compute. reflexivity.
Qed.

(** ** Inbound audio *)

Arguments lines_at : simpl never.
Arguments realtimeHandler.sendAudioToOpenAI : simpl never.




Lemma advance_inl_run {A} (t : Async A) w w1 r :
  advance t w = (w1, inl r) -> run t w = (w1, r).
Proof.
  revert w. induction t as [a | C m k IH | rest IH]; simpl; intros w H.
  - congruence.
  - destruct (m w) as [w2 b]. apply IH. exact H.
  - discriminate.
Qed.





(** ** Footprints of the session handler *)

Section SessionFootprints.

Variable I : World -> Prop.
Variable env : Env.
Hypothesis I_log : ignores_log I.
Hypothesis I_heap : ignores_heap I.
Hypothesis I_db : ignores_dbWrites I.
Hypothesis I_http : ignores_httpRequests I.
Hypothesis I_endCalls : ignores_endCalls I.
Hypothesis I_registry : ignores_activeConversations I.
Hypothesis I_send : forall m, StKeeps I (realtimeHandler.sendToOpenAI m).

Lemma stkeeps_this_conversation method :
  StKeeps I (realtimeHandler.this_conversation method).
Proof. unfold realtimeHandler.this_conversation. frame. Qed.

Lemma keeps_post request : Keeps I (realtimeHandler.post env request).
Proof. unfold realtimeHandler.post. frame. Qed.

Lemma keeps_executeEmergencyTransfer a b :
  Keeps I (realtimeHandler.executeEmergencyTransfer env a b).
Proof.
  pose proof keeps_post.
  unfold realtimeHandler.executeEmergencyTransfer. frame.
Qed.

Lemma keeps_executeOperatorTransfer a b :
  Keeps I (realtimeHandler.executeOperatorTransfer env a b).
Proof.
  pose proof keeps_post.
  unfold realtimeHandler.executeOperatorTransfer. frame.
Qed.

Lemma keeps_handleFunctionCall message :
  Keeps I (realtimeHandler.handleFunctionCall env message).
Proof.
  pose proof keeps_executeEmergencyTransfer.
  pose proof keeps_executeOperatorTransfer.
  pose proof stkeeps_this_conversation.
  unfold realtimeHandler.handleFunctionCall, realtimeHandler.handleFunctionCall_body.
  frame.
Qed.

Hypothesis I_audio : forall d, StKeeps I (realtimeHandler.sendAudioToExotel d).
Hypothesis I_received :
  StKeeps I (realtimeHandler.set_this (Handler.with_audioReceived true)).

Lemma keeps_handleOpenAIMessage message :
  Keeps I (realtimeHandler.handleOpenAIMessage env message).
Proof.
  pose proof keeps_handleFunctionCall.
  pose proof stkeeps_this_conversation.
  unfold realtimeHandler.handleOpenAIMessage. frame.
Qed.

Hypothesis I_fields :
  forall f, In f [Handler.with_audioSent true]
            \/ (exists v, f = Handler.with_streamSid v \/ f = Handler.with_callSid v
                          \/ f = Handler.with_phoneNumber v) ->
            StKeeps I (realtimeHandler.set_this f).
Hypothesis I_forward : forall p, StKeeps I (realtimeHandler.sendAudioToOpenAI p).

Lemma keeps_handleExotelMessage message :
  Keeps I (realtimeHandler.handleExotelMessage env message).
Proof.
  assert (F1 : forall v, StKeeps I (realtimeHandler.set_this (Handler.with_streamSid v)))
    by (intros v; apply I_fields; right; eauto).
  assert (F2 : forall v, StKeeps I (realtimeHandler.set_this (Handler.with_callSid v)))
    by (intros v; apply I_fields; right; eauto).
  assert (F3 : forall v, StKeeps I (realtimeHandler.set_this (Handler.with_phoneNumber v)))
    by (intros v; apply I_fields; right; eauto).
  assert (F4 : StKeeps I (realtimeHandler.set_this (Handler.with_audioSent true)))
    by (apply I_fields; left; left; reflexivity).
  unfold realtimeHandler.handleExotelMessage. frame.
Qed.

End SessionFootprints.

(** ** Outbound audio *)

Lemma sendToOpenAI_keeps_telephony_side m w :
  Handler.streamSid (this (fst (realtimeHandler.sendToOpenAI m w)))
  = Handler.streamSid (this w)
  /\ Handler.exotelWs (this (fst (realtimeHandler.sendToOpenAI m w)))
     = Handler.exotelWs (this w).
Proof.
  unfold realtimeHandler.sendToOpenAI.
  destruct (Handler.openaiWs (this w)) as [ws |]; [| split; reflexivity].
  destruct (WebSocket.is_open (WebSocket.readyState ws)); split; reflexivity.
Qed.

(** Without a stream identifier [sendAudioToExotel] only logs. *)
Lemma sendAudioToExotel_without_streamSid d w :
  truthy (Handler.streamSid (this w)) = false ->
  exists l, fst (realtimeHandler.sendAudioToExotel d w) = with_log l w.
Proof.
  intros Hs. unfold realtimeHandler.sendAudioToExotel. cbn.
  destruct (Handler.exotelWs (this w)) as [ws |]; cbn; [| eauto].
  destruct (WebSocket.is_open (WebSocket.readyState ws)); cbn; [| eauto].
  rewrite Hs. cbn. eauto.
Qed.

(** C4. As long as no stream identifier has been recorded, the model's
    events, audio chunks or any others, in any number and order, make the
    bridge send nothing to the telephony socket. *)
Theorem no_audio_is_addressed_before_start env messages w :
  truthy (Handler.streamSid (this w)) = false ->
  sent_to_exotel (handle_model_messages env messages w) = sent_to_exotel w.
Proof.
  intros Hs.
  set (I := fun x : World => truthy (Handler.streamSid (this x)) = false
                             /\ sent_to_exotel x = sent_to_exotel w).
  assert (HI : only_this I).
  { intros x x1 E [A B]. unfold I, sent_to_exotel in *. rewrite E. split; assumption. }
  assert (K : forall m, Keeps I (realtimeHandler.handleOpenAIMessage env m)).
  { intros m. apply keeps_handleOpenAIMessage; auto with frames.
    - intros msg x [A B].
      destruct (sendToOpenAI_keeps_telephony_side msg x) as [E1 E2].
      unfold I, sent_to_exotel in *. rewrite E1, E2. split; assumption.
    - intros d x [A B].
      destruct (sendAudioToExotel_without_streamSid d x A) as [l ->].
      split; assumption.
    - intros x [A B]. split; assumption. }
  assert (G : forall ms x, I x -> I (handle_model_messages env ms x)).
  { induction ms as [| m ms IH]; intros x Hx; [exact Hx |].
    apply IH. apply keeps_run; [apply K | exact Hx]. }
  apply (G messages w). split; [exact Hs | reflexivity].
Qed.

(** C4 at two audio chunks that arrive right after the model socket
    opened, before the telephony [start] event. *)
Lemma no_audio_before_start_witness :
  let w := world (call_in_progress env_online) in
  let chunks := [audio_delta_event (JStr "AAAA"); audio_delta_event (JStr "BBBB")] in
  truthy (Handler.streamSid (this w)) = false
  /\ sent_to_exotel (handle_model_messages env_online chunks w) = sent_to_exotel w.
Proof.
  cbv zeta. split; [reflexivity |].
  apply (no_audio_is_addressed_before_start env_online); reflexivity.
Defined.

(** ** The guard of the sends to the model *)

Lemma sendToOpenAI_not_open message w :
  openai_is_open w = false -> realtimeHandler.sendToOpenAI message w = (w, tt).
Proof.
  unfold openai_is_open, realtimeHandler.sendToOpenAI.
  destruct (Handler.openaiWs (this w)) as [ws |]; [| reflexivity].
  intros ->. reflexivity.
Qed.

Lemma sendAudioToExotel_keeps_model_side d w :
  Handler.openaiWs (this (fst (realtimeHandler.sendAudioToExotel d w)))
  = Handler.openaiWs (this w).
Proof.
  unfold realtimeHandler.sendAudioToExotel. cbn.
  destruct (Handler.exotelWs (this w)) as [ws |]; cbn; [| reflexivity].
  destruct (WebSocket.is_open (WebSocket.readyState ws)); cbn; [| reflexivity].
  destruct (truthy (Handler.streamSid (this w))); cbn; [| reflexivity].
  destruct (realtimeHandler.is_empty d); cbn; [reflexivity |].
  destruct (Handler.audioSentToExotel (this w)); cbn; [reflexivity |].
  destruct (get d "length"); reflexivity.
Qed.

(** C10. [sendToOpenAI] is the one place that sends to the model socket;
    when the socket handle is absent or not OPEN it returns without any
    effect: nothing is sent, logged, kept for later or changed. So the
    session configuration, the greeting and its response request, an
    audio-append event and, whatever event of either socket is being
    handled (function results and response requests included), every
    send issued while the socket is not open is discarded, and the
    socket stays as it is. *)
Theorem sends_to_a_socket_not_open_are_dropped env w :
  openai_is_open w = false ->
  (forall message, realtimeHandler.sendToOpenAI message w = (w, tt))
  /\ (exists line,
        realtimeHandler.sendSessionUpdate env w
        = (with_log (log w ++ [{| level := Info; text := line |}]) w, tt))
  /\ realtimeHandler.sendInitialGreeting w = (w, tt)
  /\ (forall payload,
        Handler.isConnected (this w) = true ->
        realtimeHandler.is_empty payload = false ->
        realtimeHandler.sendAudioToOpenAI payload w = (w, tt))
  /\ (forall message,
        let w1 := fst (run (realtimeHandler.handleOpenAIMessage env message) w) in
        sent_to_openai w1 = sent_to_openai w /\ openai_is_open w1 = false)
  /\ (forall message,
        let w1 := fst (run (realtimeHandler.handleExotelMessage env message) w) in
        sent_to_openai w1 = sent_to_openai w /\ openai_is_open w1 = false).
Proof.
  intros Hc.
  set (I := fun x : World => sent_to_openai x = sent_to_openai w
                             /\ openai_is_open x = false).
  assert (HI : forall x h, Handler.openaiWs h = Handler.openaiWs (this x) ->
                           I x -> I (with_this h x)).
  { intros x h E [A B]. unfold I, sent_to_openai, openai_is_open in *.
    cbn. rewrite E. split; assumption. }
  assert (HO : only_this I).
  { intros x x1 E [A B]. unfold I, sent_to_openai, openai_is_open in *.
    rewrite E. split; assumption. }
  assert (HS : forall m, StKeeps I (realtimeHandler.sendToOpenAI m)).
  { intros m x [A B]. rewrite (sendToOpenAI_not_open m x B). split; assumption. }
  assert (HF : forall f, (forall h, Handler.openaiWs (f h) = Handler.openaiWs h) ->
                         StKeeps I (realtimeHandler.set_this f)).
  { intros f Hf x Hx. apply HI; [apply Hf | exact Hx]. }
  assert (HA : forall p, StKeeps I (realtimeHandler.sendAudioToOpenAI p)).
  { intros p. unfold realtimeHandler.sendAudioToOpenAI.
    apply stkeeps_st_bind; [auto with frames | intros h].
    destruct (negb _); [auto with frames |].
    destruct (realtimeHandler.is_empty p); [auto with frames | apply HS]. }
  split; [intros m; apply sendToOpenAI_not_open; exact Hc |].
  split.
  { unfold realtimeHandler.sendSessionUpdate, st_bind.
    rewrite (sendToOpenAI_not_open _ w Hc). eexists. reflexivity. }
  split.
  { unfold realtimeHandler.sendInitialGreeting, st_bind.
    rewrite (sendToOpenAI_not_open _ w Hc). apply sendToOpenAI_not_open. exact Hc. }
  split.
  { intros p Hconn He. unfold realtimeHandler.sendAudioToOpenAI, st_bind. cbn.
    rewrite Hconn, He. cbn. apply sendToOpenAI_not_open. exact Hc. }
  split.
  - intros m. apply (keeps_run I); [| split; [reflexivity | exact Hc]].
    apply keeps_handleOpenAIMessage; auto with frames;
      try (apply HF; intros h; reflexivity).
    intros d x Hx.
    assert (E := sendAudioToExotel_keeps_model_side d x).
    destruct Hx as [A B]. unfold I, sent_to_openai, openai_is_open in *.
    rewrite E. split; assumption.
  - intros m. apply (keeps_run I); [| split; [reflexivity | exact Hc]].
    apply keeps_handleExotelMessage; auto with frames.
    intros f [[<- | []] | [v [-> | [-> | ->]]]]; apply HF; intros h; reflexivity.
Qed.

(** C10 before the model socket has opened: it is still connecting. *)
Lemma sends_dropped_witness :
  let w := world (steps env_online [Resume 0]
                    (connect env_online (JStr "C1") (JStr "+911234567890")
                       {| world := empty_world; pending := [] |})) in
  openai_is_open w = false
  /\ realtimeHandler.sendInitialGreeting w = (w, tt)
  /\ sent_to_openai
       (fst (run (realtimeHandler.handleExotelMessage env_online
                    (media_event (JStr "AAAA"))) w)) = [].
Proof.
  cbv zeta. split; [reflexivity |].
  destruct (sends_to_a_socket_not_open_are_dropped env_online
              (world (steps env_online [Resume 0]
                        (connect env_online (JStr "C1") (JStr "+911234567890")
                           {| world := empty_world; pending := [] |}))) eq_refl)
    as (_ & _ & G & _ & _ & E).
  split; [exact G |].
  destruct (E (media_event (JStr "AAAA"))) as [E1 _]. rewrite E1. reflexivity.
Defined.

(** ** Function dispatch *)





(** C6, the failing input. [toString] is not one of the eight declared
    names, but [handlers[functionName]] finds the member of that name
    that the object literal inherits from [Object.prototype]: the router
    calls it and returns its result, a string. The result has no
    [message] and no [success] field. The same happens for
    [constructor], which returns the arguments. *)
Theorem inherited_name_is_dispatched env w :
  let result := snd (functionHandlers.handleFunctionCall env (JStr "toString") (JObj []) w) in
  result = JStr "[object Undefined]"
  /\ get result "message" = Ok JUndef
  /\ get result "success" = Ok JUndef
  /\ snd (functionHandlers.handleFunctionCall env (JStr "constructor") (JObj []) w)
     = JObj [].
Proof. repeat split. Qed.

(** C7, the failing input. For the emergency type [toString] the lookup
    [emergencyContacts[emergencyType]] finds the inherited member of
    [Object.prototype], which is truthy: the fallback to the main number
    is not taken and [transferTo] is a function, not a number. *)
Theorem inherited_emergency_type_is_no_number env w :
  let result := snd (functionHandlers.emergencyProtocol env
                       (JObj [("emergencyType", JStr "toString")]) w) in
  get result "action" = Ok (JStr "TRANSFER_EMERGENCY")
  /\ get result "transferTo" = Ok (JBuiltin B_toString)
  /\ JSON_stringify (JObj [("transferTo", JBuiltin B_toString)]) = JStr "{}".
Proof. repeat split. Qed.

(** ** Department resolution *)




(** ** The staleness sweep *)

Lemma strict_eq_sym a b : strict_eq a b = strict_eq b a.
Proof.
  destruct a, b; simpl; try reflexivity.
  - destruct b, b0; reflexivity.
  - apply Z.eqb_sym.
  - apply String.eqb_sym.
Qed.

Lemma world_spawn t p : world (spawn t p) = fst (advance t (world p)).
Proof.
  unfold spawn. destruct (advance t (world p)) as [w1 [u | rest]]; reflexivity.
Qed.

(** What [conversation.end('timeout')], called and not awaited, has done
    when the call returns: the call is in the history; the records and
    the registry are as before. *)
Lemma spawn_end env c st p :
  let p1 := spawn (abind (conversationManager.end_ env c st) (fun _ => Return tt)) p in
  heap (world p1) = heap (world p)
  /\ activeConversations (world p1) = activeConversations (world p)
  /\ endCalls (world p1) = (endCalls (world p) ++ [(c, st)])%list
  /\ now (world p1) = now (world p).
Proof.
  cbv zeta. rewrite world_spawn. unfold conversationManager.end_.
  cbn [abind advance conversationManager.record_end].
  set (w1 := with_endCalls _ _).
  set (I := fun w : World =>
              heap w = heap (world p)
              /\ activeConversations w = activeConversations (world p)
              /\ endCalls w = (endCalls (world p) ++ [(c, st)])%list
              /\ now w = now (world p)).
  assert (K : Keeps I (abind (conversationManager.end_body env c st)
                             (fun _ => Return tt))).
  { apply keeps_abind; [| intros a; exact Logic.I].
    apply keeps_end_body; intros w l Hw; exact Hw. }
  assert (H0 : I w1) by (repeat split).
  destruct (keeps_advance I _ w1 K H0) as [H _]. exact H.
Qed.

Lemma is_stale_heap T w w1 e :
  heap w1 = heap w ->
  conversationManager.is_stale T w1 e = conversationManager.is_stale T w e.
Proof. intros H. unfold conversationManager.is_stale. rewrite H. reflexivity. Qed.

Lemma map_delete_middle key c kept rest :
  Forall (fun kv => strict_eq (fst kv) key = false) kept ->
  strict_eq key key = true ->
  Forall (fun kv => strict_eq (fst kv) key = false) rest ->
  conversationManager.map_delete key (kept ++ (key, c) :: rest) = (kept ++ rest)%list.
Proof.
  intros Hk Hkey Hr. unfold conversationManager.map_delete.
  rewrite filter_app. cbn [filter fst]. rewrite Hkey. cbn [negb].
  assert (F : forall l, Forall (fun kv : JsVal * nat => strict_eq (fst kv) key = false) l ->
                        filter (fun kv => negb (strict_eq (fst kv) key)) l = l).
  { induction l as [| x l IH]; intros H; [reflexivity |].
    inversion H; subst. cbn [filter]. rewrite H2. cbn [negb]. f_equal. apply IH.
    assumption. }
  rewrite (F kept Hk), (F rest Hr). reflexivity.
Qed.

(** The loop of the sweep, from any point of the iteration: [kept] are
    the entries already passed over and left in the map. *)
Lemma sweep_spec env T entries :
  forall p cleaned kept,
    activeConversations (world p) = (kept ++ entries)%list ->
    Forall (fun e => Forall (fun kv => strict_eq (fst kv) (fst e) = false) kept) entries ->
    registry_ok entries ->
    let stale := conversationManager.is_stale T (world p) in
    let r := conversationManager.sweep env T entries p cleaned in
    activeConversations (world (fst r))
    = (kept ++ filter (fun e => negb (stale e)) entries)%list
    /\ snd r = (cleaned + length (filter stale entries))%nat
    /\ endCalls (world (fst r))
       = (endCalls (world p)
          ++ map (fun e => (snd e, JStr "timeout")) (filter stale entries))%list
    /\ heap (world (fst r)) = heap (world p)
    /\ now (world (fst r)) = now (world p).
Proof.
  induction entries as [| [key c] rest IH]; intros p cleaned kept HA HD HR; cbv zeta.
  - cbn. rewrite HA, Nat.add_0_r, !app_nil_r. repeat split; reflexivity.
  - cbn [conversationManager.sweep filter].
    destruct HR as (Hkey & Hrest & HR).
    inversion HD as [| x l Hk HD1]; subst. cbn [fst] in Hk.
    destruct (conversationManager.is_stale T (world p) (key, c)) eqn:Hst.
    + cbn [negb].
      destruct (spawn_end env c (JStr "timeout") p) as (Eh & Ea & Ee & En).
      set (p1 := spawn _ p) in *.
      set (p2 := {| world := _; pending := pending p1 |}).
      assert (HA2 : activeConversations (world p2) = (kept ++ rest)%list).
      { unfold p2. cbn. rewrite Ea, HA. apply map_delete_middle; assumption. }
      assert (Eh2 : heap (world p2) = heap (world p)) by (unfold p2; cbn; exact Eh).
      destruct (IH p2 (S cleaned) kept HA2 HD1 HR) as (R1 & R2 & R3 & R4 & R5).
      assert (F : forall e, conversationManager.is_stale T (world p2) e
                            = conversationManager.is_stale T (world p) e)
        by (intros e; apply is_stale_heap; exact Eh2).
      rewrite (filter_ext _ _ F) in R2, R3.
      rewrite (filter_ext (fun e => negb (conversationManager.is_stale T (world p2) e))
                 (fun e => negb (conversationManager.is_stale T (world p) e))) in R1
        by (intros e; rewrite F; reflexivity).
      repeat split.
      * exact R1.
      * rewrite R2. cbn [length]. lia.
      * rewrite R3. unfold p2 at 1. cbn [world endCalls with_activeConversations].
        replace (endCalls (with_activeConversations
                             (conversationManager.map_delete key
                                (activeConversations (world p1))) (world p1)))
          with (endCalls (world p1)) by (destruct (world p1); reflexivity).
        rewrite Ee, <- app_assoc. reflexivity.
      * rewrite R4. exact Eh2.
      * rewrite R5. unfold p2. cbn. destruct (world p1) eqn:W; cbn in *. exact En.
    + cbn [negb].
      assert (HA2 : activeConversations (world p) = ((kept ++ [(key, c)]) ++ rest)%list)
        by (rewrite HA, <- app_assoc; reflexivity).
      assert (HD2 : Forall (fun e => Forall (fun kv : JsVal * nat =>
                                               strict_eq (fst kv) (fst e) = false)
                                       (kept ++ [(key, c)])) rest).
      { rewrite Forall_forall in *. intros e He. apply Forall_app. split.
        - apply HD1. exact He.
        - constructor; [| constructor]. cbn [fst]. rewrite strict_eq_sym.
          apply (Hrest e He). }
      destruct (IH p cleaned (kept ++ [(key, c)])%list HA2 HD2 HR)
        as (R1 & R2 & R3 & R4 & R5).
      repeat split; try assumption.
      rewrite R1, <- app_assoc. reflexivity.
Qed.



(** ** What the function handlers return *)

Lemma append_nonempty_l a b : a <> "" -> (a ++ b)%string <> "".
Proof. destruct a; [congruence | discriminate]. Qed.

Lemma append_nonempty_r a b : b <> "" -> (a ++ b)%string <> "".
Proof. destruct a; [trivial | discriminate]. Qed.

Lemma join_nonempty sep parts :
  parts <> [] -> Forall (fun s => s <> "") parts -> join sep parts <> "".
Proof.
  destruct parts as [| p rest]; [congruence |]. intros _ H.
  inversion H; subst. destruct rest; simpl; [assumption |].
  apply append_nonempty_l. assumption.
Qed.

Lemma map_exc_Forall {A B} (f : A -> Exc B) (P : B -> Prop) :
  (forall x y, f x = Ok y -> P y) ->
  forall xs ys, map_exc f xs = Ok ys -> Forall P ys /\ length ys = length xs.
Proof.
  intros Hf. induction xs as [| x xs IH]; simpl; intros ys H.
  - inversion H. split; [constructor | reflexivity].
  - destruct (f x) as [y | e] eqn:E; simpl in H; [| discriminate].
    destruct (map_exc f xs) as [zs | e]; simpl in H; [| discriminate].
    inversion H; subst. destruct (IH zs eq_refl) as [F L].
    split; [constructor; [eapply Hf; eassumption | exact F] | simpl; congruence].
Qed.

Lemma map_exc_nonempty {A B} (f : A -> Exc B) xs ys :
  map_exc f xs = Ok ys -> (length xs =? 0)%nat = false -> ys <> [].
Proof.
  destruct xs; simpl; [discriminate |]. intros H _.
  destruct (f a); simpl in H; [| discriminate].
  destruct (map_exc f xs); simpl in H; [| discriminate].
  inversion H. discriminate.
Qed.

Lemma mreturns_bind {A B} (m : M A) (k : A -> M B) (P : A -> Prop) (Q : B -> Prop) :
  MReturns m P -> (forall a, P a -> MReturns (k a) Q) -> MReturns (bind m k) Q.
Proof.
  intros Hm Hk w. unfold bind. specialize (Hm w).
  destruct (m w) as [w1 [a | e]]; simpl in *; [apply Hk; exact Hm | exact Logic.I].
Qed.

Lemma mreturns_any {A} (m : M A) : MReturns m (fun _ => True).
Proof. intros w. destruct (snd (m w)); exact Logic.I. Qed.

Lemma mreturns_ret {A} (a : A) (Q : A -> Prop) : Q a -> MReturns (ret a) Q.
Proof. intros H w. exact H. Qed.

Lemma mreturns_lift {A} (x : Exc A) (Q : A -> Prop) :
  (forall a, x = Ok a -> Q a) -> MReturns (lift x) Q.
Proof. intros H w. simpl. destruct x; [apply H; reflexivity | exact Logic.I]. Qed.

Lemma streturns_try_catch {A} (body : M A) (h : JsError -> St A) (Q : A -> Prop) :
  MReturns body Q -> (forall e, StReturns (h e) Q) -> StReturns (try_catch body h) Q.
Proof.
  intros Hb Hh w. unfold try_catch. specialize (Hb w).
  destruct (body w) as [w1 [a | e]]; simpl in *; [exact Hb | apply Hh].
Qed.

Lemma answers_failure message : message <> "" -> answers (functionHandlers.failure message).
Proof.
  intros H. split; [exists message; split; [reflexivity | exact H] |].
  exists false. reflexivity.
Qed.

(** A step through a [try] block that needs nothing of the value bound. *)
Ltac returns_skip :=
  lazymatch goal with
  | |- MReturns (bind _ _) _ =>
      eapply mreturns_bind; [apply mreturns_any | intros ? _]
  | |- MReturns (if ?c then _ else _) _ => destruct c eqn:?
  | |- MReturns (ret (functionHandlers.failure _)) _ =>
      apply mreturns_ret, answers_failure; discriminate
  end.

Ltac answers_literal :=
  apply mreturns_ret; split;
  [eexists; split; [reflexivity | simpl; discriminate] | eexists; reflexivity].

Lemma catch_answers (h : JsError -> St JsVal) message :
  message <> "" ->
  (forall e w, snd (h e w) = functionHandlers.failure message) ->
  forall e, StReturns (h e) answers.
Proof. intros Hm H e w. rewrite H. apply answers_failure. exact Hm. Qed.

Lemma searchDoctors_answers env args :
  StReturns (functionHandlers.searchDoctors env args) answers.
Proof.
  apply streturns_try_catch.
  - unfold functionHandlers.searchDoctors_try. repeat returns_skip. answers_literal.
  - intros e. eapply catch_answers; [| reflexivity]. discriminate.
Qed.

Lemma getDepartmentsList_answers env args :
  StReturns (functionHandlers.getDepartmentsList env args) answers.
Proof.
  apply streturns_try_catch.
  - unfold functionHandlers.getDepartmentsList_try. repeat returns_skip. answers_literal.
  - intros e. eapply catch_answers; [| reflexivity]. discriminate.
Qed.

Lemma checkDoctorAvailability_answers env args :
  StReturns (functionHandlers.checkDoctorAvailability env args) answers.
Proof.
  apply streturns_try_catch.
  - unfold functionHandlers.checkDoctorAvailability_try. repeat returns_skip.
    answers_literal.
  - intros e. eapply catch_answers; [| reflexivity]. discriminate.
Qed.

Ltac exc_chain H :=
  repeat match type of H with
         | exc_bind ?x _ = Ok _ => destruct x; cbn [exc_bind] in H; [| discriminate H]
         end.

Lemma location_block_nonempty loc s :
  functionHandlers.location_block loc = Ok s -> s <> "".
Proof.
  unfold functionHandlers.location_block. intros H. exc_chain H.
  injection H as <-. apply append_nonempty_r. simpl. discriminate.
Qed.

Lemma contact_block_nonempty contact s :
  functionHandlers.contact_block contact = Ok s -> s <> "".
Proof.
  unfold functionHandlers.contact_block. intros H. exc_chain H.
  injection H as <-. do 2 apply append_nonempty_r. simpl. discriminate.
Qed.

Lemma info_block_nonempty item s :
  functionHandlers.info_block item = Ok s -> s <> "".
Proof.
  unfold functionHandlers.info_block. intros H. exc_chain H.
  injection H as <-. apply append_nonempty_r. simpl. discriminate.
Qed.

Lemma answers_joined (blocks : list string) sep (fields : list (string * JsVal)) :
  blocks <> [] -> Forall (fun s => s <> "") blocks ->
  assoc "message" fields = Some (JStr (join sep blocks)) ->
  assoc "success" fields = Some (JBool true) ->
  answers (JObj fields).
Proof.
  intros Hn Hf Hm Hs. split.
  - exists (join sep blocks). simpl. rewrite Hm. split; [reflexivity |].
    apply join_nonempty; assumption.
  - exists true. simpl. rewrite Hs. reflexivity.
Qed.

Lemma getHospitalLocationsList_answers env args :
  StReturns (functionHandlers.getHospitalLocationsList env args) answers.
Proof.
  apply streturns_try_catch.
  - unfold functionHandlers.getHospitalLocationsList_try.
    do 3 returns_skip. returns_skip; [returns_skip |].
    eapply mreturns_bind; [apply mreturns_lift; intros bs E; exact E | intros bs E; cbv beta in E].
    apply mreturns_ret.
    destruct (map_exc_Forall _ _ location_block_nonempty _ _ E) as [F _].
    eapply answers_joined; [| exact F | reflexivity | reflexivity].
    eapply map_exc_nonempty; eassumption.
  - intros e. eapply catch_answers; [| reflexivity]. discriminate.
Qed.

Lemma getContactInfo_answers env args :
  StReturns (functionHandlers.getContactInfo env args) answers.
Proof.
  apply streturns_try_catch.
  - unfold functionHandlers.getContactInfo_try.
    do 3 returns_skip. returns_skip; [returns_skip |].
    eapply mreturns_bind; [apply mreturns_lift; intros bs E; exact E | intros bs E; cbv beta in E].
    apply mreturns_ret.
    destruct (map_exc_Forall _ _ contact_block_nonempty _ _ E) as [F _].
    eapply answers_joined; [| exact F | reflexivity | reflexivity].
    eapply map_exc_nonempty; eassumption.
  - intros e. eapply catch_answers; [| reflexivity]. discriminate.
Qed.

Lemma searchHospitalInformation_answers env args :
  StReturns (functionHandlers.searchHospitalInformation env args) answers.
Proof.
  apply streturns_try_catch.
  - unfold functionHandlers.searchHospitalInformation_try.
    do 5 returns_skip. returns_skip; [returns_skip |].
    do 2 returns_skip. apply mreturns_ret. split; [| exists true; reflexivity].
    unfold js_or. destruct (truthy (JStr _)) eqn:T.
    + eexists. split; [reflexivity |]. simpl in T. intros E. rewrite E in T.
      discriminate.
    + eexists. split; [reflexivity | discriminate].
  - intros e. eapply catch_answers; [| reflexivity]. discriminate.
Qed.

Lemma emergencyProtocol_answers env args :
  StReturns (functionHandlers.emergencyProtocol env args) answers.
Proof.
  apply streturns_try_catch.
  - unfold functionHandlers.emergencyProtocol_try. repeat returns_skip. answers_literal.
  - intros e w. split; [eexists; split; [reflexivity | discriminate] |].
    exists true. reflexivity.
Qed.

Lemma transferToOperator_answers env args :
  StReturns (functionHandlers.transferToOperator env args) answers.
Proof.
  apply streturns_try_catch.
  - unfold functionHandlers.transferToOperator_try. repeat returns_skip. answers_literal.
  - intros e w. split; [eexists; split; [reflexivity | discriminate] |].
    exists true. reflexivity.
Qed.

Lemma own_handlers_answer key h env args :
  In (key, h) functionHandlers.handlers -> StReturns (h env args) answers.
Proof.
  unfold functionHandlers.handlers. simpl.
  intros [E | [E | [E | [E | [E | [E | [E | [E | []]]]]]]]]; inversion E; subst.
  - apply searchDoctors_answers.
  - apply getDepartmentsList_answers.
  - apply getHospitalLocationsList_answers.
  - apply getContactInfo_answers.
  - apply checkDoctorAvailability_answers.
  - apply emergencyProtocol_answers.
  - apply transferToOperator_answers.
  - apply searchHospitalInformation_answers.
Qed.

Lemma find_declared name :
  In name declared_names ->
  exists h, find (fun kv : string * (Env -> JsVal -> St JsVal) => String.eqb (fst kv) name)
                 functionHandlers.handlers = Some (name, h)
            /\ In (name, h) functionHandlers.handlers.
Proof.
  unfold declared_names, functionHandlers.handlers. simpl.
  intros [E | [E | [E | [E | [E | [E | [E | [E | []]]]]]]]]; subst;
    eexists; (split; [reflexivity | simpl; tauto]).
Qed.

(** For each of the eight declared function names, whatever the
    arguments, the answers of the store and the state, Function Dispatch
    returns an object with a non-empty [message] string and a boolean
    [success]. *)
Theorem declared_functions_answer_with_a_message env name args w :
  In name declared_names ->
  answers (snd (functionHandlers.handleFunctionCall env (JStr name) args w)).
Proof.
  intros Hin. destruct (find_declared name Hin) as (h & F & I).
  unfold functionHandlers.handleFunctionCall, functionHandlers.handlers_get, st_bind.
  cbn [logger to_str]. rewrite F. cbn [snd]. unfold try_catch, lift_st.
  pose proof (own_handlers_answer name h env args I
                (with_log (log w ++ [{| level := Info;
                                        text := "Function called: " ++ name |}]) w)) as A.
  destruct (h env args _) as [w1 r]. exact A.
Qed.

Lemma declared_functions_witness :
  In "get_contact_details" declared_names
  /\ answers (snd (functionHandlers.handleFunctionCall env_online
                     (JStr "get_contact_details") JNull empty_world)).
Proof.
  split; [simpl; tauto |].
  apply declared_functions_answer_with_a_message. simpl. tauto.
Defined.

Lemma find_undeclared name :
  ~ In name declared_names ->
  find (fun kv : string * (Env -> JsVal -> St JsVal) => String.eqb (fst kv) name)
       functionHandlers.handlers = None.
Proof.
  intros H. destruct (find _ _) as [[k h] |] eqn:F; [| reflexivity].
  apply find_some in F. destruct F as [I E]. cbn [fst] in E.
  apply String.eqb_eq in E. subst k. exfalso. apply H.
  apply (in_map fst) in I. exact I.
Qed.

(** A function name that is neither declared nor a member of
    [Object.prototype] gets the fallback answer: success=false and the
    offer of an operator; the unknown name is logged as an error and
    nothing else changes. *)
Theorem unknown_function_gets_the_fallback env name args w :
  ~ In name declared_names ->
  object_prototype name = None ->
  functionHandlers.handleFunctionCall env (JStr name) args w
  = (with_log ((log w ++ [{| level := Info; text := "Function called: " ++ name |}])
               ++ [{| level := Err; text := "Unknown function: " ++ name |}]) w,
     functionHandlers.failure
       "I'm not sure how to handle that request. Let me connect you to our operator.").
Proof.
  intros Hd Hp.
  unfold functionHandlers.handleFunctionCall, functionHandlers.handlers_get, st_bind.
  cbn [logger to_str]. rewrite (find_undeclared name Hd), Hp. reflexivity.
Qed.

Lemma unknown_function_witness :
  snd (functionHandlers.handleFunctionCall env_online (JStr "book_appointment")
         (JObj []) empty_world)
  = functionHandlers.failure
      "I'm not sure how to handle that request. Let me connect you to our operator.".
Proof.
  rewrite (unknown_function_gets_the_fallback env_online "book_appointment" (JObj [])
             empty_world).
  - reflexivity.
  - simpl. intros H. decompose [or] H; discriminate || assumption.
  - reflexivity.
Defined.

Lemma get_total v key a key1 : get v key = Ok a -> exists b, get v key1 = Ok b.
Proof.
  destruct v; simpl; try discriminate; intros _; try (eexists; reflexivity).
  - destruct (String.eqb key1 "length"); eexists; reflexivity.
  - destruct (String.eqb key1 "length"); [eexists; reflexivity |].
    destruct (index_of_key key1 (length xs)); eexists; reflexivity.
  - destruct (assoc key1 fields); [eexists; reflexivity |].
    destruct (object_prototype key1); eexists; reflexivity.
Qed.

(** Whatever its arguments, the emergency handler asks for the emergency
    transfer: success=true, action TRANSFER_EMERGENCY, a message for the
    caller, and a [transferTo] that is never empty, null or undefined. *)
Theorem emergency_always_requests_a_transfer env args w :
  let result := snd (functionHandlers.emergencyProtocol env args w) in
  get result "success" = Ok (JBool true)
  /\ get result "emergency" = Ok (JBool true)
  /\ get result "action" = Ok (JStr "TRANSFER_EMERGENCY")
  /\ has_message result
  /\ exists transferTo, get result "transferTo" = Ok transferTo /\ truthy transferTo = true.
Proof.
  cbv zeta.
  unfold functionHandlers.emergencyProtocol, functionHandlers.emergencyProtocol_try,
    try_catch, bind, lift, logger_warn, lift_st, ret.
  destruct (get args "emergencyType") as [t | e] eqn:Et.
  - destruct (get_total _ _ _ "callerPhone" Et) as [p Ep]. rewrite Ep. cbn [logger].
    assert (F : exists found, get functionHandlers.emergencyContacts (to_str t) = Ok found).
    { unfold functionHandlers.emergencyContacts, get.
      destruct (assoc _ _); [eexists; reflexivity |].
      destruct (object_prototype _); eexists; reflexivity. }
    destruct F as [found F]. rewrite F.
    change (get functionHandlers.emergencyContacts "default")
      with (Ok (A := JsVal) (JStr EMERGENCY_CONTACTS.main)).
    cbn [snd]. repeat split; try reflexivity.
    + eexists. split; [reflexivity | discriminate].
    + exists (js_or found (JStr EMERGENCY_CONTACTS.main)). split; [reflexivity |].
      unfold js_or. destruct (truthy found) eqn:T; [exact T | reflexivity].
  - cbn. repeat split; try reflexivity.
    + eexists. split; [reflexivity | discriminate].
    + eexists. split; reflexivity.
Qed.

Lemma emergencyContacts_lookup t :
  object_prototype t = None ->
  get functionHandlers.emergencyContacts t
  = Ok (if String.eqb t "cardiac" then JStr EMERGENCY_CONTACTS.cardiac
        else if String.eqb t "trauma" then JStr EMERGENCY_CONTACTS.trauma
        else if String.eqb t "default" then JStr EMERGENCY_CONTACTS.main
        else JUndef).
Proof.
  intros Hp. unfold functionHandlers.emergencyContacts, get.
  cbn -[String.eqb object_prototype].
  rewrite (String.eqb_sym "cardiac"), (String.eqb_sym "trauma"),
    (String.eqb_sym "default").
  destruct (String.eqb t "cardiac"); [reflexivity |].
  destruct (String.eqb t "trauma"); [reflexivity |].
  destruct (String.eqb t "default"); [reflexivity |].
  rewrite Hp. reflexivity.
Qed.

(** The number the emergency handler selects for a type that is not the
    name of a member of [Object.prototype]: the cardiac and the trauma
    number for these two types, the main emergency number for every
    other one. *)
Theorem emergency_number_of_a_type env args emergencyType w :
  get args "emergencyType" = Ok (JStr emergencyType) ->
  object_prototype emergencyType = None ->
  get (snd (functionHandlers.emergencyProtocol env args w)) "transferTo"
  = Ok (JStr (if String.eqb emergencyType "cardiac" then EMERGENCY_CONTACTS.cardiac
              else if String.eqb emergencyType "trauma" then EMERGENCY_CONTACTS.trauma
              else EMERGENCY_CONTACTS.main)).
Proof.
  intros Et Hp.
  unfold functionHandlers.emergencyProtocol, functionHandlers.emergencyProtocol_try,
    try_catch, bind, lift, logger_warn, lift_st, ret.
  rewrite Et. destruct (get_total _ _ _ "callerPhone" Et) as [p Ep]. rewrite Ep.
  cbn [logger to_str]. rewrite (emergencyContacts_lookup _ Hp).
  destruct (String.eqb emergencyType "cardiac"); [reflexivity |].
  destruct (String.eqb emergencyType "trauma"); [reflexivity |].
  destruct (String.eqb emergencyType "default"); reflexivity.
Qed.

Lemma emergency_number_witness :
  get (snd (functionHandlers.emergencyProtocol env_online
              (JObj [("emergencyType", JStr "stroke")]) empty_world)) "transferTo"
  = Ok (JStr "+91-22-2640-0000")
  /\ get (snd (functionHandlers.emergencyProtocol env_online
                 (JObj [("emergencyType", JStr "cardiac")]) empty_world)) "transferTo"
     = Ok (JStr "+91-22-2640-3333").
Proof.
  split.
  - exact (emergency_number_of_a_type env_online (JObj [("emergencyType", JStr "stroke")])
             "stroke" empty_world eq_refl eq_refl).
  - exact (emergency_number_of_a_type env_online (JObj [("emergencyType", JStr "cardiac")])
             "cardiac" empty_world eq_refl eq_refl).
Defined.

(** Whatever its arguments, the operator-transfer handler asks for the
    transfer: success=true, action TRANSFER_OPERATOR and a message. When
    the arguments are an object, the department is the one asked for,
    [General] if none is given, and the reason is passed on unchanged. *)
Theorem operator_transfer_is_always_requested env args w :
  let result := snd (functionHandlers.transferToOperator env args w) in
  get result "success" = Ok (JBool true)
  /\ get result "action" = Ok (JStr "TRANSFER_OPERATOR")
  /\ has_message result
  /\ forall department reason,
       get args "department" = Ok department -> get args "reason" = Ok reason ->
       get result "department" = Ok (js_or department (JStr "General"))
       /\ get result "reason" = Ok reason.
Proof.
  cbv zeta.
  unfold functionHandlers.transferToOperator, functionHandlers.transferToOperator_try,
    try_catch, bind, lift, logger_info, lift_st, ret.
  destruct (get args "reason") as [r | e] eqn:Er.
  - destruct (get_total _ _ _ "department" Er) as [d Ed]. rewrite Ed. cbn.
    repeat split; try reflexivity.
    + eexists. split; [reflexivity | discriminate].
    + inversion H. reflexivity.
    + inversion H0. reflexivity.
  - cbn. repeat split; try reflexivity.
    + eexists. split; [reflexivity | discriminate].
    + discriminate.
    + discriminate.
Qed.

Lemma differs_in_log_only_refl w : differs_in_log_only w w.
Proof. destruct w; reflexivity. Qed.

Lemma differs_in_log_only_ignores_log w : ignores_log (differs_in_log_only w).
Proof.
  intros w1 l H. unfold differs_in_log_only in *. rewrite H. reflexivity.
Qed.

(** Function Dispatch reads the store and writes log lines: whatever the
    name and the arguments, it leaves the session, the registry, the
    conversation records and the requests sent out as they were. *)
Theorem dispatch_changes_only_the_log env name args w :
  differs_in_log_only w (fst (functionHandlers.handleFunctionCall env name args w)).
Proof.
  apply (stkeeps_router (differs_in_log_only w) env
           (differs_in_log_only_ignores_log w) name args w).
  apply differs_in_log_only_refl.
Qed.

(** ** The store as the handlers see it *)

Lemma mreturns_lift_st {A} (m : St A) (P : A -> Prop) :
  StReturns m P -> MReturns (lift_st m) P.
Proof. intros H w. unfold lift_st. specialize (H w). destruct (m w). exact H. Qed.

Lemma query_no_data {A} (ans : SbAnswer A) w :
  no_data ans -> exists e, db.query ans w = (w, Throw e).
Proof.
  destruct ans as [[d |] [e |] | e]; simpl; intros H; try contradiction;
    eexists; reflexivity.
Qed.

Section Unavailable.

Variable env : Env.
Hypothesis down : store_unavailable env.

Lemma getHospitalLocations_unavailable :
  StReturns (db.getHospitalLocations env) (eq []).
Proof.
  unfold db.getHospitalLocations. destruct down as [H | H]; intros w.
  - rewrite H. reflexivity.
  - destruct (isSupabaseEnabled env); [| reflexivity]. cbn [negb].
    unfold try_catch, bind. destruct H as (H & _).
    destruct (query_no_data _ w H) as [e E]. rewrite E. reflexivity.
Qed.

Lemma getHospitalLocationByBranch_unavailable b :
  StReturns (db.getHospitalLocationByBranch env b) (eq JNull).
Proof.
  unfold db.getHospitalLocationByBranch. destruct down as [H | H]; intros w.
  - rewrite H. reflexivity.
  - destruct (isSupabaseEnabled env); [| reflexivity]. cbn [negb].
    unfold try_catch, bind. destruct H as (_ & H & _).
    destruct (query_no_data _ w (H b)) as [e E]. rewrite E. reflexivity.
Qed.

Lemma getDepartments_unavailable x : StReturns (db.getDepartments env x) (eq []).
Proof.
  unfold db.getDepartments. destruct down as [H | H]; intros w.
  - rewrite H. reflexivity.
  - destruct (isSupabaseEnabled env); [| reflexivity]. cbn [negb].
    unfold try_catch, bind. destruct H as (_ & _ & H & _).
    destruct (query_no_data _ w (H (db.filter_arg x))) as [e E]. rewrite E.
    reflexivity.
Qed.

Lemma getHospitalInfo_unavailable x : StReturns (db.getHospitalInfo env x) (eq []).
Proof.
  unfold db.getHospitalInfo. destruct down as [H | H]; intros w.
  - rewrite H. reflexivity.
  - destruct (isSupabaseEnabled env); [| reflexivity]. cbn [negb].
    unfold try_catch, bind. destruct H as (_ & _ & _ & H & _).
    destruct (query_no_data _ w (H (db.filter_arg x))) as [e E]. rewrite E.
    reflexivity.
Qed.

Lemma getContactDetails_unavailable x : StReturns (db.getContactDetails env x) (eq []).
Proof.
  unfold db.getContactDetails. destruct down as [H | H]; intros w.
  - rewrite H. reflexivity.
  - destruct (isSupabaseEnabled env); [| reflexivity]. cbn [negb].
    unfold try_catch, bind. destruct H as (_ & _ & _ & _ & H & _).
    destruct (query_no_data _ w (H (db.filter_arg x))) as [e E]. rewrite E.
    reflexivity.
Qed.

Lemma getDoctors_unavailable a b c d e : StReturns (db.getDoctors env a b c d e) (eq []).
Proof.
  unfold db.getDoctors. destruct down as [H | H]; intros w.
  - rewrite H. reflexivity.
  - destruct (isSupabaseEnabled env); [| reflexivity]. cbn [negb].
    unfold try_catch, bind. destruct H as (_ & _ & _ & _ & _ & H & _).
    match goal with |- context [db.query (select_doctors env ?q) w] =>
      destruct (query_no_data _ w (H q)) as [e0 E]; rewrite E end.
    reflexivity.
Qed.

Lemma getDoctorAvailability_unavailable a b :
  StReturns (db.getDoctorAvailability env a b) (eq []).
Proof.
  unfold db.getDoctorAvailability. destruct down as [H | H]; intros w.
  - rewrite H. reflexivity.
  - destruct (isSupabaseEnabled env); [| reflexivity]. cbn [negb].
    unfold try_catch, bind. destruct H as (_ & _ & _ & _ & _ & _ & H & _).
    match goal with |- context [db.query (select_doctor_availability env ?x ?y) w] =>
      destruct (query_no_data _ w (H x y)) as [e0 E]; rewrite E end.
    reflexivity.
Qed.

Lemma then_data_no_data ans w :
  no_data ans -> snd (db.then_data ans w) = Ok [] \/ exists e, snd (db.then_data ans w) = Throw e.
Proof.
  destruct ans as [[d |] [e |] | e]; simpl; intros H; try contradiction.
  - left. reflexivity.
  - right. eexists. reflexivity.
Qed.

Lemma searchHospitalData_unavailable x :
  StReturns (db.searchHospitalData env x)
            (fun r => db.doctors r = [] /\ db.departments r = []).
Proof.
  unfold db.searchHospitalData. pose proof (getDoctors_unavailable x JUndef JUndef JUndef JUndef) as D.
  destruct down as [H | H]; intros w.
  - rewrite H. split; reflexivity.
  - destruct (isSupabaseEnabled env); [| split; reflexivity]. cbn [negb].
    unfold try_catch, bind, lift_st. specialize (D w).
    destruct (db.getDoctors env x JUndef JUndef JUndef JUndef w) as [w1 ds].
    cbn [snd] in D. subst ds.
    destruct H as (_ & _ & _ & _ & _ & _ & _ & H1 & H2).
    specialize (H1 x). specialize (H2 x).
    destruct (search_departments env x) as [[d |] [e |] | e]; simpl in H1;
      try contradiction; cbn; [| split; reflexivity].
    destruct (search_hospital_info env x) as [[d |] [e0 |] | e0]; simpl in H2;
      try contradiction; cbn; split; reflexivity.
Qed.

Lemma catch_reports_failure (h : JsError -> St JsVal) message :
  (forall e w, snd (h e w) = functionHandlers.failure message) ->
  forall e, StReturns (h e) reports_failure.
Proof. intros H e w. rewrite H. reflexivity. Qed.

Ltac fails_step :=
  lazymatch goal with
  | |- MReturns (bind (lift_st (db.getDoctors _ _ _ _ _ _)) _) _ =>
      eapply mreturns_bind;
      [apply mreturns_lift_st, getDoctors_unavailable | intros ? <-]
  | |- MReturns (bind (lift_st (db.getDepartments _ _)) _) _ =>
      eapply mreturns_bind;
      [apply mreturns_lift_st, getDepartments_unavailable | intros ? <-]
  | |- MReturns (bind (lift_st (db.getContactDetails _ _)) _) _ =>
      eapply mreturns_bind;
      [apply mreturns_lift_st, getContactDetails_unavailable | intros ? <-]
  | |- MReturns (bind (lift_st (db.getDoctorAvailability _ _ _)) _) _ =>
      eapply mreturns_bind;
      [apply mreturns_lift_st, getDoctorAvailability_unavailable | intros ? <-]
  | |- MReturns (bind (lift_st (db.getHospitalInfo _ _)) _) _ =>
      eapply mreturns_bind;
      [apply mreturns_lift_st, getHospitalInfo_unavailable | intros ? <-]
  | |- MReturns (bind (lift_st (db.searchHospitalData _ _)) _) _ =>
      eapply mreturns_bind;
      [apply mreturns_lift_st, searchHospitalData_unavailable | intros ? [? ?]]
  | |- MReturns (bind _ _) _ =>
      eapply mreturns_bind; [apply mreturns_any | intros ? _]
  | |- MReturns (ret (functionHandlers.failure _)) _ =>
      apply mreturns_ret; reflexivity
  end.

Lemma searchDoctors_unavailable args :
  StReturns (functionHandlers.searchDoctors env args) reports_failure.
Proof.
  apply streturns_try_catch.
  - unfold functionHandlers.searchDoctors_try. repeat fails_step.
    cbn [length Nat.eqb]. fails_step.
  - eapply catch_reports_failure. reflexivity.
Qed.

Lemma getDepartmentsList_unavailable args :
  StReturns (functionHandlers.getDepartmentsList env args) reports_failure.
Proof.
  apply streturns_try_catch.
  - unfold functionHandlers.getDepartmentsList_try. repeat fails_step.
    cbn [length Nat.eqb]. fails_step.
  - eapply catch_reports_failure. reflexivity.
Qed.

Lemma getContactInfo_unavailable args :
  StReturns (functionHandlers.getContactInfo env args) reports_failure.
Proof.
  apply streturns_try_catch.
  - unfold functionHandlers.getContactInfo_try. repeat fails_step.
    cbn [length Nat.eqb]. fails_step.
  - eapply catch_reports_failure. reflexivity.
Qed.

Lemma checkDoctorAvailability_unavailable args :
  StReturns (functionHandlers.checkDoctorAvailability env args) reports_failure.
Proof.
  apply streturns_try_catch.
  - unfold functionHandlers.checkDoctorAvailability_try. repeat fails_step.
    cbn [length Nat.eqb]. fails_step.
  - eapply catch_reports_failure. reflexivity.
Qed.

Lemma getHospitalLocationsList_unavailable args :
  StReturns (functionHandlers.getHospitalLocationsList env args) reports_failure.
Proof.
  apply streturns_try_catch.
  - unfold functionHandlers.getHospitalLocationsList_try. do 2 fails_step.
    eapply mreturns_bind with (P := eq []).
    + destruct (truthy a).
      * eapply mreturns_bind;
          [apply mreturns_lift_st, getHospitalLocationByBranch_unavailable
          | intros ? <-]. apply mreturns_ret. reflexivity.
      * apply mreturns_lift_st, getHospitalLocations_unavailable.
    + intros ? <-. cbn [length Nat.eqb]. fails_step.
  - eapply catch_reports_failure. reflexivity.
Qed.

Lemma searchHospitalInformation_unavailable args :
  StReturns (functionHandlers.searchHospitalInformation env args) reports_failure.
Proof.
  apply streturns_try_catch.
  - unfold functionHandlers.searchHospitalInformation_try. do 4 fails_step.
    cbn [filter_exc]. eapply mreturns_bind with (P := eq []).
    + apply mreturns_lift. intros l E. inversion E. reflexivity.
    + intros ? <-. rewrite H, H0. cbn [length Nat.eqb andb]. fails_step.
  - eapply catch_reports_failure. reflexivity.
Qed.

Lemma data_handlers_unavailable key h args :
  In (key, h) functionHandlers.handlers ->
  functionHandlers.declares_action key = false ->
  StReturns (h env args) reports_failure.
Proof.
  unfold functionHandlers.handlers. simpl.
  intros [E | [E | [E | [E | [E | [E | [E | [E | []]]]]]]]] Ha; inversion E; subst;
    try discriminate Ha.
  - apply searchDoctors_unavailable.
  - apply getDepartmentsList_unavailable.
  - apply getHospitalLocationsList_unavailable.
  - apply getContactInfo_unavailable.
  - apply checkDoctorAvailability_unavailable.
  - apply searchHospitalInformation_unavailable.
Qed.

End Unavailable.

(** When the store is not configured, or when none of its reads brings
    data, each of the six functions that answer from the store returns
    success=false, whatever its arguments: no data is made up. The read
    failures are absorbed below the handlers, which answer as they do
    when nothing is found. *)
Theorem data_functions_fail_without_the_store env name args w :
  store_unavailable env ->
  In name declared_names ->
  functionHandlers.declares_action name = false ->
  get (snd (functionHandlers.handleFunctionCall env (JStr name) args w)) "success"
  = Ok (JBool false).
Proof.
  intros Hs Hin Ha. destruct (find_declared name Hin) as (h & F & I).
  unfold functionHandlers.handleFunctionCall, functionHandlers.handlers_get, st_bind.
  cbn [logger to_str]. rewrite F. cbn [snd]. unfold try_catch, lift_st.
  pose proof (data_handlers_unavailable env Hs name h args I Ha
                (with_log (log w ++ [{| level := Info;
                                        text := "Function called: " ++ name |}]) w)) as R.
  destruct (h env args _) as [w1 r]. exact R.
Qed.

Lemma data_functions_witness :
  store_unavailable env_offline
  /\ get (snd (functionHandlers.handleFunctionCall env_offline (JStr "search_doctors")
                 (JObj [("specialization", JStr "Cardiology")]) empty_world)) "success"
     = Ok (JBool false).
Proof.
  assert (H : store_unavailable env_offline) by (left; reflexivity).
  split; [exact H |].
  apply (data_functions_fail_without_the_store env_offline "search_doctors" _ empty_world H).
  - simpl. tauto.
  - reflexivity.
Defined.

(** ** The registry *)

Lemma replace_nth_last {A} (f : A -> A) (l : list A) (x : A) :
  conversationManager.replace_nth (length l) f (l ++ [x]) = (l ++ [f x])%list.
Proof. induction l as [| y l IH]; simpl; [reflexivity | rewrite IH; reflexivity]. Qed.

Lemma map_get_set key v m :
  strict_eq key key = true ->
  conversationManager.map_get key (conversationManager.map_set key v m) = Some v.
Proof.
  intros K. induction m as [| [k v0] rest IH]; simpl.
  - rewrite K. reflexivity.
  - destruct (strict_eq k key) eqn:E; simpl; rewrite E; [reflexivity | exact IH].
Qed.

Lemma new_Conversation_spec callSid sessionId phoneNumber conversationType w :
  exists sid u,
    conversationManager.new_Conversation callSid sessionId phoneNumber conversationType w
    = (with_heap (heap w ++ [fresh_record callSid sid phoneNumber conversationType (now w)])
                 (with_uuids u w),
       length (heap w))
    /\ (truthy sessionId = true -> sid = sessionId /\ u = uuids w).
Proof.
  unfold conversationManager.new_Conversation, st_bind.
  destruct (truthy sessionId).
  - exists sessionId, (uuids w). split; [| auto].
    unfold st_ret, Date_now, conversationManager.alloc, fresh_record.
    destruct w; reflexivity.
  - eexists _, _. split; [reflexivity | discriminate].
Qed.

(** [Conversation.initialize] sets the store id of the record, and
    nothing else of the records or the registry. *)
Lemma keeps_initialize_record env H c0 (I : World -> Prop) :
  ignores_log I -> ignores_other_writes I -> ignores_heap I ->
  Keeps (fun x => (exists idv, heap x = (H ++ [Conversation.with_id idv c0])%list) /\ I x)
        (conversationManager.initialize env (length H)).
Proof.
  intros Hl Ho Hh.
  assert (Jl : ignores_log (fun x => (exists idv, heap x
                                        = (H ++ [Conversation.with_id idv c0])%list) /\ I x)).
  { intros x l [E Ix]. split; [exact E | apply Hl; exact Ix]. }
  assert (Jo : ignores_other_writes
                 (fun x => (exists idv, heap x
                              = (H ++ [Conversation.with_id idv c0])%list) /\ I x)).
  { intros x wr [E Ix]. specialize (Ho x wr Ix). destruct wr; try exact Logic.I;
      split; assumption. }
  unfold conversationManager.initialize. frame.
  intros x [[idv E] Ix]. split.
  - exists a1. cbn. rewrite E, replace_nth_last. reflexivity.
  - apply Hh. exact Ix.
Qed.

(** [createConversation] adds one record to the heap, started now and
    with no message yet, and registers it under the call identifier, or
    under the session identifier if there is no call identifier. The
    other records are left as they are and no conversation is ended. *)
Theorem created_conversation_is_registered
  env callSid sessionId phoneNumber conversationType w :
  strict_eq (js_or callSid sessionId) (js_or callSid sessionId) = true ->
  let result :=
    run (conversationManager.createConversation env callSid sessionId phoneNumber
           conversationType) w in
  let conversation := snd result in
  let record := nth conversation (heap (fst result)) conversationManager.dangling in
  conversation = length (heap w)
  /\ conversationManager.map_get (js_or callSid sessionId)
       (activeConversations (fst result)) = Some conversation
  /\ (exists record0, heap (fst result) = (heap w ++ [record0])%list)
  /\ Conversation.callSid record = callSid
  /\ Conversation.phoneNumber record = phoneNumber
  /\ Conversation.startTime record = now w
  /\ Conversation.messages record = []
  /\ endCalls (fst result) = endCalls w.
Proof.
  intros K. cbv zeta.
  destruct (new_Conversation_spec callSid sessionId phoneNumber conversationType w)
    as (sid & u & E & _).
  set (c0 := fresh_record callSid sid phoneNumber conversationType (now w)) in *.
  set (I := fun x : World =>
              activeConversations x = activeConversations w
              /\ endCalls x = endCalls w).
  set (J := fun x : World =>
              (exists idv, heap x = (heap w ++ [Conversation.with_id idv c0])%list) /\ I x).
  assert (Q : wp (conversationManager.createConversation env callSid sessionId phoneNumber
                    conversationType)
                 (fun w1 c =>
                    c = length (heap w)
                    /\ activeConversations w1
                       = conversationManager.map_set (js_or callSid sessionId) c
                           (activeConversations w)
                    /\ (exists idv, heap w1
                                    = (heap w ++ [Conversation.with_id idv c0])%list)
                    /\ endCalls w1 = endCalls w) w).
  { unfold conversationManager.createConversation. apply wp_Atomic. rewrite E.
    cbn [fst snd]. apply wp_abind.
    eapply wp_conseq.
    - apply (wp_keeps J).
      + apply keeps_initialize_record;
          [intros x l Hx; exact Hx
          | intros x wr Hx; destruct wr; try exact Logic.I; exact Hx
          | intros x l Hx; exact Hx].
      + split; [exists JNull; reflexivity | split; reflexivity].
    - cbv beta. intros w1 _ [[idv Hh] [Ha He]]. wp_steps.
      cbn. rewrite Ha. repeat split; [exists idv; exact Hh | exact He]. }
  unfold wp in Q. destruct Q as (Qc & Qa & [idv Qh] & Qe).
  rewrite Qc at 1. split; [reflexivity |].
  split; [rewrite Qa; apply map_get_set; exact K |].
  split; [eexists; exact Qh |].
  rewrite Qc, Qh, app_nth2, Nat.sub_diag by lia. cbn [nth].
  repeat split. exact Qe.
Qed.

Lemma created_conversation_witness :
  let result :=
    run (conversationManager.createConversation env_online (JStr "C7") JUndef
           (JStr "+911234567890") (JStr "phone")) empty_world in
  conversationManager.map_get (JStr "C7") (activeConversations (fst result)) = Some 0%nat
  /\ Conversation.startTime (nth 0 (heap (fst result)) conversationManager.dangling) = 0.
Proof.
  cbv zeta.
  destruct (created_conversation_is_registered env_online (JStr "C7") JUndef
              (JStr "+911234567890") (JStr "phone") empty_world eq_refl)
    as (Ec & Em & _ & _ & _ & Et & _).
  rewrite Ec in Em, Et. split; [exact Em | exact Et].
Defined.

(** [endConversation] on an identifier that is not registered ends
    nothing: it returns [null], logs a warning and changes nothing
    else. *)
Theorem ending_an_unknown_conversation_is_refused env identifier status w :
  conversationManager.map_get identifier (activeConversations w) = None ->
  run (conversationManager.endConversation env identifier status) w
  = (with_log (log w ++ [{| level := Warn;
                            text := "Conversation not found: " ++ to_str identifier |}]) w,
     JNull).
Proof.
  intros H. destruct (endConversation_missing env identifier status w H) as [E1 E2].
  rewrite (surjective_pairing (run _ w)). rewrite E1, E2. reflexivity.
Qed.

Lemma ending_unknown_witness :
  snd (run (conversationManager.endConversation env_online (JStr "C9") (JStr "completed"))
           empty_world) = JNull.
Proof.
  rewrite (ending_an_unknown_conversation_is_refused env_online (JStr "C9")
             (JStr "completed") empty_world eq_refl).
  reflexivity.
Defined.

Lemma wp_any {A} (t : Async A) w : wp t (fun _ _ => True) w.
Proof. exact Logic.I. Qed.

Lemma end_body_result env c st w :
  snd (run (conversationManager.end_body env c st) w)
  = JObj [("duration",
           JNum ((now w - Conversation.startTime
                             (nth c (heap w) conversationManager.dangling)) / 1000));
          ("status", st)].
Proof.
  change (wp (conversationManager.end_body env c st)
             (fun _ r => r = JObj [("duration",
                                    JNum ((now w - Conversation.startTime
                                             (nth c (heap w) conversationManager.dangling))
                                          / 1000));
                                   ("status", st)]) w).
  unfold conversationManager.end_body. wp_steps.
  destruct (truthy (Conversation.id (nth c (heap w) conversationManager.dangling))).
  - wp_steps. eapply wp_conseq; [apply wp_any |]. cbv beta. intros w1 _ _. wp_steps.
    destruct (0 <? _)%nat; wp_steps.
    + eapply wp_conseq; [apply wp_any |]. cbv beta. intros w2 _ _. wp_steps.
      reflexivity.
    + reflexivity.
  - wp_steps. reflexivity.
Qed.

(** Ending a registered conversation returns its duration, in whole
    seconds from its start to now, and the status it was ended with;
    the entry is gone from the registry afterwards. This holds whatever
    the store answers. *)
Theorem ended_conversation_reports_its_duration env identifier status w c :
  conversationManager.map_get identifier (activeConversations w) = Some c ->
  let result := run (conversationManager.endConversation env identifier status) w in
  snd result
  = JObj [("duration",
           JNum ((now w - Conversation.startTime
                             (nth c (heap w) conversationManager.dangling)) / 1000));
          ("status", status)]
  /\ conversationManager.map_get identifier (activeConversations (fst result)) = None.
Proof.
  intros H. cbv zeta. split.
  - unfold conversationManager.endConversation. cbn [run conversationManager.getConversation].
    rewrite H. rewrite run_bind. cbn [run snd].
    unfold conversationManager.end_. cbn [run conversationManager.record_end].
    destruct (run (conversationManager.end_body env c status) _) as [w1 r] eqn:R.
    cbn [fst snd logger].
    pose proof (end_body_result env c status
                  (with_endCalls (endCalls w ++ [(c, status)]) w)) as E.
    rewrite R in E. exact E.
  - destruct (endConversation_found env identifier status w c H) as (_ & _ & _ & _ & A & _).
    rewrite A. apply map_get_delete.
Qed.

Lemma ended_conversation_witness :
  let p := two_calls env_online in
  snd (run (conversationManager.endConversation env_online (JStr "C1") (JStr "failed"))
           (world p))
  = JObj [("duration", JNum 1860); ("status", JStr "failed")].
Proof.
  cbv zeta.
  destruct (ended_conversation_reports_its_duration env_online (JStr "C1") (JStr "failed")
              (world (two_calls env_online)) 0%nat eq_refl) as [E _].
  rewrite E. reflexivity.
Defined.

(** ** More on the staleness sweep *)

Lemma sweep_nothing_stale env T entries p cleaned :
  Forall (fun e => conversationManager.is_stale T (world p) e = false) entries ->
  conversationManager.sweep env T entries p cleaned = (p, cleaned).
Proof.
  induction 1 as [| [k c] rest H _ IH]; cbn [conversationManager.sweep]; [reflexivity |].
  rewrite H. exact IH.
Qed.

Lemma recent_not_stale w e :
  recent w e ->
  conversationManager.is_stale (now w - conversationManager.thirty_minutes) w e = false.
Proof.
  unfold recent, conversationManager.is_stale, conversationManager.thirty_minutes.
  intros H. apply Z.ltb_ge. exact H.
Qed.

(** A sweep over a registry whose records all started at most 30
    minutes ago (a record exactly 30 minutes old included) does
    nothing: no record is ended, nothing is removed or logged, and the
    count is 0. *)
Theorem sweep_spares_recent_records env p :
  Forall (recent (world p)) (activeConversations (world p)) ->
  conversationManager.cleanupStaleConversations env p = (p, 0%nat).
Proof.
  intros H. unfold conversationManager.cleanupStaleConversations.
  rewrite sweep_nothing_stale; [reflexivity |].
  eapply Forall_impl; [| exact H]. intros e. apply recent_not_stale.
Qed.

Lemma sweep_spares_witness :
  let p := steps env_online [Tick (30 * 60 * 1000)]
             (spawn_and_finish
                (abind (conversationManager.createConversation env_online (JStr "C1")
                          JUndef JUndef JUndef) (fun _ => Return tt))
                {| world := empty_world; pending := [] |}) in
  Forall (recent (world p)) (activeConversations (world p))
  /\ conversationManager.cleanupStaleConversations env_online p = (p, 0%nat).
Proof.
  cbv zeta.
  match goal with |- Forall _ (activeConversations (world ?q)) /\ _ => set (p := q) end.
  assert (H : Forall (recent (world p)) (activeConversations (world p))).
  { constructor; [| constructor]. unfold recent. vm_compute. discriminate. }
  split; [exact H | exact (sweep_spares_recent_records env_online p H)].
Defined.

Lemma filter_registry_ok f m : registry_ok m -> registry_ok (filter f m).
Proof.
  induction m as [| [k v] rest IH]; simpl; [trivial |].
  intros (K & F & R). destruct (f (k, v)); simpl.
  - split; [exact K |]. split; [| apply IH; exact R].
    rewrite Forall_forall in *. intros e He. apply F.
    apply filter_In in He. apply He.
  - apply IH. exact R.
Qed.

(** The state a sweep leaves: the clock and the records as they were,
    the registry without the stale entries. *)
Lemma cleanupStaleConversations_state env p :
  registry_ok (activeConversations (world p)) ->
  let T := now (world p) - conversationManager.thirty_minutes in
  let p1 := fst (conversationManager.cleanupStaleConversations env p) in
  activeConversations (world p1)
  = filter (fun e => negb (conversationManager.is_stale T (world p) e))
           (activeConversations (world p))
  /\ heap (world p1) = heap (world p)
  /\ now (world p1) = now (world p).
Proof.
  intros HR. cbv zeta. unfold conversationManager.cleanupStaleConversations.
  assert (HD : Forall (fun e : JsVal * nat =>
                         Forall (fun kv : JsVal * nat => strict_eq (fst kv) (fst e) = false)
                                []) (activeConversations (world p)))
    by (apply Forall_forall; intros; constructor).
  destruct (sweep_spec env (now (world p) - conversationManager.thirty_minutes)
              (activeConversations (world p)) p 0%nat [] eq_refl HD HR)
    as (R1 & _ & _ & R4 & R5).
  destruct (conversationManager.sweep env _ _ p 0) as [p1 cleaned].
  cbn [fst snd app] in *.
  destruct (0 <? cleaned)%nat; cbn [fst world logger];
    repeat split; try assumption; destruct (world p1); cbn in *; assumption.
Qed.

(** A second sweep at the same time finds nothing to do: whatever the
    first one left is not stale. *)
Theorem second_sweep_finds_nothing env p :
  registry_ok (activeConversations (world p)) ->
  let p1 := fst (conversationManager.cleanupStaleConversations env p) in
  conversationManager.cleanupStaleConversations env p1 = (p1, 0%nat).
Proof.
  intros HR. cbv zeta.
  destruct (cleanupStaleConversations_state env p HR) as (A & Hh & Hn).
  set (p1 := fst (conversationManager.cleanupStaleConversations env p)) in *.
  unfold conversationManager.cleanupStaleConversations.
  rewrite sweep_nothing_stale; [reflexivity |].
  rewrite A, Hn. apply Forall_forall. intros e He.
  apply filter_In in He. destruct He as [_ He].
  rewrite (is_stale_heap _ (world p) (world p1) e Hh).
  destruct (conversationManager.is_stale _ (world p) e); [discriminate | reflexivity].
Qed.

Lemma second_sweep_witness :
  let p1 := fst (conversationManager.cleanupStaleConversations env_online
                   (two_calls env_online)) in
  registry_ok (activeConversations (world (two_calls env_online)))
  /\ conversationManager.cleanupStaleConversations env_online p1 = (p1, 0%nat).
Proof.
  cbv zeta.
  assert (HR : registry_ok (activeConversations (world (two_calls env_online)))).
  { vm_compute. repeat split; repeat constructor. }
  split; [exact HR | exact (second_sweep_finds_nothing env_online _ HR)].
Defined.

(** ** The transcript of a conversation *)

Lemma id_after_message self ms h :
  Conversation.id (nth self (conversationManager.replace_nth self
                               (Conversation.with_messages ms) h)
                       conversationManager.dangling)
  = Conversation.id (nth self h conversationManager.dangling)
  /\ Conversation.languageDetected
       (nth self (conversationManager.replace_nth self (Conversation.with_messages ms) h)
            conversationManager.dangling)
     = Conversation.languageDetected (nth self h conversationManager.dangling).
Proof.
  revert self. induction h as [| x h IH]; intros [| n]; simpl; try (split; reflexivity).
  apply IH.
Qed.

Lemma replace_nth_ext {A} (f g : A -> A) n l d :
  f (nth n l d) = g (nth n l d) ->
  conversationManager.replace_nth n f l = conversationManager.replace_nth n g l.
Proof.
  revert n. induction l as [| x l IH]; intros [| n] H; simpl in *; try reflexivity.
  - rewrite H. reflexivity.
  - rewrite (IH n H). reflexivity.
Qed.

(** [Conversation.addMessage] appends one message, stamped with the
    current time, to the messages of the record and to no other record.
    The message is sent to the store only when the record has a store id
    and the store is configured; the outcome of that write changes
    nothing of the record. *)
Theorem added_message_is_appended env self role content w :
  let w1 := fst (run (conversationManager.addMessage env self role content) w) in
  let record := nth self (heap w) conversationManager.dangling in
  heap w1 = heap_with_message self (logged_message role content (now w)) (heap w)
  /\ dbWrites w1
     = (dbWrites w
        ++ (if (truthy (Conversation.id record) && isSupabaseEnabled env)%bool
            then [InsertMessage (message_row (Conversation.id record) role content
                                   (Conversation.languageDetected record) (now w))]
            else []))%list
  /\ activeConversations w1 = activeConversations w
  /\ endCalls w1 = endCalls w.
Proof.
  cbv zeta. unfold conversationManager.addMessage.
  cbn [run st_bind Date_now conversationManager.deref conversationManager.update].
  set (ms := (Conversation.messages (nth self (heap w) conversationManager.dangling)
              ++ [{| Conversation.role := role; Conversation.content := content;
                     Conversation.timestamp := now w;
                     Conversation.metadata := JObj [] |}])%list).
  cbn [heap with_heap].
  destruct (id_after_message self ms (heap w)) as [Ei El]. rewrite Ei.
  assert (Hh : conversationManager.replace_nth self (Conversation.with_messages ms) (heap w)
               = heap_with_message self (logged_message role content (now w)) (heap w)).
  { unfold heap_with_message. apply replace_nth_ext with (d := conversationManager.dangling).
    reflexivity. }
  destruct (truthy (Conversation.id (nth self (heap w) conversationManager.dangling)));
    cbn [andb run fst].
  - rewrite run_bind. cbn [run fst]. unfold db.addConversationMessage.
    destruct (isSupabaseEnabled env); cbn [negb].
    + rewrite El. unfold message_row.
      cbn [run atry abind abind_exc atomic_st atomic Date_now db.record_write fst snd].
      match goal with
      | |- context [insert_message env ?r] =>
          destruct (insert_message env r) as [d [e |] | e]
      end; cbn; (split; [exact Hh | repeat split]).
    + cbn. rewrite app_nil_r. split; [exact Hh | repeat split].
  - cbn. rewrite app_nil_r. split; [exact Hh | repeat split].
Qed.

(** What the caller said and what the assistant said end up in the
    record of the call: a user item with a transcript and a finished
    assistant transcript each append one message, with the role [user]
    resp. [assistant] and the transcript as its content. Nothing is sent
    to either socket. *)
Theorem transcripts_are_logged env transcript c w :
  truthy transcript = true ->
  Handler.conversation (this w) = Some c ->
  let said_by role event :=
    let w1 := fst (run (realtimeHandler.handleOpenAIMessage env event) w) in
    heap w1 = heap_with_message c (logged_message (JStr role) transcript (now w)) (heap w)
    /\ this w1 = this w in
  said_by "user" (user_transcript_event transcript)
  /\ said_by "assistant" (assistant_transcript_event transcript).
Proof.
  intros T C. cbv zeta.
  pose proof (added_message_is_appended env c (JStr "user") transcript w) as U.
  pose proof (added_message_is_appended env c (JStr "assistant") transcript w) as A.
  cbv zeta in U, A. destruct U as (U & _). destruct A as (A & _).
  assert (K : forall role, this (fst (run (conversationManager.addMessage env c role
                                             transcript) w)) = this w).
  { intros role.
    apply (keeps_run (fun x => this x = this w)); [| reflexivity].
    apply keeps_addMessage; intros x l H; try exact H.
    destruct l; try exact Logic.I; exact H. }
  split.
  - unfold realtimeHandler.handleOpenAIMessage, user_transcript_event.
    unfold abind_exc at 1. rewrite run_bind. cbn [run atomic lift get assoc String.eqb
      Ascii.eqb Bool.eqb fst snd strict_eq].
    cbn. unfold js_or. rewrite T. cbn. rewrite T. cbn. rewrite C. cbn.
    unfold total. rewrite run_bind. cbn [run fst snd]. split; [exact U | apply K].
  - unfold realtimeHandler.handleOpenAIMessage, assistant_transcript_event.
    cbn. rewrite T. cbn. rewrite C. cbn.
    unfold total. rewrite run_bind. cbn [run fst snd]. split; [exact A | apply K].
Qed.

Lemma transcripts_witness :
  let w := world (call_in_progress env_online) in
  let w1 := fst (run (realtimeHandler.handleOpenAIMessage env_online
                        (user_transcript_event (JStr "I need a cardiologist"))) w) in
  map Conversation.content (Conversation.messages (nth 0 (heap w1) conversationManager.dangling))
  = [JStr "I need a cardiologist"].
Proof.
  cbv zeta.
  destruct (transcripts_are_logged env_online (JStr "I need a cardiologist") 0%nat
              (world (call_in_progress env_online)) eq_refl eq_refl) as [[H _] _].
  rewrite H. reflexivity.
Defined.
